(** * CloudySky: the data model of [app/robot-models.py] and the demo views

    The repository declares a Django schema (users, block reasons, posts,
    comments, media uploads, likes) and three view functions.  The schema is
    embedded as records stored in primary-key indexed tables; the operations
    the ORM derives from the declarations (insert with constraint checks,
    [Media.save], deletion with the declared [on_delete] handlers and the
    generic relations) are functions on the database state.  The views are
    functions from a request to an optional response. *)

From stdpp Require Import gmap strings list fin_maps pretty.

Open Scope Z_scope.

(** ** Errors raised by the ORM and by the file storage *)

(** The database constraint that rejected a write. *)
Inductive Constraint :=
| NotNull (column : string)
| ForeignKey (column : string)
| Unique (name : string)
| NonNegative (column : string)
| OutOfRange (column : string).

Inductive Error :=
| IntegrityError (c : Constraint)
| ProtectedError (relation : string)
| ValueError (msg : string)
| OverflowError (msg : string)
| FileNotFoundError (name : string)
| SuspiciousFileOperation (msg : string).

Inductive Result (A : Type) :=
| Ok (a : A)
| Err (e : Error).

Arguments Ok {A} a.
Arguments Err {A} e.

#[global] Instance Result_ret : MRet Result := λ A a, Ok a.

#[global] Instance Result_bind : MBind Result := λ A B k r,
  match r with
  | Ok a => k a
  | Err e => Err e
  end.

(** [require b e]: go on when the check [b] holds, raise [e] otherwise. *)
Definition require (b : bool) (e : Error) : Result unit :=
  if b then Ok tt else Err e.

(** ** Content types

    [django.contrib.contenttypes] keeps one [ContentType] row per installed
    model; a generic foreign key stores such a row together with an object
    id.  The rows of the app's own models are enumerated. *)
Inductive ContentType :=
| CT_User
| CT_BlockReason
| CT_Post
| CT_Comment
| CT_Media
| CT_Like.

#[global] Instance ContentType_eq_dec : EqDecision ContentType.
Proof. solve_decision. Defined.

(** Largest value a [PositiveBigIntegerField] holds on every backend. *)
Definition MAX_BIGINT : Z := 9223372036854775807.

(** Column checks of a [PositiveBigIntegerField] named [column]. *)
Definition check_positive_big_integer (column : string) (v : Z)
    : Result unit :=
  require (bool_decide (0 ≤ v)) (IntegrityError (NonNegative column));;
  require (bool_decide (v ≤ MAX_BIGINT)) (IntegrityError (OutOfRange column)).

(** A column declared without [null=True]. *)
Definition not_null {A} (column : string) (v : option A) : Result A :=
  match v with
  | Some a => Ok a
  | None => Err (IntegrityError (NotNull column))
  end.

(** The primary key of the next inserted row: above every key in the table,
    as the keys a sequence hands out are (keys of rows deleted since are not
    remembered). *)
Definition next_pk {A} (table : gmap Z A) : Z :=
  map_fold (λ k _ acc, Z.max k acc) 0 table + 1.

(** The [on_delete] handlers of [django.db.models]: what happens to the rows
    that reference a row being deleted. *)
Inductive OnDelete :=
| CASCADE
| SET_NULL
| PROTECT.

(** ** The models of [app/robot-models.py] *)

Module User.
Definition ADMINISTRATOR : string := "admin".
Definition SERF : string := "serf".
Definition ROLE_CHOICES : list (string * string) :=
  [(ADMINISTRATOR, "Administrator"); (SERF, "Serf")].

(** [username] is inherited from [AbstractUser]; the other columns are the
    ones the class adds. *)
Record t := {
  username : string;
  role : string;
  nickname : string;
  avatar : option string;
  bio : string
}.

(** [role = models.CharField(..., default=SERF)] *)
Definition role_default : string := SERF.

(** [User(username=..., nickname=..., role=..., ...)]: a keyword that is not
    passed takes the field's default. *)
Definition new (username' nickname' : string) (role' : option string)
    (avatar' : option string) (bio' : string) : t :=
  {| username := username';
     role := default role_default role';
     nickname := nickname';
     avatar := avatar';
     bio := bio' |}.
End User.

Module BlockReason.
Record t := {
  code : string;
  description : string
}.
End BlockReason.

Module Post.
Record t := {
  author : Z;
  text : string;
  created_at : Z;
  is_hidden : bool;
  hidden_reason : option Z;
  hidden_by : option Z;
  hidden_at : option Z
}.

(** The [on_delete] argument of the foreign keys [author], [hidden_reason]
    and [hidden_by]. *)
Definition author_on_delete : OnDelete := CASCADE.
Definition hidden_reason_on_delete : OnDelete := SET_NULL.
Definition hidden_by_on_delete : OnDelete := SET_NULL.

Definition set_hidden_reason (v : option Z) (p : t) : t :=
  {| author := author p; text := text p; created_at := created_at p;
     is_hidden := is_hidden p; hidden_reason := v;
     hidden_by := hidden_by p; hidden_at := hidden_at p |}.

Definition set_hidden_by (v : option Z) (p : t) : t :=
  {| author := author p; text := text p; created_at := created_at p;
     is_hidden := is_hidden p; hidden_reason := hidden_reason p;
     hidden_by := v; hidden_at := hidden_at p |}.
End Post.

Module Comment.
Record t := {
  post : Z;
  author : Z;
  text : string;
  created_at : Z;
  is_hidden : bool;
  hidden_reason : option Z;
  hidden_by : option Z;
  hidden_at : option Z
}.

(** The [on_delete] argument of the foreign keys [post], [author],
    [hidden_reason] and [hidden_by]. *)
Definition post_on_delete : OnDelete := CASCADE.
Definition author_on_delete : OnDelete := CASCADE.
Definition hidden_reason_on_delete : OnDelete := SET_NULL.
Definition hidden_by_on_delete : OnDelete := SET_NULL.

Definition set_hidden_reason (v : option Z) (c : t) : t :=
  {| post := post c; author := author c; text := text c;
     created_at := created_at c; is_hidden := is_hidden c;
     hidden_reason := v; hidden_by := hidden_by c;
     hidden_at := hidden_at c |}.

Definition set_hidden_by (v : option Z) (c : t) : t :=
  {| post := post c; author := author c; text := text c;
     created_at := created_at c; is_hidden := is_hidden c;
     hidden_reason := hidden_reason c; hidden_by := v;
     hidden_at := hidden_at c |}.
End Comment.

(** The file storage: the content kept under each name. *)
Abbreviation Storage := (gmap string (list Byte.byte)).

(** How the storage names an upload is taken as an interface.
    [generate_filename upload_to name] is [FileField.generate_filename]: the
    name joined to [upload_to] and cleaned by the storage, which raises
    [SuspiciousFileOperation] for a name it cannot clean.
    [get_available_name st name] is [Storage.get_available_name]: [name], or
    a lengthened name when [name] is taken, or [SuspiciousFileOperation]
    when none fits the column.  The name it returns is not empty, and
    nothing is stored under it. *)
Class FileStorage := {
  generate_filename : string → string → Result string;
  get_available_name : Storage → string → Result string;
  get_available_name_free st name stored :
    get_available_name st name = Ok stored → st !! stored = None;
  get_available_name_nonempty st name stored :
    get_available_name st name = Ok stored → stored ≠ ""
}.

Module FieldFile.
(** The value of a [FileField] on an instance: the file's [name] (empty when
    no file is set) and, while the file has been assigned but not yet
    written to the storage, its [pending] content. *)
Record t := {
  name : string;
  pending : option (list Byte.byte)
}.

(** [bool(file)] *)
Definition truthy (f : t) : bool := bool_decide (name f ≠ "").

(** [file.size]: the length of the pending upload, or else of what the
    storage holds under the file's name now. *)
Definition size (st : Storage) (f : t) : Result Z :=
  if truthy f then
    match pending f with
    | Some content => Ok (Z.of_nat (length content))
    | None =>
        match st !! name f with
        | Some content => Ok (Z.of_nat (length content))
        | None => Err (FileNotFoundError (name f))
        end
    end
  else Err (ValueError "The 'file' attribute has no file associated with it.").

(** [FileField.pre_save]: a pending file is written to the storage, under
    the name the storage gives it, and the file is named after it:
    [[
    if file and not file._committed:
        file.save(file.name, file.file, save=False)
    ]]
    where [FieldFile.save] is
    [[
    name = self.field.generate_filename(self.instance, name)
    self.name = self.storage.save(name, content, ...)
    ]] *)
Definition commit {FS : FileStorage} (st : Storage) (upload_to : string) (f : t)
    : Result (Storage * t) :=
  match pending f with
  | Some content =>
      if truthy f then
        wanted ← generate_filename upload_to (name f);
        stored ← get_available_name st wanted;
        Ok (<[stored := content]> st, {| name := stored; pending := None |})
      else Ok (st, f)
  | None => Ok (st, f)
  end.
End FieldFile.

Module Media.
(** A stored row: [file] is the name under which the storage keeps the
    upload. *)
Record t := {
  file : string;
  size_bytes : Z;
  uploaded_at : Z;
  content_type : ContentType;
  object_id : Z;
  uploader_content_type : ContentType;
  uploader_object_id : Z
}.

Definition upload_to : string := "uploads/".

Module Obj.
(** A [Media] instance in memory: an attribute that was never assigned is
    [None]. *)
Record t := {
  pk : option Z;
  file : FieldFile.t;
  size_bytes : option Z;
  uploaded_at : option Z;
  content_type : option ContentType;
  object_id : option Z;
  uploader_content_type : option ContentType;
  uploader_object_id : option Z
}.

Definition set_size_bytes (v : option Z) (o : t) : t :=
  {| pk := pk o; file := file o; size_bytes := v;
     uploaded_at := uploaded_at o; content_type := content_type o;
     object_id := object_id o;
     uploader_content_type := uploader_content_type o;
     uploader_object_id := uploader_object_id o |}.

(** [Media(file=..., content_type=..., object_id=...,
    uploader_content_type=..., uploader_object_id=...)]: a new instance of
    an upload [content] named [name'], with no primary key, size or upload
    time yet. *)
Definition new (name' : string) (content : list Byte.byte)
    (ct : ContentType) (oid : Z) (uct : ContentType) (uoid : Z) : t :=
  {| pk := None;
     file := {| FieldFile.name := name'; FieldFile.pending := Some content |};
     size_bytes := None;
     uploaded_at := None;
     content_type := Some ct;
     object_id := Some oid;
     uploader_content_type := Some uct;
     uploader_object_id := Some uoid |}.
End Obj.

(** The instance the ORM builds from the stored row [pk]. *)
Definition from_db (pk : Z) (row : t) : Obj.t :=
  {| Obj.pk := Some pk;
     Obj.file := {| FieldFile.name := file row; FieldFile.pending := None |};
     Obj.size_bytes := Some (size_bytes row);
     Obj.uploaded_at := Some (uploaded_at row);
     Obj.content_type := Some (content_type row);
     Obj.object_id := Some (object_id row);
     Obj.uploader_content_type := Some (uploader_content_type row);
     Obj.uploader_object_id := Some (uploader_object_id row) |}.
End Media.

Module Like.
Record t := {
  user : Z;
  created_at : Z;
  content_type : ContentType;
  object_id : Z
}.

(** The [on_delete] argument of the foreign key [user]. *)
Definition user_on_delete : OnDelete := CASCADE.
End Like.

(** ** The database: one table per model, indexed by primary key *)

Record DB := {
  users : gmap Z User.t;
  block_reasons : gmap Z BlockReason.t;
  posts : gmap Z Post.t;
  comments : gmap Z Comment.t;
  media : gmap Z Media.t;
  likes : gmap Z Like.t
}.

Definition empty_db : DB :=
  {| users := ∅; block_reasons := ∅; posts := ∅; comments := ∅;
     media := ∅; likes := ∅ |}.

Definition with_users (v : gmap Z User.t) (db : DB) : DB :=
  {| users := v; block_reasons := block_reasons db; posts := posts db;
     comments := comments db; media := media db; likes := likes db |}.

Definition with_block_reasons (v : gmap Z BlockReason.t) (db : DB) : DB :=
  {| users := users db; block_reasons := v; posts := posts db;
     comments := comments db; media := media db; likes := likes db |}.

Definition with_posts (v : gmap Z Post.t) (db : DB) : DB :=
  {| users := users db; block_reasons := block_reasons db; posts := v;
     comments := comments db; media := media db; likes := likes db |}.

Definition with_comments (v : gmap Z Comment.t) (db : DB) : DB :=
  {| users := users db; block_reasons := block_reasons db; posts := posts db;
     comments := v; media := media db; likes := likes db |}.

Definition with_media (v : gmap Z Media.t) (db : DB) : DB :=
  {| users := users db; block_reasons := block_reasons db; posts := posts db;
     comments := comments db; media := v; likes := likes db |}.

Definition with_likes (v : gmap Z Like.t) (db : DB) : DB :=
  {| users := users db; block_reasons := block_reasons db; posts := posts db;
     comments := comments db; media := media db; likes := v |}.

(** A foreign key column must name a row of the referenced table. *)
Definition foreign_key {A} (column : string) (table : gmap Z A) (pk : Z)
    : Result unit :=
  require (bool_decide (is_Some (table !! pk)))
          (IntegrityError (ForeignKey column)).

(** ** Inserts *)

(** [User.objects.create(...)]: [username] (from [AbstractUser]) and
    [nickname] are declared [unique=True]. *)
Definition User_create (db : DB) (u : User.t) : Result (DB * Z) :=
  require (bool_decide (map_Forall
             (λ _ v, User.username v ≠ User.username u) (users db)))
          (IntegrityError (Unique "username"));;
  require (bool_decide (map_Forall
             (λ _ v, User.nickname v ≠ User.nickname u) (users db)))
          (IntegrityError (Unique "nickname"));;
  let pk := next_pk (users db) in
  Ok (with_users (<[pk := u]> (users db)) db, pk).

(** [BlockReason.objects.create(code=..., description=...)] *)
Definition BlockReason_create (db : DB) (r : BlockReason.t)
    : Result (DB * Z) :=
  require (bool_decide (map_Forall
             (λ _ v, BlockReason.code v ≠ BlockReason.code r)
             (block_reasons db)))
          (IntegrityError (Unique "code"));;
  let pk := next_pk (block_reasons db) in
  Ok (with_block_reasons (<[pk := r]> (block_reasons db)) db, pk).

(** [Post.objects.create(author=..., text=...)]: [created_at] is
    [auto_now_add], the hide columns take their defaults. *)
Definition Post_create (db : DB) (author : Z) (text_ : string) (now : Z)
    : Result (DB * Z) :=
  foreign_key "author_id" (users db) author;;
  let pk := next_pk (posts db) in
  let p := {| Post.author := author; Post.text := text_;
              Post.created_at := now; Post.is_hidden := false;
              Post.hidden_reason := None; Post.hidden_by := None;
              Post.hidden_at := None |} in
  Ok (with_posts (<[pk := p]> (posts db)) db, pk).

(** [Comment.objects.create(post=..., author=..., text=...)] *)
Definition Comment_create (db : DB) (post author : Z) (text_ : string)
    (now : Z) : Result (DB * Z) :=
  foreign_key "post_id" (posts db) post;;
  foreign_key "author_id" (users db) author;;
  let pk := next_pk (comments db) in
  let c := {| Comment.post := post; Comment.author := author;
              Comment.text := text_; Comment.created_at := now;
              Comment.is_hidden := false; Comment.hidden_reason := None;
              Comment.hidden_by := None; Comment.hidden_at := None |} in
  Ok (with_comments (<[pk := c]> (comments db)) db, pk).

(** The rows the constraint [unique_user_like] compares a new row with:
    [fields=["user", "content_type", "object_id"]]. *)
Definition same_like (u : Z) (ct : ContentType) (oid : Z) (l : Like.t)
    : Prop :=
  Like.user l = u ∧ Like.content_type l = ct ∧ Like.object_id l = oid.

#[global] Instance same_like_dec u ct oid l : Decision (same_like u ct oid l).
Proof. unfold same_like. apply _. Defined.

(** [Like.objects.create(user=..., content_type=..., object_id=...)].  The
    target is a generic foreign key: its content type is a foreign key into
    the content type table, its object id a plain non-negative integer. *)
Definition Like_create (db : DB) (user : Z) (ct : ContentType) (oid : Z)
    (now : Z) : Result (DB * Z) :=
  foreign_key "user_id" (users db) user;;
  check_positive_big_integer "object_id" oid;;
  require (bool_decide (map_Forall
             (λ _ l, ¬ same_like user ct oid l) (likes db)))
          (IntegrityError (Unique "unique_user_like"));;
  let pk := next_pk (likes db) in
  let l := {| Like.user := user; Like.created_at := now;
              Like.content_type := ct; Like.object_id := oid |} in
  Ok (with_likes (<[pk := l]> (likes db)) db, pk).

(** ** Deletion

    [Model.delete] runs [django.db.models.deletion.Collector]: starting from
    the rows to delete it visits every relation that points at them, applies
    the relation's [on_delete] handler (generic relations always cascade),
    and then executes the collected field updates and deletions in one
    transaction. *)

(** The nullable foreign keys a [SET_NULL] handler may reset. *)
Inductive NullableFK :=
| Post_hidden_reason
| Post_hidden_by
| Comment_hidden_reason
| Comment_hidden_by.

#[global] Instance NullableFK_eq_dec : EqDecision NullableFK.
Proof. solve_decision. Defined.

(** [data]: per model, the primary keys collected for deletion;
    [field_updates]: per nullable foreign key, the primary keys of the rows
    whose column is to be set to NULL. *)
Record Collector := {
  data : ContentType → gset Z;
  field_updates : NullableFK → gset Z
}.

Definition empty_collector : Collector :=
  {| data := λ _, ∅; field_updates := λ _, ∅ |}.

Definition add (model : ContentType) (pks : gset Z) (col : Collector)
    : Collector :=
  {| data := λ m, if decide (m = model) then pks ∪ data col m else data col m;
     field_updates := field_updates col |}.

Definition add_field_update (field : NullableFK) (pks : gset Z)
    (col : Collector) : Collector :=
  {| data := data col;
     field_updates := λ f, if decide (f = field)
                           then pks ∪ field_updates col f
                           else field_updates col f |}.

(** Primary keys of the rows of [table] that satisfy [P]. *)
Definition related {A} (P : A → Prop) `{!∀ a, Decision (P a)}
    (table : gmap Z A) : gset Z :=
  dom (filter (λ kv, P kv.2) table).

(** A nullable foreign key column [v] points at one of the rows [pks]. *)
Definition points_at (v : option Z) (pks : gset Z) : Prop :=
  match v with
  | Some r => r ∈ pks
  | None => False
  end.

#[global] Instance points_at_dec v pks : Decision (points_at v pks).
Proof. destruct v; simpl; apply _. Defined.

(** The handler of a foreign key applied to the referencing rows [pks]:
    [cascade] collects them for deletion, [set_null] schedules the update. *)
Definition on_delete (policy : OnDelete) (relation : string) (pks : gset Z)
    (cascade set_null : gset Z → Collector → Result Collector)
    (col : Collector) : Result Collector :=
  match policy with
  | CASCADE => cascade pks col
  | SET_NULL => set_null pks col
  | PROTECT => if decide (pks = ∅) then Ok col
               else Err (ProtectedError relation)
  end.

(** [SET_NULL] on a nullable column. *)
Definition set_null (field : NullableFK) (pks : gset Z) (col : Collector)
    : Result Collector :=
  Ok (add_field_update field pks col).

(** [SET_NULL] on a column declared without [null=True]: the update is
    rejected as soon as there is a row to update. *)
Definition set_null_not_nullable (column : string) (pks : gset Z)
    (col : Collector) : Result Collector :=
  if decide (pks = ∅) then Ok col else Err (IntegrityError (NotNull column)).

(** The rows a [GenericRelation] to [Media] or [Like] declared on [model]
    reaches from the objects [objs]: same content type, object id among
    [objs]. *)
Definition media_items (db : DB) (model : ContentType) (objs : gset Z)
    : gset Z :=
  related (λ m, Media.content_type m = model ∧ Media.object_id m ∈ objs)
          (media db).

Definition likes_of (db : DB) (model : ContentType) (objs : gset Z)
    : gset Z :=
  related (λ l, Like.content_type l = model ∧ Like.object_id l ∈ objs)
          (likes db).

(** [User.uploads]: the generic relation over [uploader_content_type] and
    [uploader_object_id]. *)
Definition uploads (db : DB) (objs : gset Z) : gset Z :=
  related (λ m, Media.uploader_content_type m = CT_User
                ∧ Media.uploader_object_id m ∈ objs)
          (media db).

(** No relation points at [Media] or [Like] rows. *)
Definition collect_Media (db : DB) (pks : gset Z) (col : Collector)
    : Result Collector :=
  Ok (add CT_Media pks col).

Definition collect_Like (db : DB) (pks : gset Z) (col : Collector)
    : Result Collector :=
  Ok (add CT_Like pks col).

(** [Comment]: generic relations [media_items] and [likes]. *)
Definition collect_Comment (db : DB) (pks : gset Z) (col : Collector)
    : Result Collector :=
  col ← collect_Media db (media_items db CT_Comment pks)
                      (add CT_Comment pks col);
  collect_Like db (likes_of db CT_Comment pks) col.

(** [Post]: reverse foreign key [Comment.post], generic relations
    [media_items] and [likes]. *)
Definition collect_Post (db : DB) (pks : gset Z) (col : Collector)
    : Result Collector :=
  col ← on_delete Comment.post_on_delete "Comment.post"
        (related (λ c, Comment.post c ∈ pks) (comments db))
        (collect_Comment db) (set_null_not_nullable "post_id")
        (add CT_Post pks col);
  col ← collect_Media db (media_items db CT_Post pks) col;
  collect_Like db (likes_of db CT_Post pks) col.

(** [BlockReason]: reverse foreign keys [Post.hidden_reason] and
    [Comment.hidden_reason]. *)
Definition collect_BlockReason (db : DB) (pks : gset Z) (col : Collector)
    : Result Collector :=
  col ← on_delete Post.hidden_reason_on_delete "Post.hidden_reason"
        (related (λ p, points_at (Post.hidden_reason p) pks) (posts db))
        (collect_Post db) (set_null Post_hidden_reason)
        (add CT_BlockReason pks col);
  on_delete Comment.hidden_reason_on_delete "Comment.hidden_reason"
        (related (λ c, points_at (Comment.hidden_reason c) pks) (comments db))
        (collect_Comment db) (set_null Comment_hidden_reason) col.

(** [User]: reverse foreign keys [Post.author], [Post.hidden_by],
    [Comment.author], [Comment.hidden_by], [Like.user], and the generic
    relation [uploads]. *)
Definition collect_User (db : DB) (pks : gset Z) (col : Collector)
    : Result Collector :=
  col ← on_delete Post.author_on_delete "Post.author"
        (related (λ p, Post.author p ∈ pks) (posts db))
        (collect_Post db) (set_null_not_nullable "author_id")
        (add CT_User pks col);
  col ← on_delete Post.hidden_by_on_delete "Post.hidden_by"
        (related (λ p, points_at (Post.hidden_by p) pks) (posts db))
        (collect_Post db) (set_null Post_hidden_by) col;
  col ← on_delete Comment.author_on_delete "Comment.author"
        (related (λ c, Comment.author c ∈ pks) (comments db))
        (collect_Comment db) (set_null_not_nullable "author_id") col;
  col ← on_delete Comment.hidden_by_on_delete "Comment.hidden_by"
        (related (λ c, points_at (Comment.hidden_by c) pks) (comments db))
        (collect_Comment db) (set_null Comment_hidden_by) col;
  col ← on_delete Like.user_on_delete "Like.user"
        (related (λ l, Like.user l ∈ pks) (likes db))
        (collect_Like db) (set_null_not_nullable "user_id") col;
  collect_Media db (uploads db pks) col.

(** The field updates of a collector applied to the row with key [pk]. *)
Definition update_Post (col : Collector) (pk : Z) (p : Post.t) : Post.t :=
  let p := if decide (pk ∈ field_updates col Post_hidden_reason)
           then Post.set_hidden_reason None p else p in
  if decide (pk ∈ field_updates col Post_hidden_by)
  then Post.set_hidden_by None p else p.

Definition update_Comment (col : Collector) (pk : Z) (c : Comment.t)
    : Comment.t :=
  let c := if decide (pk ∈ field_updates col Comment_hidden_reason)
           then Comment.set_hidden_reason None c else c in
  if decide (pk ∈ field_updates col Comment_hidden_by)
  then Comment.set_hidden_by None c else c.

(** The rows of [table] that were not collected. *)
Definition remaining {A} (pks : gset Z) (table : gmap Z A) : gmap Z A :=
  filter (λ kv, kv.1 ∉ pks) table.

(** [Collector.delete]: field updates first, then the deletions. *)
Definition Collector_delete (db : DB) (col : Collector) : DB :=
  {| users := remaining (data col CT_User) (users db);
     block_reasons := remaining (data col CT_BlockReason) (block_reasons db);
     posts := remaining (data col CT_Post)
                (map_imap (λ k p, Some (update_Post col k p)) (posts db));
     comments := remaining (data col CT_Comment)
                (map_imap (λ k c, Some (update_Comment col k c))
                          (comments db));
     media := remaining (data col CT_Media) (media db);
     likes := remaining (data col CT_Like) (likes db) |}.

(** [instance.delete()] for the row [pk] of each model that can be the
    root of a deletion here. *)
Definition Post_delete (db : DB) (pk : Z) : Result DB :=
  col ← collect_Post db {[pk]} empty_collector;
  Ok (Collector_delete db col).

Definition Comment_delete (db : DB) (pk : Z) : Result DB :=
  col ← collect_Comment db {[pk]} empty_collector;
  Ok (Collector_delete db col).

Definition BlockReason_delete (db : DB) (pk : Z) : Result DB :=
  col ← collect_BlockReason db {[pk]} empty_collector;
  Ok (Collector_delete db col).

Definition User_delete (db : DB) (pk : Z) : Result DB :=
  col ← collect_User db {[pk]} empty_collector;
  Ok (Collector_delete db col).

(** ** Saving a [Media] instance *)

(** [bool(self.size_bytes)]: [None] and [0] are false. *)
Definition size_bytes_truthy (v : option Z) : bool :=
  match v with
  | Some n => bool_decide (n ≠ 0)
  | None => false
  end.

(** [models.Model.save] for a [Media] instance: the fields' [pre_save]
    (the file is committed to the storage; [uploaded_at] is [auto_now_add]),
    the column constraints, then an UPDATE of the row with the instance's
    primary key when there is one, an INSERT otherwise. *)
Definition Media_base_save {FS : FileStorage} (st : Storage) (db : DB)
    (o : Media.Obj.t) (now : Z) : Result (Storage * DB * Media.Obj.t) :=
  '(st', file') ← FieldFile.commit st Media.upload_to (Media.Obj.file o);
  let adding :=
    match Media.Obj.pk o with
    | Some k => bool_decide (media db !! k = None)
    | None => true
    end in
  let pk' := default (next_pk (media db)) (Media.Obj.pk o) in
  let uploaded_at' :=
    if adding then Some now else Media.Obj.uploaded_at o in
  size ← not_null "size_bytes" (Media.Obj.size_bytes o);
  check_positive_big_integer "size_bytes" size;;
  uploaded ← not_null "uploaded_at" uploaded_at';
  ct ← not_null "content_type_id" (Media.Obj.content_type o);
  oid ← not_null "object_id" (Media.Obj.object_id o);
  check_positive_big_integer "object_id" oid;;
  uct ← not_null "uploader_content_type_id"
                 (Media.Obj.uploader_content_type o);
  uoid ← not_null "uploader_object_id" (Media.Obj.uploader_object_id o);
  check_positive_big_integer "uploader_object_id" uoid;;
  let row := {| Media.file := FieldFile.name file';
                Media.size_bytes := size;
                Media.uploaded_at := uploaded;
                Media.content_type := ct;
                Media.object_id := oid;
                Media.uploader_content_type := uct;
                Media.uploader_object_id := uoid |} in
  Ok (st', with_media (<[pk' := row]> (media db)) db,
      Media.from_db pk' row).

(** [Media.save]:
[[
    if not self.size_bytes and self.file:
        self.size_bytes = self.file.size
    super().save()
]] *)
Definition Media_save {FS : FileStorage} (st : Storage) (db : DB)
    (o : Media.Obj.t) (now : Z) : Result (Storage * DB * Media.Obj.t) :=
  o ← (if negb (size_bytes_truthy (Media.Obj.size_bytes o))
          && FieldFile.truthy (Media.Obj.file o)
       then size ← FieldFile.size st (Media.Obj.file o);
            Ok (Media.Obj.set_size_bytes (Some size) o)
       else Ok o);
  Media_base_save st db o now.

(** A stand-in for the file storage, to run the model on examples.  It
    decides the simple case only: a name of at most 90 letters, digits,
    [-], [_] and [.] that is none of the empty name, [.] and [..] is joined
    to [upload_to] as it is, and is kept when nothing is stored under it,
    as the storage of Django does with such a name.  Every other name it
    refuses, where Django would clean the name or lengthen it. *)
Definition plain_char (c : Ascii.ascii) : bool :=
  let n := Ascii.nat_of_ascii c in
  bool_decide ((48 ≤ n ≤ 57) ∨ (65 ≤ n ≤ 90) ∨ (97 ≤ n ≤ 122)
               ∨ n = 45 ∨ n = 46 ∨ n = 95)%nat.

Fixpoint plain_chars (name : string) : bool :=
  match name with
  | EmptyString => true
  | String c name' => plain_char c && plain_chars name'
  end.

Definition plain_name (name : string) : bool :=
  plain_chars name
  && bool_decide (String.length name ≤ 90)%nat
  && bool_decide (name ≠ "" ∧ name ≠ "." ∧ name ≠ "..").

Definition sample_generate_filename (upload_to name : string)
    : Result string :=
  if plain_name name then Ok (upload_to +:+ name)
  else Err (SuspiciousFileOperation name).

Definition sample_get_available_name (st : Storage) (name : string)
    : Result string :=
  if bool_decide (st !! name = None ∧ name ≠ "") then Ok name
  else Err (SuspiciousFileOperation name).

Lemma sample_get_available_name_Ok st name stored :
  sample_get_available_name st name = Ok stored →
  st !! stored = None ∧ stored ≠ "".
Proof.
  unfold sample_get_available_name.
  case_bool_decide as H; [|done]. by intros [= <-].
Qed.

Definition sample_storage : FileStorage :=
  {| generate_filename := sample_generate_filename;
     get_available_name := sample_get_available_name;
     get_available_name_free st name stored E :=
       proj1 (sample_get_available_name_Ok st name stored E);
     get_available_name_nonempty st name stored E :=
       proj2 (sample_get_available_name_Ok st name stored E) |}.

(** ** The views of [app/views.py] *)

Module Views.

Record HttpRequest := {
  method : string;
  GET : list (string * string)
}.

Record HttpResponse := {
  content : string;
  status_code : Z
}.

(** [HttpResponse(content)]: the status defaults to 200. *)
Definition HttpResponse_new (content' : string) : HttpResponse :=
  {| content := content'; status_code := 200 |}.

(** [QueryDict.get(key, default)]: the last value given for [key]. *)
Fixpoint QueryDict_get (q : list (string * string)) (key : string)
    : option string :=
  match q with
  | [] => None
  | (k, v) :: q' =>
      match QueryDict_get q' key with
      | Some v' => Some v'
      | None => if decide (k = key) then Some v else None
      end
  end.

(** [[
def dummypage(request):
    if request.method == "GET":
        return HttpResponse("No content here, sorry!")
]] *)
Definition dummypage (request : HttpRequest) : option HttpResponse :=
  if decide (method request = "GET")
  then Some (HttpResponse_new "No content here, sorry!")
  else None.

(** *** [datetime] arithmetic

    A [datetime] is kept as [datetime.__add__] decomposes it: the proleptic
    ordinal of its date and the time of day. *)
Record datetime := {
  ordinal : Z;
  hour : Z;
  minute : Z;
  second : Z;
  microsecond : Z
}.

(** A normalised [timedelta]: [0 <= seconds < 86400] and
    [0 <= microseconds < 1000000]. *)
Record timedelta := {
  days : Z;
  seconds : Z;
  microseconds : Z
}.

(** [timedelta(days, seconds, microseconds, minutes=..., hours=...)] *)
Definition timedelta_new (d h m s us : Z) : timedelta :=
  let s1 := h * 3600 + m * 60 + s + us `div` 1000000 in
  {| days := d + s1 `div` 86400;
     seconds := s1 `mod` 86400;
     microseconds := us `mod` 1000000 |}.

Definition timedelta_neg (t : timedelta) : timedelta :=
  timedelta_new (- days t) 0 0 (- seconds t) (- microseconds t).

Definition timedelta_add (a b : timedelta) : timedelta :=
  timedelta_new (days a + days b) 0 0 (seconds a + seconds b)
                (microseconds a + microseconds b).

Definition MAXORDINAL : Z := 3652059.

(** [datetime.__add__(self, other)] *)
Definition datetime_add (dt : datetime) (other : timedelta)
    : Result datetime :=
  let delta :=
    timedelta_add
      (timedelta_new (ordinal dt) (hour dt) (minute dt) (second dt)
                     (microsecond dt))
      other in
  let hour' := seconds delta `div` 3600 in
  let rem := seconds delta `mod` 3600 in
  if bool_decide (0 < days delta ≤ MAXORDINAL)
  then Ok {| ordinal := days delta; hour := hour';
             minute := rem `div` 60; second := rem `mod` 60;
             microsecond := microseconds delta |}
  else Err (OverflowError "date value out of range").

(** [datetime.__sub__(self, other)] for a [timedelta]: [self + -other]. *)
Definition datetime_sub (dt : datetime) (other : timedelta)
    : Result datetime :=
  datetime_add dt (timedelta_neg other).

(** The fields of a [datetime] are within their ranges. *)
Definition datetime_valid (dt : datetime) : Prop :=
  1 ≤ ordinal dt ≤ MAXORDINAL ∧ 0 ≤ hour dt < 24 ∧ 0 ≤ minute dt < 60
  ∧ 0 ≤ second dt < 60 ∧ 0 ≤ microsecond dt < 1000000.

(** The microseconds from the start of ordinal day 0 to [dt]. *)
Definition total_microseconds (dt : datetime) : Z :=
  (ordinal dt * 86400 + hour dt * 3600 + minute dt * 60 + second dt)
  * 1000000 + microsecond dt.

Definition digit (n : Z) : Ascii.ascii :=
  Ascii.ascii_of_nat (48 + Z.to_nat n).

(** The two-digit, zero-padded decimal of [%H] and [%M]. *)
Definition two_digits (n : Z) : string :=
  String (digit (n `div` 10)) (String (digit (n `mod` 10)) "").

(** [dt.strftime("%H:%M")] *)
Definition strftime_HM (dt : datetime) : string :=
  two_digits (hour dt) +:+ ":" +:+ two_digits (minute dt).

(** [[
def current_time(request):
    utc_now = datetime.datetime.utcnow()
    cdt_now = utc_now - datetime.timedelta(hours=5)
    return HttpResponse(cdt_now.strftime("%H:%M"))
]]
    The reading of the clock, [utc_now], is an argument. *)
Definition current_time (utc_now : datetime) (request : HttpRequest)
    : Result HttpResponse :=
  cdt_now ← datetime_sub utc_now (timedelta_new 0 5 0 0 0);
  Ok (HttpResponse_new (strftime_HM cdt_now)).

(** *** Python floats

    [float(...)], [+] on floats and [str(...)] of a float are taken as an
    interface: [float_of_str] raises [ValueError] on a string that is not a
    number. *)
Class PyFloat := {
  float : Type;
  float_of_int : Z → float;
  float_of_str : string → Result float;
  float_add : float → float → float;
  float_str : float → string
}.

(** [str(e)] of a caught exception. *)
Definition Error_str (e : Error) : string :=
  match e with
  | IntegrityError _ => "constraint failed"
  | ProtectedError relation => relation
  | ValueError msg => msg
  | OverflowError msg => msg
  | FileNotFoundError name => name
  | SuspiciousFileOperation msg => msg
  end.

(** [float(request.GET.get(key, 0))] *)
Definition float_param `{PyFloat} (request : HttpRequest) (key : string)
    : Result float :=
  match QueryDict_get (GET request) key with
  | Some s => float_of_str s
  | None => Ok (float_of_int 0)
  end.

(** [[
def add_numbers(request):
    try:
        n1 = float(request.GET.get("n1", 0))
        n2 = float(request.GET.get("n2", 0))
        return HttpResponse(str(n1 + n2))
    except Exception as e:
        return HttpResponse(f"Error: {e}")
]] *)
Definition add_numbers `{PyFloat} (request : HttpRequest) : HttpResponse :=
  match (n1 ← float_param request "n1";
         n2 ← float_param request "n2";
         Ok (HttpResponse_new (float_str (float_add n1 n2)))) with
  | Ok response => response
  | Err e => HttpResponse_new ("Error: " +:+ Error_str e)
  end.


(** A stand-in for the floats that are whole numbers, to run the view on
    examples: decimal digits convert, anything else raises [ValueError]
    with Python's message, and [str] prints the number with [.0]. *)
Fixpoint digits_value (s : string) (acc : Z) : option Z :=
  match s with
  | EmptyString => Some acc
  | String c s' =>
      let n := Z.of_nat (Ascii.nat_of_ascii c) in
      if bool_decide (48 ≤ n ≤ 57)
      then digits_value s' (10 * acc + (n - 48))
      else None
  end.

Definition whole_of_str (s : string) : Result Z :=
  match (if decide (s = "") then None else digits_value s 0) with
  | Some z => Ok z
  | None =>
      Err (ValueError ("could not convert string to float: '" +:+ s +:+ "'"))
  end.

Definition whole_floats : PyFloat :=
  {| float := Z;
     float_of_int := id;
     float_of_str := whole_of_str;
     float_add := Z.add;
     float_str := λ z, pretty z +:+ ".0" |}.

End Views.

(** ** The routes of [app/urls.py]

    [[
urlpatterns = [
    path("dummypage", views.dummypage, name="dummypage"),
    path("time", views.current_time, name="current_time"),
    path("sum", views.add_numbers, name="add_numbers"),
]
    ]]
    A route without converters matches the path it is given as a whole and
    only as a whole; the path is what remains of the request's path once
    the prefix under which these routes are included has been taken off. *)
Module Urls.

(** What calling a view gives: an exception, no response object ([None]),
    or a response. *)
Definition ViewResult : Type := Result (option Views.HttpResponse).

Record URLPattern := {
  route : string;
  callback : Views.HttpRequest → ViewResult;
  name : string
}.

Definition path (route' : string) (view : Views.HttpRequest → ViewResult)
    (name' : string) : URLPattern :=
  {| route := route'; callback := view; name := name' |}.

(** [URLResolver.resolve]: the first pattern that matches. *)
Fixpoint resolve (patterns : list URLPattern) (p : string)
    : option URLPattern :=
  match patterns with
  | [] => None
  | pattern :: patterns' =>
      if decide (route pattern = p) then Some pattern
      else resolve patterns' p
  end.

Section urlpatterns.
Context `{Views.PyFloat}.
Variable utc_now : Views.datetime.

Definition urlpatterns : list URLPattern :=
  [ path "dummypage" (λ request, Ok (Views.dummypage request)) "dummypage";
    path "time"
         (λ request, response ← Views.current_time utc_now request;
                     Ok (Some response))
         "current_time";
    path "sum" (λ request, Ok (Some (Views.add_numbers request)))
         "add_numbers" ].

(** The handler's call of the view the path resolves to; [None] when no
    route matches. *)
Definition dispatch (p : string) (request : Views.HttpRequest)
    : option ViewResult :=
  match resolve urlpatterns p with
  | Some pattern => Some (callback pattern request)
  | None => None
  end.

End urlpatterns.
End Urls.

(** ** The models of [app/models.py]

    The first schema of the repository: authors and uploaders are nullable
    foreign keys that are reset when the user goes, an upload hangs on a
    post or a comment through two nullable foreign keys, and a like is on a
    post, with [unique_together = ("user", "post")]. *)

Module Models.

Module User.
Definition ROLE_CHOICES : list (string * string) :=
  [("A", "Administrator"); ("S", "Serf")].

Record t := {
  username : string;
  role : string;
  avatar : option string;
  bio : string
}.

(** [User(username=..., role=..., ...)]: [role] has no default, so a
    [CharField] that is not passed is the empty string. *)
Definition new (username' : string) (role' : option string)
    (avatar' : option string) (bio' : string) : t :=
  {| username := username'; role := default "" role';
     avatar := avatar'; bio := bio' |}.
End User.

Module BlockReason.
Record t := {
  code : string;
  explanation : string
}.
End BlockReason.

Module Post.
Record t := {
  author : option Z;
  content : string;
  created_at : Z;
  hidden : bool;
  hidden_reason : option Z
}.

Definition author_on_delete : OnDelete := SET_NULL.
Definition hidden_reason_on_delete : OnDelete := SET_NULL.

Definition set_author (v : option Z) (p : t) : t :=
  {| author := v; content := content p; created_at := created_at p;
     hidden := hidden p; hidden_reason := hidden_reason p |}.

Definition set_hidden_reason (v : option Z) (p : t) : t :=
  {| author := author p; content := content p; created_at := created_at p;
     hidden := hidden p; hidden_reason := v |}.
End Post.

Module Comment.
Record t := {
  post : Z;
  author : option Z;
  content : string;
  created_at : Z;
  hidden : bool;
  hidden_reason : option Z
}.

Definition post_on_delete : OnDelete := CASCADE.
Definition author_on_delete : OnDelete := SET_NULL.
Definition hidden_reason_on_delete : OnDelete := SET_NULL.

Definition set_author (v : option Z) (c : t) : t :=
  {| post := post c; author := v; content := content c;
     created_at := created_at c; hidden := hidden c;
     hidden_reason := hidden_reason c |}.

Definition set_hidden_reason (v : option Z) (c : t) : t :=
  {| post := post c; author := author c; content := content c;
     created_at := created_at c; hidden := hidden c;
     hidden_reason := v |}.
End Comment.

Module Media.
(** [file] is the name under which the storage keeps the upload. *)
Record t := {
  file : string;
  uploaded_by : option Z;
  uploaded_at : Z;
  post : option Z;
  comment : option Z
}.

Definition uploaded_by_on_delete : OnDelete := SET_NULL.
Definition post_on_delete : OnDelete := CASCADE.
Definition comment_on_delete : OnDelete := CASCADE.

Definition set_uploaded_by (v : option Z) (m : t) : t :=
  {| file := file m; uploaded_by := v; uploaded_at := uploaded_at m;
     post := post m; comment := comment m |}.

Definition set_post (v : option Z) (m : t) : t :=
  {| file := file m; uploaded_by := uploaded_by m;
     uploaded_at := uploaded_at m; post := v; comment := comment m |}.

Definition set_comment (v : option Z) (m : t) : t :=
  {| file := file m; uploaded_by := uploaded_by m;
     uploaded_at := uploaded_at m; post := post m; comment := v |}.
End Media.

Module Like.
Record t := {
  user : Z;
  post : Z;
  created_at : Z
}.

Definition user_on_delete : OnDelete := CASCADE.
Definition post_on_delete : OnDelete := CASCADE.
End Like.

Record DB := {
  users : gmap Z User.t;
  block_reasons : gmap Z BlockReason.t;
  posts : gmap Z Post.t;
  comments : gmap Z Comment.t;
  media : gmap Z Media.t;
  likes : gmap Z Like.t
}.

(** A nullable foreign key column must be null or name a row. *)
Definition nullable_foreign_key {A} (column : string) (table : gmap Z A)
    (v : option Z) : Result unit :=
  match v with
  | Some pk => foreign_key column table pk
  | None => Ok tt
  end.

(** [User.__str__]: [return self.username] *)
Definition User_str (u : User.t) : string := User.username u.

(** [f"{self.author}"]: [None] prints as [None], a user as [User.__str__]
    has it; reading the attribute fetches the row and raises
    [User.DoesNotExist], here [None], when the row is missing. *)
Definition author_str (db : DB) (author : option Z) : option string :=
  match author with
  | None => Some "None"
  | Some pk => User_str <$> users db !! pk
  end.

(** A text is kept as its UTF-8 encoding, as a string literal is: a
    character is a lead byte followed by its continuation bytes, the bytes
    from 128 to 191. *)
Definition continuation_byte (c : Ascii.ascii) : bool :=
  bool_decide (128 ≤ Ascii.nat_of_ascii c < 192)%nat.

(** [len(s)]: the number of characters. *)
Fixpoint str_len (s : string) : nat :=
  match s with
  | EmptyString => 0
  | String c s' =>
      ((if continuation_byte c then 0 else 1) + str_len s')%nat
  end.

(** [s[:n]]: the first [n] characters, or all of [s] when it has fewer. *)
Fixpoint str_prefix (n : nat) (s : string) : string :=
  match s with
  | EmptyString => EmptyString
  | String c s' =>
      if continuation_byte c then String c (str_prefix n s')
      else match n with
           | O => EmptyString
           | S n' => String c (str_prefix n' s')
           end
  end.

(** [Post.__str__]: [return f"{self.author}: {self.content[:50]}"] *)
Definition Post_str (db : DB) (p : Post.t) : option string :=
  a ← author_str db (Post.author p);
  Some (a +:+ ": " +:+ str_prefix 50 (Post.content p)).

(** [Comment.__str__]: [return f"Comment by {self.author} on {self.post_id}"] *)
Definition Comment_str (db : DB) (c : Comment.t) : option string :=
  a ← author_str db (Comment.author c);
  Some ("Comment by " +:+ a +:+ " on " +:+ pretty (Comment.post c)).

(** [Media.objects.create(file=..., uploaded_by=..., post=..., comment=...)]:
    each of the three foreign keys is declared [null=True]. *)
Definition Media_create (db : DB) (file : string)
    (uploaded_by post comment : option Z) (now : Z) : Result (DB * Z) :=
  nullable_foreign_key "uploaded_by_id" (users db) uploaded_by;;
  nullable_foreign_key "post_id" (posts db) post;;
  nullable_foreign_key "comment_id" (comments db) comment;;
  let pk := next_pk (media db) in
  let m := {| Media.file := file; Media.uploaded_by := uploaded_by;
              Media.uploaded_at := now; Media.post := post;
              Media.comment := comment |} in
  Ok ({| users := users db; block_reasons := block_reasons db;
         posts := posts db; comments := comments db;
         media := <[pk := m]> (media db); likes := likes db |}, pk).

(** [Like.objects.create(user=..., post=...)] *)
Definition Like_create (db : DB) (user post : Z) (now : Z)
    : Result (DB * Z) :=
  foreign_key "user_id" (users db) user;;
  foreign_key "post_id" (posts db) post;;
  require (bool_decide (map_Forall
             (λ _ l, ¬ (Like.user l = user ∧ Like.post l = post))
             (likes db)))
          (IntegrityError (Unique "user_post"));;
  let pk := next_pk (likes db) in
  let l := {| Like.user := user; Like.post := post;
              Like.created_at := now |} in
  Ok ({| users := users db; block_reasons := block_reasons db;
         posts := posts db; comments := comments db; media := media db;
         likes := <[pk := l]> (likes db) |}, pk).

(** *** Deletion *)

(** The nullable foreign keys of this schema. *)
Inductive NullableFK :=
| Post_author
| Post_hidden_reason
| Comment_author
| Comment_hidden_reason
| Media_uploaded_by
| Media_post
| Media_comment.

#[global] Instance NullableFK_eq_dec : EqDecision NullableFK.
Proof. solve_decision. Defined.

Record Collector := {
  data : ContentType → gset Z;
  field_updates : NullableFK → gset Z
}.

Definition empty_collector : Collector :=
  {| data := λ _, ∅; field_updates := λ _, ∅ |}.

Definition add (model : ContentType) (pks : gset Z) (col : Collector)
    : Collector :=
  {| data := λ m, if decide (m = model) then pks ∪ data col m else data col m;
     field_updates := field_updates col |}.

Definition add_field_update (field : NullableFK) (pks : gset Z)
    (col : Collector) : Collector :=
  {| data := data col;
     field_updates := λ f, if decide (f = field)
                           then pks ∪ field_updates col f
                           else field_updates col f |}.

Definition on_delete (policy : OnDelete) (relation : string) (pks : gset Z)
    (cascade set_null : gset Z → Collector → Result Collector)
    (col : Collector) : Result Collector :=
  match policy with
  | CASCADE => cascade pks col
  | SET_NULL => set_null pks col
  | PROTECT => if decide (pks = ∅) then Ok col
               else Err (ProtectedError relation)
  end.

Definition set_null (field : NullableFK) (pks : gset Z) (col : Collector)
    : Result Collector :=
  Ok (add_field_update field pks col).

Definition set_null_not_nullable (column : string) (pks : gset Z)
    (col : Collector) : Result Collector :=
  if decide (pks = ∅) then Ok col else Err (IntegrityError (NotNull column)).

(** No relation points at [Media] or [Like] rows. *)
Definition collect_Media (db : DB) (pks : gset Z) (col : Collector)
    : Result Collector :=
  Ok (add CT_Media pks col).

Definition collect_Like (db : DB) (pks : gset Z) (col : Collector)
    : Result Collector :=
  Ok (add CT_Like pks col).

(** [Comment]: reverse foreign key [Media.comment]. *)
Definition collect_Comment (db : DB) (pks : gset Z) (col : Collector)
    : Result Collector :=
  on_delete Media.comment_on_delete "Media.comment"
    (related (λ m, points_at (Media.comment m) pks) (media db))
    (collect_Media db) (set_null Media_comment)
    (add CT_Comment pks col).

(** [Post]: reverse foreign keys [Comment.post], [Media.post] and
    [Like.post]. *)
Definition collect_Post (db : DB) (pks : gset Z) (col : Collector)
    : Result Collector :=
  col ← on_delete Comment.post_on_delete "Comment.post"
        (related (λ c, Comment.post c ∈ pks) (comments db))
        (collect_Comment db) (set_null_not_nullable "post_id")
        (add CT_Post pks col);
  col ← on_delete Media.post_on_delete "Media.post"
        (related (λ m, points_at (Media.post m) pks) (media db))
        (collect_Media db) (set_null Media_post) col;
  on_delete Like.post_on_delete "Like.post"
        (related (λ l, Like.post l ∈ pks) (likes db))
        (collect_Like db) (set_null_not_nullable "post_id") col.

(** [BlockReason]: reverse foreign keys [Post.hidden_reason] and
    [Comment.hidden_reason]. *)
Definition collect_BlockReason (db : DB) (pks : gset Z) (col : Collector)
    : Result Collector :=
  col ← on_delete Post.hidden_reason_on_delete "Post.hidden_reason"
        (related (λ p, points_at (Post.hidden_reason p) pks) (posts db))
        (collect_Post db) (set_null Post_hidden_reason)
        (add CT_BlockReason pks col);
  on_delete Comment.hidden_reason_on_delete "Comment.hidden_reason"
        (related (λ c, points_at (Comment.hidden_reason c) pks) (comments db))
        (collect_Comment db) (set_null Comment_hidden_reason) col.

(** [User]: reverse foreign keys [Post.author], [Comment.author],
    [Media.uploaded_by] and [Like.user]. *)
Definition collect_User (db : DB) (pks : gset Z) (col : Collector)
    : Result Collector :=
  col ← on_delete Post.author_on_delete "Post.author"
        (related (λ p, points_at (Post.author p) pks) (posts db))
        (collect_Post db) (set_null Post_author)
        (add CT_User pks col);
  col ← on_delete Comment.author_on_delete "Comment.author"
        (related (λ c, points_at (Comment.author c) pks) (comments db))
        (collect_Comment db) (set_null Comment_author) col;
  col ← on_delete Media.uploaded_by_on_delete "Media.uploaded_by"
        (related (λ m, points_at (Media.uploaded_by m) pks) (media db))
        (collect_Media db) (set_null Media_uploaded_by) col;
  on_delete Like.user_on_delete "Like.user"
        (related (λ l, Like.user l ∈ pks) (likes db))
        (collect_Like db) (set_null_not_nullable "user_id") col.

Definition update_Post (col : Collector) (pk : Z) (p : Post.t) : Post.t :=
  let p := if decide (pk ∈ field_updates col Post_author)
           then Post.set_author None p else p in
  if decide (pk ∈ field_updates col Post_hidden_reason)
  then Post.set_hidden_reason None p else p.

Definition update_Comment (col : Collector) (pk : Z) (c : Comment.t)
    : Comment.t :=
  let c := if decide (pk ∈ field_updates col Comment_author)
           then Comment.set_author None c else c in
  if decide (pk ∈ field_updates col Comment_hidden_reason)
  then Comment.set_hidden_reason None c else c.

Definition update_Media (col : Collector) (pk : Z) (m : Media.t)
    : Media.t :=
  let m := if decide (pk ∈ field_updates col Media_uploaded_by)
           then Media.set_uploaded_by None m else m in
  let m := if decide (pk ∈ field_updates col Media_post)
           then Media.set_post None m else m in
  if decide (pk ∈ field_updates col Media_comment)
  then Media.set_comment None m else m.

(** [Collector.delete]: field updates first, then the deletions. *)
Definition Collector_delete (db : DB) (col : Collector) : DB :=
  {| users := remaining (data col CT_User) (users db);
     block_reasons := remaining (data col CT_BlockReason) (block_reasons db);
     posts := remaining (data col CT_Post)
                (map_imap (λ k p, Some (update_Post col k p)) (posts db));
     comments := remaining (data col CT_Comment)
                (map_imap (λ k c, Some (update_Comment col k c))
                          (comments db));
     media := remaining (data col CT_Media)
                (map_imap (λ k m, Some (update_Media col k m)) (media db));
     likes := remaining (data col CT_Like) (likes db) |}.

Definition Post_delete (db : DB) (pk : Z) : Result DB :=
  col ← collect_Post db {[pk]} empty_collector;
  Ok (Collector_delete db col).

Definition User_delete (db : DB) (pk : Z) : Result DB :=
  col ← collect_User db {[pk]} empty_collector;
  Ok (Collector_delete db col).

Definition Comment_delete (db : DB) (pk : Z) : Result DB :=
  col ← collect_Comment db {[pk]} empty_collector;
  Ok (Collector_delete db col).

Definition BlockReason_delete (db : DB) (pk : Z) : Result DB :=
  col ← collect_BlockReason db {[pk]} empty_collector;
  Ok (Collector_delete db col).

End Models.

(** ** References between rows *)

(** The media row [m] is attached to the object [oid] of model [ct]. *)
Definition Media_attached_to (ct : ContentType) (oid : Z) (m : Media.t)
    : Prop :=
  Media.content_type m = ct ∧ Media.object_id m = oid.

(** The media row [m] was uploaded by the user [u]. *)
Definition Media_uploaded_by (u : Z) (m : Media.t) : Prop :=
  Media.uploader_content_type m = CT_User ∧ Media.uploader_object_id m = u.

(** The like [l] is on the object [oid] of model [ct]. *)
Definition Like_on (ct : ContentType) (oid : Z) (l : Like.t) : Prop :=
  Like.content_type l = ct ∧ Like.object_id l = oid.

(** [k] is a comment of [db] on the post [pk]. *)
Definition Comment_of (db : DB) (pk : Z) (k : Z) : Prop :=
  ∃ c, comments db !! k = Some c ∧ Comment.post c = pk.

(** The column constraints of a stored media row. *)
Definition Media_row_valid (row : Media.t) : Prop :=
  0 ≤ Media.size_bytes row ≤ MAX_BIGINT
  ∧ 0 ≤ Media.object_id row ≤ MAX_BIGINT
  ∧ 0 ≤ Media.uploader_object_id row ≤ MAX_BIGINT.

(** [k] is a post of [db] written by the user [u]. *)
Definition Post_of_user (db : DB) (u : Z) (k : Z) : Prop :=
  ∃ p, posts db !! k = Some p ∧ Post.author p = u.

(** [k] is a comment of [db] written by the user [u] or on a post written
    by [u]. *)
Definition Comment_under_user (db : DB) (u : Z) (k : Z) : Prop :=
  ∃ c, comments db !! k = Some c
       ∧ (Comment.author c = u ∨ Post_of_user db u (Comment.post c)).

(** ** Invariants of the database *)

(** A nullable foreign key [v] into [table] is null or names a row. *)
Definition ref_ok {A} (table : gmap Z A) (v : option Z) : Prop :=
  match v with
  | Some k => is_Some (table !! k)
  | None => True
  end.

#[global] Instance ref_ok_dec {A} (table : gmap Z A) v :
  Decision (ref_ok table v).
Proof. destruct v; simpl; apply _. Defined.

(** The foreign keys of a post, a comment and a like name rows of [db]. *)
Definition Post_fk_ok (db : DB) (p : Post.t) : Prop :=
  is_Some (users db !! Post.author p)
  ∧ ref_ok (block_reasons db) (Post.hidden_reason p)
  ∧ ref_ok (users db) (Post.hidden_by p).

Definition Comment_fk_ok (db : DB) (c : Comment.t) : Prop :=
  is_Some (posts db !! Comment.post c)
  ∧ is_Some (users db !! Comment.author c)
  ∧ ref_ok (block_reasons db) (Comment.hidden_reason c)
  ∧ ref_ok (users db) (Comment.hidden_by c).

Definition Like_fk_ok (db : DB) (l : Like.t) : Prop :=
  is_Some (users db !! Like.user l).

(** Referential integrity: no foreign key of a stored row dangles. *)
Definition fk_integrity (db : DB) : Prop :=
  map_Forall (λ _ p, Post_fk_ok db p) (posts db)
  ∧ map_Forall (λ _ c, Comment_fk_ok db c) (comments db)
  ∧ map_Forall (λ _ l, Like_fk_ok db l) (likes db).

(** The object a generic foreign key names exists, when the key says it is
    a post or a comment; the uploader exists, when the key says it is a
    user. *)
Definition parent_ok (db : DB) (ct : ContentType) (oid : Z) : Prop :=
  match ct with
  | CT_Post => is_Some (posts db !! oid)
  | CT_Comment => is_Some (comments db !! oid)
  | _ => True
  end.

Definition uploader_ok (db : DB) (ct : ContentType) (oid : Z) : Prop :=
  match ct with
  | CT_User => is_Some (users db !! oid)
  | _ => True
  end.

#[global] Instance parent_ok_dec db ct oid : Decision (parent_ok db ct oid).
Proof. destruct ct; simpl; apply _. Defined.

#[global] Instance uploader_ok_dec db ct oid :
  Decision (uploader_ok db ct oid).
Proof. destruct ct; simpl; apply _. Defined.

(** No orphans: every upload and like on a post or comment has its target,
    every upload by a user its uploader. *)
Definition no_orphans (db : DB) : Prop :=
  map_Forall (λ _ m, parent_ok db (Media.content_type m) (Media.object_id m)
                     ∧ uploader_ok db (Media.uploader_content_type m)
                                      (Media.uploader_object_id m))
             (media db)
  ∧ map_Forall (λ _ l, parent_ok db (Like.content_type l) (Like.object_id l))
               (likes db).

(** The rows of [table] differ pairwise on the column [f]. *)
Definition unique_column {A B} (f : A → B) (table : gmap Z A) : Prop :=
  map_Forall (λ k1 a1,
    map_Forall (λ k2 a2, f a1 = f a2 → k1 = k2) table) table.

(** The unique constraints: [username] and [nickname] of users, [code] of
    block reasons, and [unique_user_like]. *)
Definition unique_ok (db : DB) : Prop :=
  unique_column User.username (users db)
  ∧ unique_column User.nickname (users db)
  ∧ unique_column BlockReason.code (block_reasons db)
  ∧ unique_column (λ l, (Like.user l, Like.content_type l, Like.object_id l))
                  (likes db).

#[global] Instance Post_fk_ok_dec db p : Decision (Post_fk_ok db p).
Proof. unfold Post_fk_ok. apply _. Defined.

#[global] Instance Comment_fk_ok_dec db c : Decision (Comment_fk_ok db c).
Proof. unfold Comment_fk_ok. apply _. Defined.

#[global] Instance Like_fk_ok_dec db l : Decision (Like_fk_ok db l).
Proof. unfold Like_fk_ok. apply _. Defined.

#[global] Instance fk_integrity_dec db : Decision (fk_integrity db).
Proof. unfold fk_integrity. apply _. Defined.

#[global] Instance no_orphans_dec db : Decision (no_orphans db).
Proof. unfold no_orphans. apply _. Defined.

#[global] Instance unique_column_dec {A B} `{EqDecision B} (f : A → B)
    (table : gmap Z A) : Decision (unique_column f table).
Proof. unfold unique_column. apply _. Defined.

#[global] Instance unique_ok_dec db : Decision (unique_ok db).
Proof. unfold unique_ok. apply _. Defined.

(** A collector is closed when it accounts for every row that references a
    row it deletes: the referencing row is deleted too or, for a nullable
    foreign key, has the reference reset. *)
Record closed (db : DB) (col : Collector) : Prop := {
  closed_Post_author : ∀ k p,
    posts db !! k = Some p → Post.author p ∈ data col CT_User →
    k ∈ data col CT_Post;
  closed_Post_hidden_reason : ∀ k p r,
    posts db !! k = Some p → Post.hidden_reason p = Some r →
    r ∈ data col CT_BlockReason →
    k ∈ data col CT_Post ∨ k ∈ field_updates col Post_hidden_reason;
  closed_Post_hidden_by : ∀ k p u,
    posts db !! k = Some p → Post.hidden_by p = Some u →
    u ∈ data col CT_User →
    k ∈ data col CT_Post ∨ k ∈ field_updates col Post_hidden_by;
  closed_Comment_post : ∀ k c,
    comments db !! k = Some c → Comment.post c ∈ data col CT_Post →
    k ∈ data col CT_Comment;
  closed_Comment_author : ∀ k c,
    comments db !! k = Some c → Comment.author c ∈ data col CT_User →
    k ∈ data col CT_Comment;
  closed_Comment_hidden_reason : ∀ k c r,
    comments db !! k = Some c → Comment.hidden_reason c = Some r →
    r ∈ data col CT_BlockReason →
    k ∈ data col CT_Comment ∨ k ∈ field_updates col Comment_hidden_reason;
  closed_Comment_hidden_by : ∀ k c u,
    comments db !! k = Some c → Comment.hidden_by c = Some u →
    u ∈ data col CT_User →
    k ∈ data col CT_Comment ∨ k ∈ field_updates col Comment_hidden_by;
  closed_Like_user : ∀ k l,
    likes db !! k = Some l → Like.user l ∈ data col CT_User →
    k ∈ data col CT_Like;
  closed_Media_Post : ∀ k m,
    media db !! k = Some m → Media.content_type m = CT_Post →
    Media.object_id m ∈ data col CT_Post → k ∈ data col CT_Media;
  closed_Media_Comment : ∀ k m,
    media db !! k = Some m → Media.content_type m = CT_Comment →
    Media.object_id m ∈ data col CT_Comment → k ∈ data col CT_Media;
  closed_Media_uploader : ∀ k m,
    media db !! k = Some m → Media.uploader_content_type m = CT_User →
    Media.uploader_object_id m ∈ data col CT_User → k ∈ data col CT_Media;
  closed_Like_Post : ∀ k l,
    likes db !! k = Some l → Like.content_type l = CT_Post →
    Like.object_id l ∈ data col CT_Post → k ∈ data col CT_Like;
  closed_Like_Comment : ∀ k l,
    likes db !! k = Some l → Like.content_type l = CT_Comment →
    Like.object_id l ∈ data col CT_Comment → k ∈ data col CT_Like
}.

(** Referential integrity of the first schema: every foreign key is null,
    where it may be, or names a row. *)
Definition M_Post_fk_ok (db : Models.DB) (p : Models.Post.t) : Prop :=
  ref_ok (Models.users db) (Models.Post.author p)
  ∧ ref_ok (Models.block_reasons db) (Models.Post.hidden_reason p).

Definition M_Comment_fk_ok (db : Models.DB) (c : Models.Comment.t) : Prop :=
  is_Some (Models.posts db !! Models.Comment.post c)
  ∧ ref_ok (Models.users db) (Models.Comment.author c)
  ∧ ref_ok (Models.block_reasons db) (Models.Comment.hidden_reason c).

Definition M_Media_fk_ok (db : Models.DB) (m : Models.Media.t) : Prop :=
  ref_ok (Models.users db) (Models.Media.uploaded_by m)
  ∧ ref_ok (Models.posts db) (Models.Media.post m)
  ∧ ref_ok (Models.comments db) (Models.Media.comment m).

Definition M_Like_fk_ok (db : Models.DB) (l : Models.Like.t) : Prop :=
  is_Some (Models.users db !! Models.Like.user l)
  ∧ is_Some (Models.posts db !! Models.Like.post l).

Definition M_fk_integrity (db : Models.DB) : Prop :=
  map_Forall (λ _ p, M_Post_fk_ok db p) (Models.posts db)
  ∧ map_Forall (λ _ c, M_Comment_fk_ok db c) (Models.comments db)
  ∧ map_Forall (λ _ m, M_Media_fk_ok db m) (Models.media db)
  ∧ map_Forall (λ _ l, M_Like_fk_ok db l) (Models.likes db).

#[global] Instance M_fk_integrity_dec db : Decision (M_fk_integrity db).
Proof.
  unfold M_fk_integrity, M_Post_fk_ok, M_Comment_fk_ok, M_Media_fk_ok,
    M_Like_fk_ok.
  apply _.
Defined.

(** Two users; a post of user 1 with a comment of user 2; an upload of
    user 2 on the post and one of user 1 on the comment; a like of user 2
    on the post. *)
Definition M_sample_db : Models.DB :=
  {| Models.users :=
       {[ 1 := Models.User.new "alice" (Some "A") None "";
          2 := Models.User.new "bob" None None "" ]};
     Models.block_reasons := ∅;
     Models.posts :=
       {[ 1 := {| Models.Post.author := Some 1;
                  Models.Post.content := "hello";
                  Models.Post.created_at := 10;
                  Models.Post.hidden := false;
                  Models.Post.hidden_reason := None |} ]};
     Models.comments :=
       {[ 1 := {| Models.Comment.post := 1;
                  Models.Comment.author := Some 2;
                  Models.Comment.content := "hi";
                  Models.Comment.created_at := 11;
                  Models.Comment.hidden := false;
                  Models.Comment.hidden_reason := None |} ]};
     Models.media :=
       {[ 1 := {| Models.Media.file := "uploads/2025/04/01/cat.png";
                  Models.Media.uploaded_by := Some 2;
                  Models.Media.uploaded_at := 12;
                  Models.Media.post := Some 1;
                  Models.Media.comment := None |};
          2 := {| Models.Media.file := "uploads/2025/04/01/dog.png";
                  Models.Media.uploaded_by := Some 1;
                  Models.Media.uploaded_at := 13;
                  Models.Media.post := None;
                  Models.Media.comment := Some 1 |} ]};
     Models.likes :=
       {[ 1 := {| Models.Like.user := 2; Models.Like.post := 1;
                  Models.Like.created_at := 14 |} ]} |}.

(** ** Sample data *)

(** A database with the single user 1 and no other row. *)
Definition db_one_user : DB :=
  with_users {[ 1 := User.new "bob" "Bob" None None "" ]} empty_db.

(** User 1 and the post 1 written by that user. *)
Definition db_one_post : DB :=
  with_posts {[ 1 := {| Post.author := 1; Post.text := "hello";
                        Post.created_at := 50; Post.is_hidden := false;
                        Post.hidden_reason := None; Post.hidden_by := None;
                        Post.hidden_at := None |} ]} db_one_user.

(** An upload of no bytes attached to post 1 by user 1. *)
Definition empty_upload : Media.Obj.t :=
  Media.Obj.new "empty.txt" [] CT_Post 1 CT_User 1.

(** Two users, a block reason, a post of each user with a comment of the
    other, three likes and two uploads. *)
Definition sample_db : DB :=
  {| users := {[ 1 := User.new "alice" "Alice" None None "";
                 2 := User.new "bob" "Bob" (Some "admin") None "" ]};
     block_reasons :=
       {[ 1 := {| BlockReason.code := "SPAM";
                  BlockReason.description := "Unsolicited" |} ]};
     posts :=
       {[ 1 := {| Post.author := 1; Post.text := "hello";
                  Post.created_at := 10; Post.is_hidden := false;
                  Post.hidden_reason := None; Post.hidden_by := None;
                  Post.hidden_at := None |};
          2 := {| Post.author := 2; Post.text := "rules";
                  Post.created_at := 11; Post.is_hidden := false;
                  Post.hidden_reason := None; Post.hidden_by := None;
                  Post.hidden_at := None |} ]};
     comments :=
       {[ 1 := {| Comment.post := 1; Comment.author := 2;
                  Comment.text := "hi"; Comment.created_at := 12;
                  Comment.is_hidden := false; Comment.hidden_reason := None;
                  Comment.hidden_by := None; Comment.hidden_at := None |};
          2 := {| Comment.post := 2; Comment.author := 1;
                  Comment.text := "ok"; Comment.created_at := 13;
                  Comment.is_hidden := false; Comment.hidden_reason := None;
                  Comment.hidden_by := None; Comment.hidden_at := None |} ]};
     media :=
       {[ 1 := {| Media.file := "uploads/cat.png"; Media.size_bytes := 2;
                  Media.uploaded_at := 17; Media.content_type := CT_Comment;
                  Media.object_id := 1;
                  Media.uploader_content_type := CT_User;
                  Media.uploader_object_id := 2 |};
          2 := {| Media.file := "uploads/dog.png"; Media.size_bytes := 3;
                  Media.uploaded_at := 18; Media.content_type := CT_Post;
                  Media.object_id := 1;
                  Media.uploader_content_type := CT_User;
                  Media.uploader_object_id := 1 |} ]};
     likes :=
       {[ 1 := {| Like.user := 2; Like.created_at := 14;
                  Like.content_type := CT_Post; Like.object_id := 1 |};
          2 := {| Like.user := 1; Like.created_at := 15;
                  Like.content_type := CT_Comment; Like.object_id := 1 |};
          3 := {| Like.user := 1; Like.created_at := 16;
                  Like.content_type := CT_Post; Like.object_id := 2 |} ]} |}.

(** The inserts that build [sample_db]. *)
Definition build_sample_db : Result (Storage * DB) :=
  '(db, alice) ← User_create empty_db (User.new "alice" "Alice" None None "");
  '(db, bob) ← User_create db (User.new "bob" "Bob" (Some "admin") None "");
  '(db, _) ← BlockReason_create db
     {| BlockReason.code := "SPAM"; BlockReason.description := "Unsolicited" |};
  '(db, p1) ← Post_create db alice "hello" 10;
  '(db, p2) ← Post_create db bob "rules" 11;
  '(db, c1) ← Comment_create db p1 bob "hi" 12;
  '(db, c2) ← Comment_create db p2 alice "ok" 13;
  '(db, _) ← Like_create db bob CT_Post p1 14;
  '(db, _) ← Like_create db alice CT_Comment c1 15;
  '(db, _) ← Like_create db alice CT_Post p2 16;
  '(st, db, _) ← Media_save (FS := sample_storage) ∅ db
     (Media.Obj.new "cat.png" [Byte.x00; Byte.x01] CT_Comment c1 CT_User bob)
     17;
  '(st, db, _) ← Media_save (FS := sample_storage) st db
     (Media.Obj.new "dog.png" [Byte.x00; Byte.x01; Byte.x02]
                    CT_Post p1 CT_User alice)
     18;
  Ok (st, db).

(** [sample_db] after the post 1 was hidden by user 2 for the reason 1. *)
Definition sample_db_hidden : DB :=
  with_posts
    (<[ 1 := {| Post.author := 1; Post.text := "hello";
                Post.created_at := 10; Post.is_hidden := true;
                Post.hidden_reason := Some 1; Post.hidden_by := Some 2;
                Post.hidden_at := Some 20 |} ]> (posts sample_db))
    sample_db.

(** The row stored for [empty_upload] when its size is recorded as
    [size]. *)
Definition empty_upload_row (size : Z) : Media.t :=
  {| Media.file := "uploads/empty.txt"; Media.size_bytes := size;
     Media.uploaded_at := 100; Media.content_type := CT_Post;
     Media.object_id := 1; Media.uploader_content_type := CT_User;
     Media.uploader_object_id := 1 |}.

(** The row of a one-byte upload whose parent is object 42 of [ct] and
    whose uploader is object 7 of [uct]. *)
Definition dangling_row (ct uct : ContentType) : Media.t :=
  {| Media.file := "uploads/a.png"; Media.size_bytes := 1;
     Media.uploaded_at := 100; Media.content_type := ct;
     Media.object_id := 42; Media.uploader_content_type := uct;
     Media.uploader_object_id := 7 |}.

(** A reading of the clock: 03:07:59 on ordinal day 739000. *)
Definition sample_utc_now : Views.datetime :=
  {| Views.ordinal := 739000; Views.hour := 3; Views.minute := 7;
     Views.second := 59; Views.microsecond := 5 |}.

(** * Properties *)

(** ** Tables and primary keys *)

Lemma next_pk_bound {A} (table : gmap Z A) :
  ∀ k v, table !! k = Some v → k < next_pk table.
Proof.
  unfold next_pk.
  apply (map_fold_weak_ind (λ r m, ∀ k v, m !! k = Some v → k < r + 1)
                           (λ k (_ : A) acc, Z.max k acc) 0).
  - intros k v Hk. by rewrite lookup_empty in Hk.
  - intros i x m r Hi IH k v Hk. destruct (decide (i = k)) as [->|Hne].
    + lia.
    + rewrite lookup_insert_ne in Hk by done. specialize (IH k v Hk). lia.
Qed.

Lemma next_pk_fresh {A} (table : gmap Z A) : table !! next_pk table = None.
Proof.
  destruct (table !! next_pk table) as [v|] eqn:Hk; [|done].
  apply next_pk_bound in Hk. lia.
Qed.

Lemma require_true (b : bool) (e : Error) : b = true → require b e = Ok tt.
Proof. by intros ->. Qed.

Lemma require_false (b : bool) (e : Error) : b = false → require b e = Err e.
Proof. by intros ->. Qed.

Lemma foreign_key_ok {A} column (table : gmap Z A) pk :
  is_Some (table !! pk) → foreign_key column table pk = Ok tt.
Proof. intros H. apply require_true. by apply bool_decide_eq_true_2. Qed.

Lemma check_positive_big_integer_ok column v :
  0 ≤ v ≤ MAX_BIGINT → check_positive_big_integer column v = Ok tt.
Proof.
  intros [H0 H1]. unfold check_positive_big_integer.
  rewrite !require_true; [done|by apply bool_decide_eq_true_2..].
Qed.

(** ** Likes *)

(** An insert that passes its checks adds exactly the new row, under a key
    that was free. *)
Lemma Like_create_ok (db : DB) (u : Z) (ct : ContentType) (oid now : Z) :
  is_Some (users db !! u) →
  0 ≤ oid ≤ MAX_BIGINT →
  map_Forall (λ _ l, ¬ same_like u ct oid l) (likes db) →
  Like_create db u ct oid now =
    Ok (with_likes (<[next_pk (likes db) :=
                       {| Like.user := u; Like.created_at := now;
                          Like.content_type := ct; Like.object_id := oid |}]>
                      (likes db)) db,
        next_pk (likes db)).
Proof.
  intros Hu Hoid Hnew. unfold Like_create.
  rewrite foreign_key_ok by done. simpl.
  rewrite check_positive_big_integer_ok by done. simpl.
  rewrite require_true by by apply bool_decide_eq_true_2.
  done.
Qed.

(** A row equal on the three constrained columns makes the insert fail. *)
Lemma Like_create_duplicate (db : DB) (u : Z) (ct : ContentType)
    (oid now : Z) (k : Z) (l : Like.t) :
  is_Some (users db !! u) →
  0 ≤ oid ≤ MAX_BIGINT →
  likes db !! k = Some l →
  same_like u ct oid l →
  Like_create db u ct oid now =
    Err (IntegrityError (Unique "unique_user_like")).
Proof.
  intros Hu Hoid Hk Hsame. unfold Like_create.
  rewrite foreign_key_ok by done. simpl.
  rewrite check_positive_big_integer_ok by done. simpl.
  rewrite require_false; [done|].
  apply bool_decide_eq_false_2. intros Hall.
  by apply (Hall k l Hk).
Qed.

(** C1.  For a user [u] of the database and a target [(ct, oid)] that is a
    post or a comment, which [u] has not liked yet: creating the like
    succeeds and stores the new row under a fresh key, and creating a like
    for the same pair again fails with the integrity error of the constraint
    [unique_user_like]; the failed attempt returns no new state, so the
    stored like stays as it is. *)
Theorem Like_create_twice (db : DB) (u : Z) (ct : ContentType)
    (oid now now' : Z) :
  is_Some (users db !! u) →
  ct = CT_Post ∨ ct = CT_Comment →
  0 ≤ oid ≤ MAX_BIGINT →
  map_Forall (λ _ l, ¬ same_like u ct oid l) (likes db) →
  ∃ db' pk,
    Like_create db u ct oid now = Ok (db', pk) ∧
    likes db !! pk = None ∧
    likes db' = <[pk := {| Like.user := u; Like.created_at := now;
                           Like.content_type := ct;
                           Like.object_id := oid |}]> (likes db) ∧
    Like_create db' u ct oid now' =
      Err (IntegrityError (Unique "unique_user_like")).
Proof.
  intros Hu _ Hoid Hnew.
  eexists _, _. split; [by apply Like_create_ok|].
  split; [apply next_pk_fresh|]. split; [done|].
  eapply Like_create_duplicate; [done|done| |].
  - simpl. apply lookup_insert_eq.
  - done.
Qed.

Lemma Like_create_twice_witness :
  ∃ db' pk,
    Like_create db_one_user 1 CT_Post 7 100 = Ok (db', pk) ∧
    likes db_one_user !! pk = None ∧
    likes db' = <[pk := {| Like.user := 1; Like.created_at := 100;
                           Like.content_type := CT_Post;
                           Like.object_id := 7 |}]> (likes db_one_user) ∧
    Like_create db' 1 CT_Post 7 101 =
      Err (IntegrityError (Unique "unique_user_like")).
Proof.
  apply (Like_create_twice db_one_user 1 CT_Post 7 100 101).
  - by eexists.
  - by left.
  - unfold MAX_BIGINT. lia.
  - apply (bool_decide_unpack _). by vm_compute.
Defined.

(** ** The collector *)

Lemma elem_of_related {A} (P : A → Prop) `{!∀ a, Decision (P a)}
    (table : gmap Z A) (k : Z) :
  k ∈ related P table ↔ ∃ v, table !! k = Some v ∧ P v.
Proof.
  unfold related. rewrite elem_of_dom. split.
  - intros [v Hv]. apply map_lookup_filter_Some in Hv as [Hv HP]. eauto.
  - intros (v & Hv & HP). exists v. by apply map_lookup_filter_Some.
Qed.

Lemma lookup_remaining_Some {A} (pks : gset Z) (table : gmap Z A) k v :
  remaining pks table !! k = Some v ↔ table !! k = Some v ∧ k ∉ pks.
Proof. unfold remaining. by rewrite map_lookup_filter_Some. Qed.

Lemma lookup_remaining_None {A} (pks : gset Z) (table : gmap Z A) k :
  k ∈ pks → remaining pks table !! k = None.
Proof.
  intros Hk. unfold remaining. apply map_lookup_filter_None. right.
  intros v _ Hn. by apply Hn.
Qed.

Lemma remaining_none {A} (pks : gset Z) (table : gmap Z A) :
  (∀ k, k ∉ pks) → remaining pks table = table.
Proof.
  intros Hpks. apply map_eq. intros k. apply option_eq. intros v.
  rewrite lookup_remaining_Some. split; [by intros [? _]|].
  intros Hk. split; [done|apply Hpks].
Qed.

Lemma remaining_empty {A} (table : gmap Z A) : remaining ∅ table = table.
Proof.
  apply map_eq. intros k. apply option_eq. intros v.
  rewrite lookup_remaining_Some. split; [by intros [? _]|].
  intros ?. split; [done|]. apply not_elem_of_empty.
Qed.

Lemma elem_of_data_add model pks col m k :
  k ∈ data (add model pks col) m ↔ (m = model ∧ k ∈ pks) ∨ k ∈ data col m.
Proof.
  simpl. case_decide; [rewrite elem_of_union|]; intuition congruence.
Qed.

Lemma elem_of_data_empty m k : k ∈ data empty_collector m ↔ False.
Proof. simpl. apply elem_of_empty. Qed.

Lemma data_add_field_update field pks col :
  data (add_field_update field pks col) = data col.
Proof. done. Qed.

(** Membership in what a chain of [add]s collected. *)
Ltac collected :=
  repeat first [ rewrite data_add_field_update
               | rewrite elem_of_data_add
               | rewrite elem_of_data_empty
               | rewrite elem_of_related ].

(** The cases of such a membership [H]: one goal per [add] for the model
    in question, with what was added there as the hypothesis [H]. *)
Ltac collected_cases H :=
  repeat (let Heq := fresh in
          destruct H as [[Heq H]|H]; [try discriminate Heq; clear Heq|]);
  try (exfalso; exact H).

(** The same without looking into the sets that were added. *)
Ltac collected_data :=
  repeat first [ rewrite data_add_field_update
               | rewrite elem_of_data_add
               | rewrite elem_of_data_empty ].

(** Proves a membership in what was collected by trying each [add] for the
    model in question with [tac]. *)
Ltac in_collected tac :=
  repeat match goal with
         | |- _ ∨ _ => first [ left; split; [reflexivity|]; solve [tac]
                             | right ]
         end.

Lemma elem_of_field_updates_add_field_update field pks col f k :
  k ∈ field_updates (add_field_update field pks col) f
  ↔ (f = field ∧ k ∈ pks) ∨ k ∈ field_updates col f.
Proof.
  simpl. case_decide; [rewrite elem_of_union|]; intuition congruence.
Qed.

Lemma elem_of_field_updates_empty f k :
  k ∈ field_updates empty_collector f ↔ False.
Proof. simpl. apply elem_of_empty. Qed.

Lemma field_updates_add model pks col :
  field_updates (add model pks col) = field_updates col.
Proof. done. Qed.

(** Membership in the field updates a chain collected. *)
Ltac collected_updates :=
  repeat first [ rewrite field_updates_add
               | rewrite elem_of_field_updates_add_field_update
               | rewrite elem_of_field_updates_empty ].

(** What deleting comments collects: the comments, and the media and likes
    attached to them. *)
Lemma collect_Comment_eq db pks col :
  collect_Comment db pks col =
    Ok (add CT_Like (likes_of db CT_Comment pks)
       (add CT_Media (media_items db CT_Comment pks)
       (add CT_Comment pks col))).
Proof. done. Qed.

(** What deleting posts collects: the posts, their comments with what
    hangs on them, and the media and likes attached to the posts. *)
Lemma collect_Post_eq db pks col :
  collect_Post db pks col =
    let cs := related (λ c, Comment.post c ∈ pks) (comments db) in
    Ok (add CT_Like (likes_of db CT_Post pks)
       (add CT_Media (media_items db CT_Post pks)
       (add CT_Like (likes_of db CT_Comment cs)
       (add CT_Media (media_items db CT_Comment cs)
       (add CT_Comment cs
       (add CT_Post pks col)))))).
Proof. done. Qed.

(** Deleting block reasons collects nothing but the reasons; the posts and
    comments that name them are scheduled for an update. *)
Lemma collect_BlockReason_eq db pks col :
  collect_BlockReason db pks col =
    Ok (add_field_update Comment_hidden_reason
          (related (λ c, points_at (Comment.hidden_reason c) pks)
                   (comments db))
       (add_field_update Post_hidden_reason
          (related (λ p, points_at (Post.hidden_reason p) pks) (posts db))
       (add CT_BlockReason pks col))).
Proof. done. Qed.

Lemma collect_User_eq db pks col :
  collect_User db pks col =
    let ps := related (λ p, Post.author p ∈ pks) (posts db) in
    let cs := related (λ c, Comment.author c ∈ pks) (comments db) in
    col1 ← collect_Post db ps (add CT_User pks col);
    col2 ← collect_Comment db cs
      (add_field_update Post_hidden_by
         (related (λ p, points_at (Post.hidden_by p) pks) (posts db)) col1);
    Ok (add CT_Media (uploads db pks)
       (add CT_Like (related (λ l, Like.user l ∈ pks) (likes db))
       (add_field_update Comment_hidden_by
          (related (λ c, points_at (Comment.hidden_by c) pks) (comments db))
          col2))).
Proof. done. Qed.

(** ** Executing a collector *)

Lemma update_Post_author col k p :
  Post.author (update_Post col k p) = Post.author p.
Proof. unfold update_Post. by repeat case_decide. Qed.

Lemma update_Comment_post col k c :
  Comment.post (update_Comment col k c) = Comment.post c.
Proof. unfold update_Comment. by repeat case_decide. Qed.

Lemma update_Comment_author col k c :
  Comment.author (update_Comment col k c) = Comment.author c.
Proof. unfold update_Comment. by repeat case_decide. Qed.

Lemma lookup_posts_delete db col k p' :
  posts (Collector_delete db col) !! k = Some p' ↔
  ∃ p, posts db !! k = Some p ∧ (k ∉ data col CT_Post)
       ∧ p' = update_Post col k p.
Proof.
  simpl. rewrite lookup_remaining_Some, map_lookup_imap.
  destruct (posts db !! k) as [p|]; simpl; split.
  - intros [[= <-] Hk]. eauto.
  - by intros (p0 & [= <-] & Hk & ->).
  - by intros [? _].
  - by intros (p0 & ? & _).
Qed.

Lemma lookup_comments_delete db col k c' :
  comments (Collector_delete db col) !! k = Some c' ↔
  ∃ c, comments db !! k = Some c ∧ (k ∉ data col CT_Comment)
       ∧ c' = update_Comment col k c.
Proof.
  simpl. rewrite lookup_remaining_Some, map_lookup_imap.
  destruct (comments db !! k) as [c|]; simpl; split.
  - intros [[= <-] Hk]. eauto.
  - by intros (c0 & [= <-] & Hk & ->).
  - by intros [? _].
  - by intros (c0 & ? & _).
Qed.

Lemma update_Post_no_update col k p :
  (∀ f, field_updates col f = ∅) → update_Post col k p = p.
Proof.
  intros Hno. unfold update_Post. rewrite !Hno.
  by rewrite !decide_False by apply not_elem_of_empty.
Qed.

Lemma update_Comment_no_update col k c :
  (∀ f, field_updates col f = ∅) → update_Comment col k c = c.
Proof.
  intros Hno. unfold update_Comment. rewrite !Hno.
  by rewrite !decide_False by apply not_elem_of_empty.
Qed.

Lemma lookup_posts_delete_None db col k :
  k ∈ data col CT_Post → posts (Collector_delete db col) !! k = None.
Proof. apply lookup_remaining_None. Qed.

Lemma lookup_comments_delete_None db col k :
  k ∈ data col CT_Comment → comments (Collector_delete db col) !! k = None.
Proof. apply lookup_remaining_None. Qed.

(** ** Invariants kept by executing a closed collector *)

Lemma users_delete db col :
  users (Collector_delete db col) = remaining (data col CT_User) (users db).
Proof. done. Qed.

Lemma block_reasons_delete db col :
  block_reasons (Collector_delete db col)
  = remaining (data col CT_BlockReason) (block_reasons db).
Proof. done. Qed.

Lemma media_delete db col :
  media (Collector_delete db col) = remaining (data col CT_Media) (media db).
Proof. done. Qed.

Lemma likes_delete db col :
  likes (Collector_delete db col) = remaining (data col CT_Like) (likes db).
Proof. done. Qed.

Lemma update_Post_hidden_reason col k p :
  Post.hidden_reason (update_Post col k p) =
    if decide (k ∈ field_updates col Post_hidden_reason) then None
    else Post.hidden_reason p.
Proof. unfold update_Post. by repeat case_decide. Qed.

Lemma update_Post_hidden_by col k p :
  Post.hidden_by (update_Post col k p) =
    if decide (k ∈ field_updates col Post_hidden_by) then None
    else Post.hidden_by p.
Proof. unfold update_Post. by repeat case_decide. Qed.

Lemma update_Comment_hidden_reason col k c :
  Comment.hidden_reason (update_Comment col k c) =
    if decide (k ∈ field_updates col Comment_hidden_reason) then None
    else Comment.hidden_reason c.
Proof. unfold update_Comment. by repeat case_decide. Qed.

Lemma update_Comment_hidden_by col k c :
  Comment.hidden_by (update_Comment col k c) =
    if decide (k ∈ field_updates col Comment_hidden_by) then None
    else Comment.hidden_by c.
Proof. unfold update_Comment. by repeat case_decide. Qed.

Lemma is_Some_remaining {A} (pks : gset Z) (table : gmap Z A) k :
  is_Some (table !! k) → k ∉ pks → is_Some (remaining pks table !! k).
Proof.
  intros [v Hv] Hk. exists v. by apply lookup_remaining_Some.
Qed.

Lemma is_Some_posts_delete db col k :
  is_Some (posts db !! k) → k ∉ data col CT_Post →
  is_Some (posts (Collector_delete db col) !! k).
Proof.
  intros [p Hp] Hk. eexists. apply lookup_posts_delete. eauto.
Qed.

Lemma is_Some_comments_delete db col k :
  is_Some (comments db !! k) → k ∉ data col CT_Comment →
  is_Some (comments (Collector_delete db col) !! k).
Proof.
  intros [c Hc] Hk. eexists. apply lookup_comments_delete. eauto.
Qed.

(** A nullable reference that a closed collector neither deletes the row
    of nor resets still names a row afterwards. *)
Lemma ref_ok_remaining {A} (pks upd : gset Z) (table : gmap Z A)
    (v : option Z) (k : Z) :
  ref_ok table v →
  (∀ r, v = Some r → r ∈ pks → k ∈ upd) →
  ref_ok (remaining pks table) (if decide (k ∈ upd) then None else v).
Proof.
  intros Hv Hclosed. case_decide as Hk; [done|].
  destruct v as [r|]; [|done]. simpl in *.
  apply is_Some_remaining; [done|]. intros Hr. by apply Hk, (Hclosed r).
Qed.

(** Executing a closed collector keeps referential integrity. *)
Lemma Collector_delete_fk_integrity db col :
  closed db col → fk_integrity db → fk_integrity (Collector_delete db col).
Proof.
  intros Hclosed (Hposts & Hcomments & Hlikes). split_and!.
  - intros k p' (p & Hp & Hk & ->)%lookup_posts_delete.
    destruct (Hposts k p Hp) as (Hauthor & Hreason & Hby).
    unfold Post_fk_ok.
    rewrite update_Post_author, update_Post_hidden_reason,
            update_Post_hidden_by.
    split_and!.
    + apply is_Some_remaining; [done|]. intros Hu.
      by eapply Hk, closed_Post_author.
    + apply ref_ok_remaining; [done|]. intros r Hr Hin.
      by destruct (closed_Post_hidden_reason _ _ Hclosed k p r).
    + apply ref_ok_remaining; [done|]. intros u Hu Hin.
      by destruct (closed_Post_hidden_by _ _ Hclosed k p u).
  - intros k c' (c & Hc & Hk & ->)%lookup_comments_delete.
    destruct (Hcomments k c Hc) as (Hpost & Hauthor & Hreason & Hby).
    unfold Comment_fk_ok.
    rewrite update_Comment_post, update_Comment_author,
            update_Comment_hidden_reason, update_Comment_hidden_by.
    split_and!.
    + apply is_Some_posts_delete; [done|]. intros Hp.
      by eapply Hk, closed_Comment_post.
    + apply is_Some_remaining; [done|]. intros Hu.
      by eapply Hk, closed_Comment_author.
    + apply ref_ok_remaining; [done|]. intros r Hr Hin.
      by destruct (closed_Comment_hidden_reason _ _ Hclosed k c r).
    + apply ref_ok_remaining; [done|]. intros u Hu Hin.
      by destruct (closed_Comment_hidden_by _ _ Hclosed k c u).
  - intros k l [Hl Hk]%lookup_remaining_Some.
    apply is_Some_remaining; [by apply (Hlikes k l)|]. intros Hu.
    by eapply Hk, closed_Like_user.
Qed.

Lemma parent_ok_delete db col ct oid :
  parent_ok db ct oid →
  (ct = CT_Post → oid ∉ data col CT_Post) →
  (ct = CT_Comment → oid ∉ data col CT_Comment) →
  parent_ok (Collector_delete db col) ct oid.
Proof.
  intros Hok Hpost Hcomment. destruct ct; try done.
  - apply is_Some_posts_delete; auto.
  - apply is_Some_comments_delete; auto.
Qed.

(** Executing a closed collector leaves no orphan behind. *)
Lemma Collector_delete_no_orphans db col :
  closed db col → no_orphans db → no_orphans (Collector_delete db col).
Proof.
  intros Hclosed [Hmedia Hlikes]. split.
  - intros k m [Hm Hk]%lookup_remaining_Some.
    destruct (Hmedia k m Hm) as [Hparent Huploader]. split.
    + apply parent_ok_delete; [done| |]; intros Hct Hin.
      * by eapply Hk, closed_Media_Post.
      * by eapply Hk, closed_Media_Comment.
    + destruct (Media.uploader_content_type m) eqn:Hct; try done.
      apply is_Some_remaining; [done|]. intros Hin.
      by eapply Hk, closed_Media_uploader.
  - intros k l [Hl Hk]%lookup_remaining_Some.
    apply parent_ok_delete; [by apply (Hlikes k l)| |]; intros Hct Hin.
    + by eapply Hk, closed_Like_Post.
    + by eapply Hk, closed_Like_Comment.
Qed.

Lemma unique_column_remaining {A B} (f : A → B) pks (table : gmap Z A) :
  unique_column f table → unique_column f (remaining pks table).
Proof.
  intros Hu k1 a1 [H1 _]%lookup_remaining_Some k2 a2
         [H2 _]%lookup_remaining_Some.
  by apply (Hu k1 a1 H1 k2 a2 H2).
Qed.

(** Executing any collector keeps the unique constraints. *)
Lemma Collector_delete_unique db col :
  unique_ok db → unique_ok (Collector_delete db col).
Proof.
  intros (H1 & H2 & H3 & H4).
  split_and!; by apply unique_column_remaining.
Qed.

(** ** Deleting a post *)

Section Post_delete.
Variables (db : DB) (pk : Z).

(** The comments on the post. *)
Let cs : gset Z := related (λ c, Comment.post c ∈ ({[pk]} : gset Z))
                           (comments db).

(** The collector a post's deletion ends with. *)
Let col : Collector :=
  add CT_Like (likes_of db CT_Post {[pk]})
  (add CT_Media (media_items db CT_Post {[pk]})
  (add CT_Like (likes_of db CT_Comment cs)
  (add CT_Media (media_items db CT_Comment cs)
  (add CT_Comment cs
  (add CT_Post {[pk]} empty_collector))))).

Lemma Post_delete_eq : Post_delete db pk = Ok (Collector_delete db col).
Proof. done. Qed.

Lemma Post_delete_cs k : k ∈ cs ↔ Comment_of db pk k.
Proof.
  unfold cs, Comment_of. rewrite elem_of_related.
  by setoid_rewrite elem_of_singleton.
Qed.

Lemma Post_delete_comments k : k ∈ data col CT_Comment ↔ Comment_of db pk k.
Proof.
  unfold col. collected. rewrite <- Post_delete_cs. intuition discriminate.
Qed.

Lemma Post_delete_media k :
  k ∈ data col CT_Media ↔
  ∃ m, media db !! k = Some m ∧
       (Media_attached_to CT_Post pk m
        ∨ ∃ c, Comment_of db pk c ∧ Media_attached_to CT_Comment c m).
Proof.
  unfold col, media_items, Media_attached_to. collected.
  setoid_rewrite elem_of_singleton. setoid_rewrite Post_delete_cs.
  split.
  - intros H. collected_cases H; destruct H as (m & Hm & Hct & Ho).
    + subst. eauto.
    + eauto 8.
  - intros (m & Hm & [[Hct Ho]|(c & Hc & Hct & Ho)]); subst.
    + right. left. eauto.
    + do 3 right. left. eauto.
Qed.

Lemma Post_delete_likes k :
  k ∈ data col CT_Like ↔
  ∃ l, likes db !! k = Some l ∧
       (Like_on CT_Post pk l
        ∨ ∃ c, Comment_of db pk c ∧ Like_on CT_Comment c l).
Proof.
  unfold col, likes_of, Like_on. collected.
  setoid_rewrite elem_of_singleton. setoid_rewrite Post_delete_cs.
  split.
  - intros H. collected_cases H; destruct H as (l & Hl & Hct & Ho).
    + subst. eauto.
    + eauto 8.
  - intros (l & Hl & [[Hct Ho]|(c & Hc & Hct & Ho)]); subst.
    + left. eauto.
    + do 2 right. left. eauto.
Qed.

Lemma Post_delete_posts k : k ∈ data col CT_Post ↔ k = pk.
Proof.
  unfold col. collected. rewrite elem_of_singleton. intuition discriminate.
Qed.

Lemma Post_delete_no_update f : field_updates col f = ∅.
Proof. done. Qed.

(** C3, as amended.  Deleting the post [pk] succeeds and removes the post,
    every comment on it, every media row and like attached to it, and every
    media row and like attached to one of those comments; in the resulting
    database no comment names the post in its [post] column, and no media
    row or like names the post or one of its deleted comments in its
    [content_type] and [object_id] columns.  The uploader columns of a
    media row are no relation of [Post]: a media row attached neither to
    the post nor to one of its comments stays as it is, whatever its
    uploader columns name. *)
Theorem Post_delete_cascades :
  ∃ db', Post_delete db pk = Ok db' ∧
    posts db' !! pk = None ∧
    (∀ k, Comment_of db pk k → comments db' !! k = None) ∧
    (∀ k m, media db !! k = Some m → Media_attached_to CT_Post pk m →
            media db' !! k = None) ∧
    (∀ k l, likes db !! k = Some l → Like_on CT_Post pk l →
            likes db' !! k = None) ∧
    (∀ c k m, Comment_of db pk c → media db !! k = Some m →
              Media_attached_to CT_Comment c m → media db' !! k = None) ∧
    (∀ c k l, Comment_of db pk c → likes db !! k = Some l →
              Like_on CT_Comment c l → likes db' !! k = None) ∧
    map_Forall (λ _ c, Comment.post c ≠ pk) (comments db') ∧
    map_Forall (λ _ m, ¬ Media_attached_to CT_Post pk m ∧
                       ∀ c, Comment_of db pk c →
                            ¬ Media_attached_to CT_Comment c m) (media db') ∧
    map_Forall (λ _ l, ¬ Like_on CT_Post pk l ∧
                       ∀ c, Comment_of db pk c →
                            ¬ Like_on CT_Comment c l) (likes db') ∧
    (∀ k m, media db !! k = Some m →
            ¬ Media_attached_to CT_Post pk m →
            (∀ c, Comment_of db pk c → ¬ Media_attached_to CT_Comment c m) →
            media db' !! k = Some m).
Proof.
  exists (Collector_delete db col). split; [apply Post_delete_eq|].
  split_and!.
  - apply lookup_posts_delete_None. by apply Post_delete_posts.
  - intros k Hk. apply lookup_comments_delete_None.
    by apply Post_delete_comments.
  - intros k m Hk Hm. apply lookup_remaining_None, Post_delete_media. eauto.
  - intros k l Hk Hl. apply lookup_remaining_None, Post_delete_likes. eauto.
  - intros c k m Hc Hk Hm.
    apply lookup_remaining_None, Post_delete_media. eauto 6.
  - intros c k l Hc Hk Hl.
    apply lookup_remaining_None, Post_delete_likes. eauto 6.
  - intros k c' Hk Hpost.
    apply lookup_comments_delete in Hk as (c & Hc & Hk & ->).
    rewrite update_Comment_post in Hpost.
    apply Hk, Post_delete_comments. by exists c.
  - intros k m [Hm Hk]%lookup_remaining_Some.
    split; [intros Ha|intros c Hc Ha]; apply Hk, Post_delete_media; eauto 6.
  - intros k l [Hl Hk]%lookup_remaining_Some.
    split; [intros Ha|intros c Hc Ha]; apply Hk, Post_delete_likes; eauto 6.
  - intros k m Hm Hpost Hcomments. apply lookup_remaining_Some.
    split; [done|]. rewrite Post_delete_media.
    intros (m0 & Hm0 & [Ha|(c & Hc & Ha)]);
      assert (m0 = m) as -> by congruence; [done|by eapply Hcomments].
Qed.

(** X1.  Nothing else goes: users and block reasons are untouched, every other
    post stays as it is, and so does every comment on another post and
    every media row and like attached neither to the post nor to one of its
    comments. *)
Lemma Post_delete_keeps :
  ∃ db', Post_delete db pk = Ok db' ∧
    users db' = users db ∧
    block_reasons db' = block_reasons db ∧
    posts db' = delete pk (posts db) ∧
    (∀ k c, comments db !! k = Some c → Comment.post c ≠ pk →
            comments db' !! k = Some c) ∧
    (∀ k m, media db !! k = Some m →
            ¬ Media_attached_to CT_Post pk m →
            (∀ c, Comment_of db pk c → ¬ Media_attached_to CT_Comment c m) →
            media db' !! k = Some m) ∧
    (∀ k l, likes db !! k = Some l →
            ¬ Like_on CT_Post pk l →
            (∀ c, Comment_of db pk c → ¬ Like_on CT_Comment c l) →
            likes db' !! k = Some l).
Proof.
  exists (Collector_delete db col). split; [apply Post_delete_eq|].
  split_and!.
  - apply remaining_none. intros k Hk. unfold col in Hk.
    revert Hk. collected. intros Hk. by collected_cases Hk.
  - apply remaining_none. intros k Hk. unfold col in Hk.
    revert Hk. collected. intros Hk. by collected_cases Hk.
  - apply map_eq. intros k. apply option_eq. intros p'.
    split.
    + intros (p & Hp & Hk & ->)%lookup_posts_delete.
      rewrite update_Post_no_update by apply Post_delete_no_update.
      apply lookup_delete_Some. split; [|done].
      intros <-. by apply Hk, Post_delete_posts.
    + intros [Hk Hp]%lookup_delete_Some. apply lookup_posts_delete.
      exists p'. split_and!; [done| |].
      * by rewrite Post_delete_posts.
      * by rewrite update_Post_no_update by apply Post_delete_no_update.
  - intros k c Hc Hpost. apply lookup_comments_delete. exists c.
    split_and!; [done| |].
    + rewrite Post_delete_comments. intros (c0 & Hc0 & Hp). congruence.
    + by rewrite update_Comment_no_update by apply Post_delete_no_update.
  - intros k m Hm Hpost Hcomments. apply lookup_remaining_Some.
    split; [done|]. rewrite Post_delete_media.
    intros (m0 & Hm0 & [Ha|(c & Hc & Ha)]);
      assert (m0 = m) as -> by congruence; [done|by eapply Hcomments].
  - intros k l Hl Hpost Hcomments. apply lookup_remaining_Some.
    split; [done|]. rewrite Post_delete_likes.
    intros (l0 & Hl0 & [Ha|(c & Hc & Ha)]);
      assert (l0 = l) as -> by congruence; [done|by eapply Hcomments].
Qed.

Lemma Post_delete_data_other m k :
  m = CT_User ∨ m = CT_BlockReason → k ∈ data col m ↔ False.
Proof.
  unfold col. collected_data. intros [-> | ->]; intuition discriminate.
Qed.

Lemma Post_delete_closed : closed db col.
Proof.
  constructor.
  - intros k p _ []%Post_delete_data_other. by left.
  - intros k p r _ _ []%Post_delete_data_other. by right.
  - intros k p u _ _ []%Post_delete_data_other. by left.
  - intros k c Hc Hp%Post_delete_posts.
    apply Post_delete_comments. by exists c.
  - intros k c _ []%Post_delete_data_other. by left.
  - intros k c r _ _ []%Post_delete_data_other. by right.
  - intros k c u _ _ []%Post_delete_data_other. by left.
  - intros k l _ []%Post_delete_data_other. by left.
  - intros k m Hm Hct Ho%Post_delete_posts.
    apply Post_delete_media. exists m. split; [done|]. by left.
  - intros k m Hm Hct Ho%Post_delete_comments.
    apply Post_delete_media. exists m. split; [done|]. right.
    by exists (Media.object_id m).
  - intros k m _ _ []%Post_delete_data_other. by left.
  - intros k l Hl Hct Ho%Post_delete_posts.
    apply Post_delete_likes. exists l. split; [done|]. by left.
  - intros k l Hl Hct Ho%Post_delete_comments.
    apply Post_delete_likes. exists l. split; [done|]. right.
    by exists (Like.object_id l).
Qed.

Lemma Post_delete_invariants :
  ∃ db', Post_delete db pk = Ok db' ∧
    (fk_integrity db → fk_integrity db') ∧
    (no_orphans db → no_orphans db') ∧
    (unique_ok db → unique_ok db').
Proof.
  exists (Collector_delete db col). split; [apply Post_delete_eq|].
  split_and!.
  - apply Collector_delete_fk_integrity, Post_delete_closed.
  - apply Collector_delete_no_orphans, Post_delete_closed.
  - apply Collector_delete_unique.
Qed.

End Post_delete.

(** The counterexample to C3: an upload on post 2 whose uploader columns
    name post 1 is stored, and is still there, naming post 1, once post 1
    is deleted. *)
Lemma Post_delete_uploader_reference_stays :
  ∃ st db k row db',
    Media_save (FS := sample_storage) ∅ sample_db
      (Media.Obj.new "a.png" [Byte.x00] CT_Post 2 CT_Post 1) 100
      = Ok (st, db, Media.from_db k row) ∧
    is_Some (posts db !! 1) ∧
    Post_delete db 1 = Ok db' ∧
    posts db' !! 1 = None ∧
    media db' !! k = Some row ∧
    Media.uploader_content_type row = CT_Post ∧
    Media.uploader_object_id row = 1.
Proof.
  exists {[ "uploads/a.png" := [Byte.x00] ]},
    (with_media
       (<[ 3 := {| Media.file := "uploads/a.png"; Media.size_bytes := 1;
                   Media.uploaded_at := 100; Media.content_type := CT_Post;
                   Media.object_id := 2;
                   Media.uploader_content_type := CT_Post;
                   Media.uploader_object_id := 1 |} ]> (media sample_db))
       sample_db),
    3,
    {| Media.file := "uploads/a.png"; Media.size_bytes := 1;
       Media.uploaded_at := 100; Media.content_type := CT_Post;
       Media.object_id := 2; Media.uploader_content_type := CT_Post;
       Media.uploader_object_id := 1 |}.
  eexists. split; [by vm_compute|].
  split; [apply (bool_decide_unpack _); by vm_compute|].
  split; [reflexivity|]. by vm_compute.
Qed.

(** ** Deleting a block reason *)

Lemma points_at_singleton (v : option Z) (r : Z) :
  points_at v {[r]} ↔ v = Some r.
Proof.
  destruct v as [r'|]; simpl.
  - rewrite elem_of_singleton. split; [by intros ->|by intros [= ->]].
  - by split.
Qed.

Section BlockReason_delete.
Variables (db : DB) (r : Z).

(** The collector a block reason's deletion ends with. *)
Let col : Collector :=
  add_field_update Comment_hidden_reason
    (related (λ c, points_at (Comment.hidden_reason c) {[r]}) (comments db))
  (add_field_update Post_hidden_reason
    (related (λ p, points_at (Post.hidden_reason p) {[r]}) (posts db))
  (add CT_BlockReason {[r]} empty_collector)).

Lemma BlockReason_delete_eq :
  BlockReason_delete db r = Ok (Collector_delete db col).
Proof. done. Qed.

Lemma BlockReason_delete_data m k :
  k ∈ data col m ↔ m = CT_BlockReason ∧ k = r.
Proof.
  unfold col. collected. rewrite elem_of_singleton. tauto.
Qed.

Lemma BlockReason_delete_update_Post k p :
  posts db !! k = Some p →
  update_Post col k p =
    if decide (Post.hidden_reason p = Some r)
    then Post.set_hidden_reason None p else p.
Proof.
  intros Hk. unfold update_Post.
  assert (k ∈ field_updates col Post_hidden_reason
          ↔ Post.hidden_reason p = Some r) as Hin.
  { simpl. rewrite elem_of_union, elem_of_related, elem_of_empty.
    setoid_rewrite points_at_singleton. split.
    - intros [(p0 & Hp0 & Hr)|[]]. congruence.
    - intros Hr. left. eauto. }
  assert (k ∉ field_updates col Post_hidden_by) as Hby
    by (simpl; apply not_elem_of_empty).
  destruct (decide (k ∈ field_updates col Post_hidden_by)); [done|].
  repeat case_decide; tauto.
Qed.

Lemma BlockReason_delete_update_Comment k c :
  comments db !! k = Some c →
  update_Comment col k c =
    if decide (Comment.hidden_reason c = Some r)
    then Comment.set_hidden_reason None c else c.
Proof.
  intros Hk. unfold update_Comment.
  assert (k ∈ field_updates col Comment_hidden_reason
          ↔ Comment.hidden_reason c = Some r) as Hin.
  { simpl. rewrite elem_of_union, elem_of_related, elem_of_empty.
    setoid_rewrite points_at_singleton. split.
    - intros [(c0 & Hc0 & Hr)|[]]. congruence.
    - intros Hr. left. eauto. }
  assert (k ∉ field_updates col Comment_hidden_by) as Hby
    by (simpl; apply not_elem_of_empty).
  destruct (decide (k ∈ field_updates col Comment_hidden_by)); [done|].
  repeat case_decide; tauto.
Qed.

(** C5.  Deleting the block reason [r] succeeds whatever references it.
    Afterwards the reason is gone; every post and comment that named it is
    still stored under its key with [hidden_reason] null and with
    [is_hidden] and every other column as before; every other post and
    comment is unchanged; users, media and likes are untouched. *)
Theorem BlockReason_delete_nullifies :
  ∃ db', BlockReason_delete db r = Ok db' ∧
    block_reasons db' !! r = None ∧
    (∀ k p, posts db !! k = Some p → Post.hidden_reason p = Some r →
       ∃ p', posts db' !! k = Some p' ∧
         Post.hidden_reason p' = None ∧
         Post.is_hidden p' = Post.is_hidden p ∧
         Post.author p' = Post.author p ∧ Post.text p' = Post.text p ∧
         Post.created_at p' = Post.created_at p ∧
         Post.hidden_by p' = Post.hidden_by p ∧
         Post.hidden_at p' = Post.hidden_at p) ∧
    (∀ k c, comments db !! k = Some c → Comment.hidden_reason c = Some r →
       ∃ c', comments db' !! k = Some c' ∧
         Comment.hidden_reason c' = None ∧
         Comment.is_hidden c' = Comment.is_hidden c ∧
         Comment.post c' = Comment.post c ∧
         Comment.author c' = Comment.author c ∧
         Comment.text c' = Comment.text c ∧
         Comment.created_at c' = Comment.created_at c ∧
         Comment.hidden_by c' = Comment.hidden_by c ∧
         Comment.hidden_at c' = Comment.hidden_at c) ∧
    (∀ k p, posts db !! k = Some p → Post.hidden_reason p ≠ Some r →
       posts db' !! k = Some p) ∧
    (∀ k c, comments db !! k = Some c → Comment.hidden_reason c ≠ Some r →
       comments db' !! k = Some c) ∧
    dom (posts db') = dom (posts db) ∧
    dom (comments db') = dom (comments db) ∧
    users db' = users db ∧ media db' = media db ∧ likes db' = likes db.
Proof.
  assert (∀ m, m ≠ CT_BlockReason → ∀ k, k ∉ data col m) as Hnone.
  { intros m Hm k [? _]%BlockReason_delete_data. done. }
  assert (∀ k p, posts db !! k = Some p →
            posts (Collector_delete db col) !! k
            = Some (update_Post col k p)) as Hposts.
  { intros k p Hk. apply lookup_posts_delete. exists p. by auto. }
  assert (∀ k c, comments db !! k = Some c →
            comments (Collector_delete db col) !! k
            = Some (update_Comment col k c)) as Hcomments.
  { intros k c Hk. apply lookup_comments_delete. exists c. by auto. }
  exists (Collector_delete db col). split; [apply BlockReason_delete_eq|].
  split_and!.
  - apply lookup_remaining_None, BlockReason_delete_data. done.
  - intros k p Hk Hr. eexists. split; [by apply Hposts|].
    rewrite BlockReason_delete_update_Post by done.
    rewrite decide_True by done. done.
  - intros k c Hk Hr. eexists. split; [by apply Hcomments|].
    rewrite BlockReason_delete_update_Comment by done.
    rewrite decide_True by done. done.
  - intros k p Hk Hr. rewrite (Hposts k p Hk).
    rewrite BlockReason_delete_update_Post by done.
    by rewrite decide_False.
  - intros k c Hk Hr. rewrite (Hcomments k c Hk).
    rewrite BlockReason_delete_update_Comment by done.
    by rewrite decide_False.
  - apply set_eq. intros k. rewrite !elem_of_dom. split.
    + intros [p' (p & Hp & _)%lookup_posts_delete]. eauto.
    + intros [p Hp]. rewrite (Hposts k p Hp). eauto.
  - apply set_eq. intros k. rewrite !elem_of_dom. split.
    + intros [c' (c & Hc & _)%lookup_comments_delete]. eauto.
    + intros [c Hc]. rewrite (Hcomments k c Hc). eauto.
  - by apply remaining_none, Hnone.
  - by apply remaining_none, Hnone.
  - by apply remaining_none, Hnone.
Qed.

Lemma BlockReason_delete_updates_Post k p :
  posts db !! k = Some p → Post.hidden_reason p = Some r →
  k ∈ field_updates col Post_hidden_reason.
Proof.
  intros Hk Hr. unfold col. collected_updates. rewrite !elem_of_related.
  in_collected ltac:(exists p; by rewrite points_at_singleton).
Qed.

Lemma BlockReason_delete_updates_Comment k c :
  comments db !! k = Some c → Comment.hidden_reason c = Some r →
  k ∈ field_updates col Comment_hidden_reason.
Proof.
  intros Hk Hr. unfold col. collected_updates. rewrite !elem_of_related.
  in_collected ltac:(exists c; by rewrite points_at_singleton).
Qed.

Lemma BlockReason_delete_closed : closed db col.
Proof.
  constructor.
  - by intros k p _ [? _]%BlockReason_delete_data.
  - intros k p r' Hk Hr [_ ->]%BlockReason_delete_data. right.
    by eapply BlockReason_delete_updates_Post.
  - by intros k p u _ _ [? _]%BlockReason_delete_data.
  - by intros k c _ [? _]%BlockReason_delete_data.
  - by intros k c _ [? _]%BlockReason_delete_data.
  - intros k c r' Hk Hr [_ ->]%BlockReason_delete_data. right.
    by eapply BlockReason_delete_updates_Comment.
  - by intros k c u _ _ [? _]%BlockReason_delete_data.
  - by intros k l _ [? _]%BlockReason_delete_data.
  - by intros k m _ _ [? _]%BlockReason_delete_data.
  - by intros k m _ _ [? _]%BlockReason_delete_data.
  - by intros k m _ _ [? _]%BlockReason_delete_data.
  - by intros k l _ _ [? _]%BlockReason_delete_data.
  - by intros k l _ _ [? _]%BlockReason_delete_data.
Qed.

Lemma BlockReason_delete_invariants :
  ∃ db', BlockReason_delete db r = Ok db' ∧
    (fk_integrity db → fk_integrity db') ∧
    (no_orphans db → no_orphans db') ∧
    (unique_ok db → unique_ok db').
Proof.
  exists (Collector_delete db col). split; [apply BlockReason_delete_eq|].
  split_and!.
  - apply Collector_delete_fk_integrity, BlockReason_delete_closed.
  - apply Collector_delete_no_orphans, BlockReason_delete_closed.
  - apply Collector_delete_unique.
Qed.

End BlockReason_delete.

(** ** Deleting a user *)

Section User_delete.
Variables (db : DB) (u : Z).

(** The posts and comments the user wrote, and the comments on those
    posts. *)
Let ps : gset Z :=
  related (λ p, Post.author p ∈ ({[u]} : gset Z)) (posts db).
Let cs_posts : gset Z := related (λ c, Comment.post c ∈ ps) (comments db).
Let cs : gset Z :=
  related (λ c, Comment.author c ∈ ({[u]} : gset Z)) (comments db).

(** The collector a user's deletion ends with. *)
Let col : Collector :=
  add CT_Media (uploads db {[u]})
  (add CT_Like (related (λ l, Like.user l ∈ ({[u]} : gset Z)) (likes db))
  (add_field_update Comment_hidden_by
     (related (λ c, points_at (Comment.hidden_by c) {[u]}) (comments db))
  (add CT_Like (likes_of db CT_Comment cs)
  (add CT_Media (media_items db CT_Comment cs)
  (add CT_Comment cs
  (add_field_update Post_hidden_by
     (related (λ p, points_at (Post.hidden_by p) {[u]}) (posts db))
  (add CT_Like (likes_of db CT_Post ps)
  (add CT_Media (media_items db CT_Post ps)
  (add CT_Like (likes_of db CT_Comment cs_posts)
  (add CT_Media (media_items db CT_Comment cs_posts)
  (add CT_Comment cs_posts
  (add CT_Post ps
  (add CT_User {[u]} empty_collector))))))))))))).

Lemma User_delete_eq : User_delete db u = Ok (Collector_delete db col).
Proof. done. Qed.

Lemma User_delete_users : u ∈ data col CT_User.
Proof. unfold col. collected. rewrite elem_of_singleton. tauto. Qed.

Lemma User_delete_posts k p :
  posts db !! k = Some p → Post.author p = u → k ∈ data col CT_Post.
Proof.
  intros Hk Hu. unfold col. collected. do 10 right. left. split; [done|].
  unfold ps. collected. exists p. by rewrite elem_of_singleton.
Qed.

Lemma User_delete_comments k c :
  comments db !! k = Some c → Comment.author c = u → k ∈ data col CT_Comment.
Proof.
  intros Hk Hu. unfold col. collected. do 4 right. left. split; [done|].
  unfold cs. collected. exists c. by rewrite elem_of_singleton.
Qed.

Lemma User_delete_likes k l :
  likes db !! k = Some l → Like.user l = u → k ∈ data col CT_Like.
Proof.
  intros Hk Hu. unfold col. collected. right. left. split; [done|].
  exists l. by rewrite elem_of_singleton.
Qed.

Lemma User_delete_media k m :
  media db !! k = Some m → Media_uploaded_by u m → k ∈ data col CT_Media.
Proof.
  intros Hk [Hct Hu]. unfold col, uploads. collected. left. split; [done|].
  exists m. by rewrite elem_of_singleton.
Qed.

(** C4.  Deleting the user [u] succeeds and removes the user together with
    every post and comment the user wrote, every like the user gave and
    every media row the user uploaded; in the resulting database no post,
    comment, like or media row has [u] as its owner (the owner columns are
    not nullable, so none is nulled either). *)
Theorem User_delete_cascades :
  ∃ db', User_delete db u = Ok db' ∧
    users db' !! u = None ∧
    (∀ k p, posts db !! k = Some p → Post.author p = u →
            posts db' !! k = None) ∧
    (∀ k c, comments db !! k = Some c → Comment.author c = u →
            comments db' !! k = None) ∧
    (∀ k l, likes db !! k = Some l → Like.user l = u →
            likes db' !! k = None) ∧
    (∀ k m, media db !! k = Some m → Media_uploaded_by u m →
            media db' !! k = None) ∧
    map_Forall (λ _ p, Post.author p ≠ u) (posts db') ∧
    map_Forall (λ _ c, Comment.author c ≠ u) (comments db') ∧
    map_Forall (λ _ l, Like.user l ≠ u) (likes db') ∧
    map_Forall (λ _ m, ¬ Media_uploaded_by u m) (media db').
Proof.
  exists (Collector_delete db col). split; [apply User_delete_eq|].
  split_and!.
  - apply lookup_remaining_None, User_delete_users.
  - intros k p Hk Hu. by eapply lookup_posts_delete_None, User_delete_posts.
  - intros k c Hk Hu.
    by eapply lookup_comments_delete_None, User_delete_comments.
  - intros k l Hk Hu. by eapply lookup_remaining_None, User_delete_likes.
  - intros k m Hk Hu. by eapply lookup_remaining_None, User_delete_media.
  - intros k p' (p & Hp & Hk & ->)%lookup_posts_delete Hu.
    rewrite update_Post_author in Hu. by eapply Hk, User_delete_posts.
  - intros k c' (c & Hc & Hk & ->)%lookup_comments_delete Hu.
    rewrite update_Comment_author in Hu.
    by eapply Hk, User_delete_comments.
  - intros k l [Hl Hk]%lookup_remaining_Some Hu.
    by eapply Hk, User_delete_likes.
  - intros k m [Hm Hk]%lookup_remaining_Some Hu.
    by eapply Hk, User_delete_media.
Qed.

Lemma User_delete_ps k : k ∈ ps ↔ Post_of_user db u k.
Proof.
  unfold ps, Post_of_user. rewrite elem_of_related.
  by setoid_rewrite elem_of_singleton.
Qed.

Lemma User_delete_cs k :
  k ∈ cs ↔ ∃ c, comments db !! k = Some c ∧ Comment.author c = u.
Proof.
  unfold cs. rewrite elem_of_related. by setoid_rewrite elem_of_singleton.
Qed.

Lemma User_delete_cs_posts k :
  k ∈ cs_posts ↔
  ∃ c, comments db !! k = Some c ∧ Post_of_user db u (Comment.post c).
Proof.
  unfold cs_posts. rewrite elem_of_related.
  by setoid_rewrite User_delete_ps.
Qed.

Lemma User_delete_data_User k : k ∈ data col CT_User ↔ k = u.
Proof.
  unfold col. collected_data. rewrite elem_of_singleton.
  intuition discriminate.
Qed.

Lemma User_delete_data_BlockReason k : k ∈ data col CT_BlockReason ↔ False.
Proof. unfold col. collected_data. intuition discriminate. Qed.

Lemma User_delete_data_Post k :
  k ∈ data col CT_Post ↔ Post_of_user db u k.
Proof.
  unfold col. collected_data. rewrite User_delete_ps.
  intuition discriminate.
Qed.

Lemma User_delete_data_Comment k :
  k ∈ data col CT_Comment ↔ Comment_under_user db u k.
Proof.
  unfold col, Comment_under_user. collected_data.
  rewrite User_delete_cs, User_delete_cs_posts. split.
  - intros H. collected_cases H; destruct H as (c & Hc & H); eauto.
  - intros (c & Hc & [H|H]); in_collected ltac:(eauto).
Qed.

(** The uploads the deletion collects: those by the user, and those
    attached to a collected post or comment. *)
Lemma User_delete_data_Media k :
  k ∈ data col CT_Media ↔
  ∃ m, media db !! k = Some m ∧
    (Media_uploaded_by u m
     ∨ (Media.content_type m = CT_Post
        ∧ Post_of_user db u (Media.object_id m))
     ∨ (Media.content_type m = CT_Comment
        ∧ Comment_under_user db u (Media.object_id m))).
Proof.
  unfold col, uploads, media_items, Media_uploaded_by, Comment_under_user.
  collected_data. rewrite !elem_of_related.
  setoid_rewrite User_delete_cs. setoid_rewrite User_delete_cs_posts.
  setoid_rewrite User_delete_ps. setoid_rewrite elem_of_singleton.
  split.
  - intros H. collected_cases H; destruct H as (m & Hm & H & H');
      exists m; (split; [done|]).
    + by left.
    + right. right. destruct H' as (c & Hc & H'). eauto 6.
    + right. left. eauto.
    + right. right. destruct H' as (c & Hc & H'). eauto 6.
  - intros (m & Hm & [[H H']|[[H H']|[H (c & Hc & [H'|H'])]]]);
      in_collected ltac:(eauto 6).
Qed.

(** The likes the deletion collects: those of the user, and those on a
    collected post or comment. *)
Lemma User_delete_data_Like k :
  k ∈ data col CT_Like ↔
  ∃ l, likes db !! k = Some l ∧
    (Like.user l = u
     ∨ (Like.content_type l = CT_Post
        ∧ Post_of_user db u (Like.object_id l))
     ∨ (Like.content_type l = CT_Comment
        ∧ Comment_under_user db u (Like.object_id l))).
Proof.
  unfold col, likes_of, Comment_under_user.
  collected_data. rewrite !elem_of_related.
  setoid_rewrite User_delete_cs. setoid_rewrite User_delete_cs_posts.
  setoid_rewrite User_delete_ps. setoid_rewrite elem_of_singleton.
  split.
  - intros H. collected_cases H.
    + destruct H as (l & Hl & H). eauto.
    + destruct H as (l & Hl & H & c & Hc & H'). eauto 10.
    + destruct H as (l & Hl & H & H'). eauto 10.
    + destruct H as (l & Hl & H & c & Hc & H'). eauto 10.
  - intros (l & Hl & [H|[[H H']|[H (c & Hc & [H'|H'])]]]);
      in_collected ltac:(eauto 6).
Qed.

Lemma User_delete_updates_Post k :
  (k ∈ field_updates col Post_hidden_by ↔
   ∃ p, posts db !! k = Some p ∧ Post.hidden_by p = Some u)
  ∧ (k ∈ field_updates col Post_hidden_reason ↔ False).
Proof.
  unfold col. collected_updates. rewrite !elem_of_related. split.
  - split.
    + intros H. collected_cases H. destruct H as (x & Hx & H).
      apply points_at_singleton in H. eauto.
    + intros (x & Hx & H).
      in_collected ltac:(exists x; by rewrite points_at_singleton).
  - intuition discriminate.
Qed.

Lemma User_delete_updates_Comment k :
  (k ∈ field_updates col Comment_hidden_by ↔
   ∃ c, comments db !! k = Some c ∧ Comment.hidden_by c = Some u)
  ∧ (k ∈ field_updates col Comment_hidden_reason ↔ False).
Proof.
  unfold col. collected_updates. rewrite !elem_of_related. split.
  - split.
    + intros H. collected_cases H. destruct H as (x & Hx & H).
      apply points_at_singleton in H. eauto.
    + intros (x & Hx & H).
      in_collected ltac:(exists x; by rewrite points_at_singleton).
  - intuition discriminate.
Qed.

Lemma User_delete_closed : closed db col.
Proof.
  constructor.
  - intros k p Hk Hu%User_delete_data_User.
    apply User_delete_data_Post. by exists p.
  - by intros k p r _ _ []%User_delete_data_BlockReason.
  - intros k p u' Hk Hby ->%User_delete_data_User. right.
    apply User_delete_updates_Post. by exists p.
  - intros k c Hk Hp%User_delete_data_Post.
    apply User_delete_data_Comment. exists c. by auto.
  - intros k c Hk Hu%User_delete_data_User.
    apply User_delete_data_Comment. exists c. by auto.
  - by intros k c r _ _ []%User_delete_data_BlockReason.
  - intros k c u' Hk Hby ->%User_delete_data_User. right.
    apply User_delete_updates_Comment. by exists c.
  - intros k l Hk Hu%User_delete_data_User.
    apply User_delete_data_Like. exists l. by auto.
  - intros k m Hk Hct Ho%User_delete_data_Post.
    apply User_delete_data_Media. exists m. by auto.
  - intros k m Hk Hct Ho%User_delete_data_Comment.
    apply User_delete_data_Media. exists m. by auto.
  - intros k m Hk Hct Ho%User_delete_data_User.
    apply User_delete_data_Media. exists m. split; [done|]. by left.
  - intros k l Hk Hct Ho%User_delete_data_Post.
    apply User_delete_data_Like. exists l. by auto.
  - intros k l Hk Hct Ho%User_delete_data_Comment.
    apply User_delete_data_Like. exists l. by auto.
Qed.

Lemma User_delete_invariants :
  ∃ db', User_delete db u = Ok db' ∧
    (fk_integrity db → fk_integrity db') ∧
    (no_orphans db → no_orphans db') ∧
    (unique_ok db → unique_ok db').
Proof.
  exists (Collector_delete db col). split; [apply User_delete_eq|].
  split_and!.
  - apply Collector_delete_fk_integrity, User_delete_closed.
  - apply Collector_delete_no_orphans, User_delete_closed.
  - apply Collector_delete_unique.
Qed.

Lemma User_delete_update_Post k p :
  posts db !! k = Some p →
  update_Post col k p =
    if decide (Post.hidden_by p = Some u)
    then Post.set_hidden_by None p else p.
Proof.
  intros Hk. unfold update_Post.
  destruct (User_delete_updates_Post k) as [Hby Hreason].
  rewrite (decide_False (P := k ∈ field_updates col Post_hidden_reason))
    by (by intros ?%Hreason).
  case_decide as Hin; case_decide as Hu; try done.
  - apply Hby in Hin as (p0 & Hp0 & Hin). congruence.
  - exfalso. apply Hin, Hby. eauto.
Qed.

Lemma User_delete_update_Comment k c :
  comments db !! k = Some c →
  update_Comment col k c =
    if decide (Comment.hidden_by c = Some u)
    then Comment.set_hidden_by None c else c.
Proof.
  intros Hk. unfold update_Comment.
  destruct (User_delete_updates_Comment k) as [Hby Hreason].
  rewrite (decide_False (P := k ∈ field_updates col Comment_hidden_reason))
    by (by intros ?%Hreason).
  case_decide as Hin; case_decide as Hu; try done.
  - apply Hby in Hin as (c0 & Hc0 & Hin). congruence.
  - exfalso. apply Hin, Hby. eauto.
Qed.

(** X3.  Which posts and comments a user's deletion leaves, and how: a post
    stays exactly when someone else wrote it, a comment when someone else
    wrote it on a post of someone else; on those, [hidden_by] is reset when
    it named the user and nothing else changes, so what the user hid stays
    hidden.  The other users and the block reasons are untouched. *)
Theorem User_delete_posts_comments :
  ∃ db', User_delete db u = Ok db' ∧
    users db' = delete u (users db) ∧
    block_reasons db' = block_reasons db ∧
    (∀ k p', posts db' !! k = Some p' ↔
       ∃ p, posts db !! k = Some p ∧ Post.author p ≠ u ∧
            p' = if decide (Post.hidden_by p = Some u)
                 then Post.set_hidden_by None p else p) ∧
    (∀ k c', comments db' !! k = Some c' ↔
       ∃ c, comments db !! k = Some c ∧ Comment.author c ≠ u ∧
            ¬ Post_of_user db u (Comment.post c) ∧
            c' = if decide (Comment.hidden_by c = Some u)
                 then Comment.set_hidden_by None c else c).
Proof.
  exists (Collector_delete db col). split; [apply User_delete_eq|].
  split_and!.
  - apply map_eq. intros k. apply option_eq. intros v.
    rewrite users_delete, lookup_remaining_Some, User_delete_data_User,
            lookup_delete_Some.
    split; intros [? ?]; split; congruence.
  - rewrite block_reasons_delete. apply remaining_none.
    by intros k ?%User_delete_data_BlockReason.
  - intros k p'. rewrite lookup_posts_delete. split.
    + intros (p & Hp & Hk & ->). exists p. split_and!; [done| |].
      * intros Hu. apply Hk, User_delete_data_Post. by exists p.
      * by apply User_delete_update_Post.
    + intros (p & Hp & Hu & ->). exists p. split_and!; [done| |].
      * intros (p0 & Hp0 & Hu0)%User_delete_data_Post. congruence.
      * symmetry. by apply User_delete_update_Post.
  - intros k c'. rewrite lookup_comments_delete. split.
    + intros (c & Hc & Hk & ->). exists c. split_and!; [done| | |].
      * intros Hu. apply Hk, User_delete_data_Comment. exists c. by auto.
      * intros Hp. apply Hk, User_delete_data_Comment. exists c. by auto.
      * by apply User_delete_update_Comment.
    + intros (c & Hc & Hu & Hp & ->). exists c. split_and!; [done| |].
      * intros (c0 & Hc0 & H)%User_delete_data_Comment.
        assert (c0 = c) as -> by congruence. by destruct H.
      * symmetry. by apply User_delete_update_Comment.
Qed.

(** X4.  Which uploads and likes a user's deletion leaves: those that are not
    the user's and hang neither on a post of the user nor on a comment
    that goes; they are left as they are. *)
Theorem User_delete_media_likes :
  ∃ db', User_delete db u = Ok db' ∧
    (∀ k m, media db' !! k = Some m ↔
       media db !! k = Some m ∧ ¬ Media_uploaded_by u m ∧
       ¬ (Media.content_type m = CT_Post
          ∧ Post_of_user db u (Media.object_id m)) ∧
       ¬ (Media.content_type m = CT_Comment
          ∧ Comment_under_user db u (Media.object_id m))) ∧
    (∀ k l, likes db' !! k = Some l ↔
       likes db !! k = Some l ∧ Like.user l ≠ u ∧
       ¬ (Like.content_type l = CT_Post
          ∧ Post_of_user db u (Like.object_id l)) ∧
       ¬ (Like.content_type l = CT_Comment
          ∧ Comment_under_user db u (Like.object_id l))).
Proof.
  exists (Collector_delete db col). split; [apply User_delete_eq|].
  split.
  - intros k m.
    rewrite media_delete, lookup_remaining_Some, User_delete_data_Media.
    split.
    + intros [Hm Hk]. split_and!; [done|..]; intros H; apply Hk; eauto.
    + intros (Hm & H1 & H2 & H3). split; [done|].
      intros (m0 & Hm0 & H). assert (m0 = m) as -> by congruence.
      tauto.
  - intros k l.
    rewrite likes_delete, lookup_remaining_Some, User_delete_data_Like.
    split.
    + intros [Hl Hk]. split_and!; [done|..]; intros H; apply Hk; eauto.
    + intros (Hl & H1 & H2 & H3). split; [done|].
      intros (l0 & Hl0 & H). assert (l0 = l) as -> by congruence.
      tauto.
Qed.

End User_delete.

(** ** Deleting a comment *)

Section Comment_delete.
Variables (db : DB) (pk : Z).

(** The collector a comment's deletion ends with. *)
Let col : Collector :=
  add CT_Like (likes_of db CT_Comment {[pk]})
  (add CT_Media (media_items db CT_Comment {[pk]})
  (add CT_Comment {[pk]} empty_collector)).

Lemma Comment_delete_eq :
  Comment_delete db pk = Ok (Collector_delete db col).
Proof. done. Qed.

Lemma Comment_delete_data_Comment k : k ∈ data col CT_Comment ↔ k = pk.
Proof.
  unfold col. collected_data. rewrite elem_of_singleton.
  intuition discriminate.
Qed.

Lemma Comment_delete_data_Media k :
  k ∈ data col CT_Media ↔
  ∃ m, media db !! k = Some m ∧ Media_attached_to CT_Comment pk m.
Proof.
  unfold col, media_items, Media_attached_to. collected_data.
  rewrite elem_of_related. setoid_rewrite elem_of_singleton.
  intuition discriminate.
Qed.

Lemma Comment_delete_data_Like k :
  k ∈ data col CT_Like ↔
  ∃ l, likes db !! k = Some l ∧ Like_on CT_Comment pk l.
Proof.
  unfold col, likes_of, Like_on. collected_data.
  rewrite elem_of_related. setoid_rewrite elem_of_singleton.
  intuition discriminate.
Qed.

Lemma Comment_delete_data_other m k :
  m = CT_User ∨ m = CT_BlockReason ∨ m = CT_Post → k ∈ data col m ↔ False.
Proof.
  unfold col. collected_data.
  intros [-> | [-> | ->]]; intuition discriminate.
Qed.

Lemma Comment_delete_no_update f : field_updates col f = ∅.
Proof. done. Qed.

Lemma Comment_delete_closed : closed db col.
Proof.
  constructor.
  - intros k p _ []%Comment_delete_data_other. by left.
  - intros k p r _ _ []%Comment_delete_data_other. by auto.
  - intros k p u _ _ []%Comment_delete_data_other. by left.
  - intros k c _ []%Comment_delete_data_other. by auto.
  - intros k c _ []%Comment_delete_data_other. by left.
  - intros k c r _ _ []%Comment_delete_data_other. by auto.
  - intros k c u _ _ []%Comment_delete_data_other. by left.
  - intros k l _ []%Comment_delete_data_other. by left.
  - intros k m _ _ []%Comment_delete_data_other. by auto.
  - intros k m Hm Hct Ho%Comment_delete_data_Comment.
    apply Comment_delete_data_Media. by exists m.
  - intros k m _ _ []%Comment_delete_data_other. by left.
  - intros k l _ _ []%Comment_delete_data_other. by auto.
  - intros k l Hl Hct Ho%Comment_delete_data_Comment.
    apply Comment_delete_data_Like. by exists l.
Qed.

Lemma Comment_delete_invariants :
  ∃ db', Comment_delete db pk = Ok db' ∧
    (fk_integrity db → fk_integrity db') ∧
    (no_orphans db → no_orphans db') ∧
    (unique_ok db → unique_ok db').
Proof.
  exists (Collector_delete db col). split; [apply Comment_delete_eq|].
  split_and!.
  - apply Collector_delete_fk_integrity, Comment_delete_closed.
  - apply Collector_delete_no_orphans, Comment_delete_closed.
  - apply Collector_delete_unique.
Qed.

(** X2.  Deleting the comment [pk] removes that comment and exactly the uploads
    and likes attached to it; its post, the other comments, the users and
    the block reasons stay as they are. *)
Theorem Comment_delete_effect :
  ∃ db', Comment_delete db pk = Ok db' ∧
    users db' = users db ∧
    block_reasons db' = block_reasons db ∧
    posts db' = posts db ∧
    comments db' = delete pk (comments db) ∧
    (∀ k m, media db' !! k = Some m ↔
       media db !! k = Some m ∧ ¬ Media_attached_to CT_Comment pk m) ∧
    (∀ k l, likes db' !! k = Some l ↔
       likes db !! k = Some l ∧ ¬ Like_on CT_Comment pk l).
Proof.
  exists (Collector_delete db col). split; [apply Comment_delete_eq|].
  split_and!.
  - rewrite users_delete. apply remaining_none.
    intros k ?%Comment_delete_data_other; auto.
  - rewrite block_reasons_delete. apply remaining_none.
    intros k ?%Comment_delete_data_other; auto.
  - apply map_eq. intros k. apply option_eq. intros p'.
    rewrite lookup_posts_delete. split.
    + intros (p & Hp & _ & ->).
      by rewrite update_Post_no_update by apply Comment_delete_no_update.
    + intros Hp. exists p'. split_and!; [done| |].
      * intros ?%Comment_delete_data_other; auto.
      * by rewrite update_Post_no_update by apply Comment_delete_no_update.
  - apply map_eq. intros k. apply option_eq. intros c'.
    rewrite lookup_comments_delete, lookup_delete_Some. split.
    + intros (c & Hc & Hk & ->).
      rewrite update_Comment_no_update by apply Comment_delete_no_update.
      split; [|done]. intros <-. by apply Hk, Comment_delete_data_Comment.
    + intros [Hk Hc]. exists c'. split_and!; [done| |].
      * by rewrite Comment_delete_data_Comment.
      * by rewrite update_Comment_no_update
          by apply Comment_delete_no_update.
  - intros k m.
    rewrite media_delete, lookup_remaining_Some, Comment_delete_data_Media.
    split.
    + intros [Hm Hk]. split; [done|]. intros Ha. apply Hk. eauto.
    + intros [Hm Ha]. split; [done|]. intros (m0 & Hm0 & Ha0).
      apply Ha. congruence.
  - intros k l.
    rewrite likes_delete, lookup_remaining_Some, Comment_delete_data_Like.
    split.
    + intros [Hl Hk]. split; [done|]. intros Ha. apply Hk. eauto.
    + intros [Hl Ha]. split; [done|]. intros (l0 & Hl0 & Ha0).
      apply Ha. congruence.
Qed.

End Comment_delete.

(** ** Saving media *)

Lemma not_null_Some {A} column (a : A) : not_null column (Some a) = Ok a.
Proof. done. Qed.

(** Saving a new instance with a file and both references present
    succeeds, whatever the references point at, once the storage has given
    the upload a name: the row gets a fresh key, the size of the upload and
    the references as given, and the storage holds the upload under the
    row's file name. *)
Lemma Media_save_new {FS : FileStorage} (st : Storage) (db : DB) (name : string)
    (content : list Byte.byte) (ct uct : ContentType) (oid uoid : Z)
    (now : Z) (wanted stored : string) :
  name ≠ "" →
  generate_filename Media.upload_to name = Ok wanted →
  get_available_name st wanted = Ok stored →
  Z.of_nat (length content) ≤ MAX_BIGINT →
  0 ≤ oid ≤ MAX_BIGINT →
  0 ≤ uoid ≤ MAX_BIGINT →
  let row := {| Media.file := stored;
                Media.size_bytes := Z.of_nat (length content);
                Media.uploaded_at := now;
                Media.content_type := ct;
                Media.object_id := oid;
                Media.uploader_content_type := uct;
                Media.uploader_object_id := uoid |} in
  let pk := next_pk (media db) in
  Media_save st db (Media.Obj.new name content ct oid uct uoid) now =
    Ok (<[stored := content]> st,
        with_media (<[pk := row]> (media db)) db,
        Media.from_db pk row).
Proof.
  intros Hname Hwanted Hstored Hsize Hoid Huoid.
  unfold Media_save, Media_base_save.
  simpl. unfold FieldFile.truthy, FieldFile.size, FieldFile.commit. simpl.
  unfold FieldFile.truthy. simpl.
  rewrite bool_decide_eq_true_2 by done. simpl.
  rewrite bool_decide_eq_true_2 by done. simpl.
  rewrite Hwanted. simpl. rewrite Hstored. simpl.
  rewrite !check_positive_big_integer_ok by (done || lia). simpl.
  done.
Qed.

(** X12.  [Media.save] leaves a size that is set and not zero alone: the guard
    skips the assignment, and the row is written with the size the instance
    carries, whatever the storage holds. *)
Lemma Media_save_nonzero_size {FS : FileStorage} (st : Storage) (db : DB)
    (o : Media.Obj.t) (now : Z) (n : Z) st' db' o' :
  Media.Obj.size_bytes o = Some n → n ≠ 0 →
  Media_save st db o now = Ok (st', db', o') →
  Media.Obj.size_bytes o' = Some n ∧
  ∃ k row, Media.Obj.pk o' = Some k ∧ media db' !! k = Some row
           ∧ Media.size_bytes row = n.
Proof.
  intros Hn Hn0. unfold Media_save. rewrite Hn. simpl.
  rewrite bool_decide_eq_true_2 by done. simpl.
  unfold Media_base_save.
  destruct (FieldFile.commit _ _ _) as [[st1 file1]|]; simpl; [|done].
  rewrite Hn. simpl.
  destruct (check_positive_big_integer "size_bytes" n); simpl; [|done].
  destruct (if _ : bool then _ else _) as [up|]; simpl; [|done].
  destruct (Media.Obj.content_type o); simpl; [|done].
  destruct (Media.Obj.object_id o) as [oid|]; simpl; [|done].
  destruct (check_positive_big_integer "object_id" oid); simpl; [|done].
  destruct (Media.Obj.uploader_content_type o); simpl; [|done].
  destruct (Media.Obj.uploader_object_id o) as [uoid|]; simpl; [|done].
  destruct (check_positive_big_integer _ uoid); simpl; [|done].
  intros [= <- <- <-]. split; [done|].
  eexists _, _. split; [done|]. split; [apply lookup_insert_eq|done].
Qed.

(** X13.  Saving a stored row again, as loaded, is the identity when its size is
    not zero, for every content of the storage. *)
Lemma Media_save_reload {FS : FileStorage} (st : Storage) (db : DB) (k : Z)
    (row : Media.t) (now : Z) :
  media db !! k = Some row →
  Media_row_valid row →
  Media.size_bytes row ≠ 0 →
  Media_save st db (Media.from_db k row) now =
    Ok (st, db, Media.from_db k row).
Proof.
  intros Hk (Hsize & Hoid & Huoid) Hn0. unfold Media_save. simpl.
  rewrite bool_decide_eq_true_2 by done. simpl.
  unfold Media_base_save. simpl.
  rewrite bool_decide_eq_false_2 by (rewrite Hk; done). simpl.
  rewrite !check_positive_big_integer_ok by done. simpl.
  destruct row, db. simpl in *. unfold with_media. simpl.
  by rewrite insert_id.
Qed.

(** C2.  The size of an upload of no bytes does not stay as captured: the
    first save stores [size_bytes = 0], the length of the upload; once the
    stored file has three bytes, saving the unchanged instance again writes
    [size_bytes = 3], because [not self.size_bytes] also holds for [0].
    This is so for every storage, under whatever name it keeps the
    upload. *)
Theorem Media_save_empty_upload_resized {FS : FileStorage}
    (wanted stored : string) :
  generate_filename Media.upload_to "empty.txt" = Ok wanted →
  get_available_name ∅ wanted = Ok stored →
  ∃ st1 db1 row1,
    Media_save ∅ db_one_post empty_upload 100
      = Ok (st1, db1, Media.from_db 1 row1) ∧
    media db1 !! 1 = Some row1 ∧
    Media.size_bytes row1 = 0 ∧
    ∃ st2 db2 row2,
      Media_save (<[Media.file row1 := [Byte.x01; Byte.x02; Byte.x03]]> st1)
                 db1 (Media.from_db 1 row1) 200
        = Ok (st2, db2, Media.from_db 1 row2) ∧
      media db2 !! 1 = Some row2 ∧
      Media.size_bytes row2 = 3.
Proof.
  intros Hwanted Hstored.
  pose proof (get_available_name_nonempty _ _ _ Hstored) as Hne.
  eexists _, _, _. split.
  { unfold empty_upload.
    rewrite (Media_save_new ∅ db_one_post "empty.txt" [] CT_Post CT_User
               1 1 100 wanted stored); [reflexivity|done..]. }
  split; [apply lookup_insert_eq|]. split; [done|].
  eexists _, _, _. split.
  { unfold Media_save. simpl.
    unfold FieldFile.size, FieldFile.truthy. simpl.
    rewrite bool_decide_eq_true_2 by done. simpl.
    rewrite lookup_insert_eq. simpl.
    unfold Media_base_save. simpl.
    rewrite lookup_insert_eq. simpl.
    reflexivity. }
  split; [apply lookup_insert_eq|]. done.
Qed.

Lemma Media_save_empty_upload_resized_witness :
  ∃ st1 db1 row1,
    Media_save (FS := sample_storage) ∅ db_one_post empty_upload 100
      = Ok (st1, db1, Media.from_db 1 row1) ∧
    media db1 !! 1 = Some row1 ∧
    Media.size_bytes row1 = 0 ∧
    ∃ st2 db2 row2,
      Media_save (FS := sample_storage)
                 (<[Media.file row1 := [Byte.x01; Byte.x02; Byte.x03]]> st1)
                 db1 (Media.from_db 1 row1) 200
        = Ok (st2, db2, Media.from_db 1 row2) ∧
      media db2 !! 1 = Some row2 ∧
      Media.size_bytes row2 = 3.
Proof.
  apply (Media_save_empty_upload_resized (FS := sample_storage)
           "uploads/empty.txt" "uploads/empty.txt").
  - reflexivity.
  - by vm_compute.
Defined.

(** ** The references of a media row *)

(** A row the base save writes carries the references of the instance, which
    therefore were all present and in range. *)
Lemma Media_base_save_references {FS : FileStorage} (st : Storage) (db : DB)
    (o : Media.Obj.t) (now : Z) st' db' o' :
  Media_base_save st db o now = Ok (st', db', o') →
  ∃ k row, Media.Obj.pk o' = Some k ∧ media db' !! k = Some row ∧
    Media.Obj.content_type o = Some (Media.content_type row) ∧
    Media.Obj.object_id o = Some (Media.object_id row) ∧
    Media.Obj.uploader_content_type o
      = Some (Media.uploader_content_type row) ∧
    Media.Obj.uploader_object_id o = Some (Media.uploader_object_id row) ∧
    0 ≤ Media.object_id row ≤ MAX_BIGINT ∧
    0 ≤ Media.uploader_object_id row ≤ MAX_BIGINT.
Proof.
  unfold Media_base_save.
  destruct (FieldFile.commit _ _ _) as [[st1 file1]|]; simpl; [|done].
  destruct (Media.Obj.size_bytes o) as [n|]; simpl; [|done].
  destruct (check_positive_big_integer "size_bytes" n); simpl; [|done].
  destruct (if _ : bool then _ else _) as [up|]; simpl; [|done].
  destruct (Media.Obj.content_type o); simpl; [|done].
  destruct (Media.Obj.object_id o) as [oid|]; simpl; [|done].
  destruct (check_positive_big_integer "object_id" oid) eqn:Hoid;
    simpl; [|done].
  destruct (Media.Obj.uploader_content_type o); simpl; [|done].
  destruct (Media.Obj.uploader_object_id o) as [uoid|]; simpl; [|done].
  destruct (check_positive_big_integer _ uoid) eqn:Huoid; simpl; [|done].
  intros [= <- <- <-].
  assert (∀ column v, check_positive_big_integer column v = Ok tt →
                      0 ≤ v ≤ MAX_BIGINT) as Hrange.
  { intros column v. unfold check_positive_big_integer, require.
    repeat case_bool_decide; simpl; try done. }
  destruct a0, a1.
  eexists _, _. split; [done|]. split; [apply lookup_insert_eq|].
  simpl. eauto 10.
Qed.

(** The counterexample to C6: in a database without any row, a media row
    is created whose parent is the like 42 and whose uploader is the post
    7, neither of which exists; and one whose parent is the missing post
    42. *)
Lemma Media_save_dangling_references :
  (∃ st' db' row,
     Media_save (FS := sample_storage) ∅ empty_db
       (Media.Obj.new "a.png" [Byte.x00] CT_Like 42 CT_Post 7) 100
       = Ok (st', db', Media.from_db 1 row) ∧
     media db' !! 1 = Some row ∧
     Media.content_type row = CT_Like ∧ Media.object_id row = 42 ∧
     likes db' !! 42 = None ∧
     Media.uploader_content_type row = CT_Post ∧
     Media.uploader_object_id row = 7 ∧
     posts db' !! 7 = None ∧ users db' !! 7 = None) ∧
  (∃ st' db' row,
     Media_save (FS := sample_storage) ∅ empty_db
       (Media.Obj.new "a.png" [Byte.x00] CT_Post 42 CT_User 7) 100
       = Ok (st', db', Media.from_db 1 row) ∧
     media db' !! 1 = Some row ∧
     Media.content_type row = CT_Post ∧ Media.object_id row = 42 ∧
     posts db' !! 42 = None ∧ users db' !! 7 = None).
Proof.
  split.
  - exists {[ "uploads/a.png" := [Byte.x00] ]},
      (with_media {[ 1 := dangling_row CT_Like CT_Post ]} empty_db),
      (dangling_row CT_Like CT_Post).
    split; [by vm_compute|]. by vm_compute.
  - exists {[ "uploads/a.png" := [Byte.x00] ]},
      (with_media {[ 1 := dangling_row CT_Post CT_User ]} empty_db),
      (dangling_row CT_Post CT_User).
    split; [by vm_compute|]. by vm_compute.
Qed.

(** C6, as amended.  A media row has one parent reference and one uploader
    reference, each a pair of a content type and an object id.  Saving a new
    instance that has a file, which the storage takes, and both pairs, with
    ids in the column's range, succeeds and stores the pairs as given,
    whether or not a row matches them and whatever their content types are;
    and every save that succeeds was given all four components, in range,
    and stored exactly those. *)
Theorem Media_save_references {FS : FileStorage} (st : Storage) (db : DB)
    (now : Z) :
  (∀ name content ct oid uct uoid wanted stored,
     name ≠ "" →
     generate_filename Media.upload_to name = Ok wanted →
     get_available_name st wanted = Ok stored →
     Z.of_nat (length content) ≤ MAX_BIGINT →
     0 ≤ oid ≤ MAX_BIGINT → 0 ≤ uoid ≤ MAX_BIGINT →
     ∃ st' db' k row,
       Media_save st db (Media.Obj.new name content ct oid uct uoid) now
         = Ok (st', db', Media.from_db k row) ∧
       media db !! k = None ∧
       media db' = <[k := row]> (media db) ∧
       Media.content_type row = ct ∧ Media.object_id row = oid ∧
       Media.uploader_content_type row = uct ∧
       Media.uploader_object_id row = uoid) ∧
  (∀ o st' db' o',
     Media_save st db o now = Ok (st', db', o') →
     ∃ k row, Media.Obj.pk o' = Some k ∧ media db' !! k = Some row ∧
       Media.Obj.content_type o = Some (Media.content_type row) ∧
       Media.Obj.object_id o = Some (Media.object_id row) ∧
       Media.Obj.uploader_content_type o
         = Some (Media.uploader_content_type row) ∧
       Media.Obj.uploader_object_id o
         = Some (Media.uploader_object_id row) ∧
       0 ≤ Media.object_id row ≤ MAX_BIGINT ∧
       0 ≤ Media.uploader_object_id row ≤ MAX_BIGINT).
Proof.
  split.
  - intros name content ct oid uct uoid wanted stored
           Hname Hwanted Hstored Hsize Hoid Huoid.
    eexists _, _, _, _. split; [by eapply Media_save_new|].
    split; [apply next_pk_fresh|]. done.
  - intros o st' db' o'. unfold Media_save.
    destruct (negb _ && _); simpl.
    + destruct (FieldFile.size st (Media.Obj.file o)); simpl; [|done].
      intros H. by apply Media_base_save_references in H.
    + apply Media_base_save_references.
Qed.

(** ** The views *)

Import Views.

(** C9.  [dummypage] answers with its fixed text exactly when the request
    method is GET; for every other method it returns [None], no response
    object. *)
Theorem dummypage_only_GET (request : HttpRequest) :
  (method request = "GET" →
   dummypage request = Some {| content := "No content here, sorry!";
                               status_code := 200 |}) ∧
  (method request ≠ "GET" → dummypage request = None).
Proof.
  unfold dummypage. split; intros Hm.
  - by rewrite decide_True.
  - by rewrite decide_False.
Qed.

Lemma timedelta_new_normal (d h m s us : Z) :
  0 ≤ h * 3600 + m * 60 + s < 86400 → 0 ≤ us < 1000000 →
  timedelta_new d h m s us =
    {| days := d; seconds := h * 3600 + m * 60 + s; microseconds := us |}.
Proof.
  intros Hs Hus. unfold timedelta_new.
  rewrite (Z.div_small us), (Z.mod_small us) by lia.
  rewrite Z.add_0_r, Z.div_small, Z.mod_small by lia.
  by rewrite Z.add_0_r.
Qed.

Lemma timedelta_minus_5h :
  timedelta_neg (timedelta_new 0 5 0 0 0) =
    {| days := -1; seconds := 68400; microseconds := 0 |}.
Proof. reflexivity. Qed.

(** The time of day, in seconds, splits back into its fields. *)
Lemma split_seconds (h m s : Z) :
  0 ≤ m < 60 → 0 ≤ s < 60 →
  (h * 3600 + m * 60 + s) `div` 3600 = h ∧
  ((h * 3600 + m * 60 + s) `mod` 3600) `div` 60 = m ∧
  ((h * 3600 + m * 60 + s) `mod` 3600) `mod` 60 = s.
Proof.
  intros Hm Hs.
  assert ((h * 3600 + m * 60 + s) `mod` 3600 = m * 60 + s) as ->
    by (symmetry; apply (Z.mod_unique _ _ h); lia).
  split_and!; symmetry.
  - apply (Z.div_unique _ _ _ (m * 60 + s)); lia.
  - apply (Z.div_unique _ _ _ s); lia.
  - apply (Z.mod_unique _ _ m); lia.
Qed.

(** Five hours back, as [datetime.__sub__] computes it. *)
Lemma datetime_sub_5h (dt : datetime) :
  datetime_valid dt → 1 < ordinal dt ∨ 5 ≤ hour dt →
  datetime_sub dt (timedelta_new 0 5 0 0 0) =
    Ok {| ordinal := if decide (5 ≤ hour dt) then ordinal dt
                     else ordinal dt - 1;
          hour := (hour dt - 5) `mod` 24;
          minute := minute dt;
          second := second dt;
          microsecond := microsecond dt |}.
Proof.
  intros (Hord & Hh & Hm & Hs & Hus) Hfirst.
  unfold datetime_sub, datetime_add. rewrite timedelta_minus_5h.
  rewrite (timedelta_new_normal (ordinal dt)) by lia.
  unfold timedelta_add. cbn [days seconds microseconds].
  unfold MAXORDINAL in *.
  destruct (decide (5 ≤ hour dt)) as [H5|H5].
  - replace (hour dt * 3600 + minute dt * 60 + second dt + 68400)
      with (24 * 3600 + ((hour dt - 5) * 3600 + minute dt * 60 + second dt))
      by lia.
    assert (timedelta_new (ordinal dt + -1) 0 0
              (24 * 3600 + ((hour dt - 5) * 3600 + minute dt * 60
                            + second dt)) (microsecond dt + 0)
            = {| days := ordinal dt;
                 seconds := (hour dt - 5) * 3600 + minute dt * 60
                            + second dt;
                 microseconds := microsecond dt |}) as ->.
    { unfold timedelta_new.
      rewrite (Z.div_small (microsecond dt + 0)),
              (Z.mod_small (microsecond dt + 0)) by lia.
      f_equal; [| |lia].
      - replace (ordinal dt) with (ordinal dt + -1 + 1) at 2 by lia.
        f_equal. symmetry.
        apply (Z.div_unique _ _ _ ((hour dt - 5) * 3600 + minute dt * 60
                                   + second dt)); lia.
      - symmetry. apply (Z.mod_unique _ _ 1); lia. }
    cbn [days seconds microseconds].
    rewrite bool_decide_eq_true_2 by lia.
    destruct (split_seconds (hour dt - 5) (minute dt) (second dt))
      as (-> & -> & ->); [done..|].
    by rewrite (Z.mod_small (hour dt - 5)) by lia.
  - replace (hour dt * 3600 + minute dt * 60 + second dt + 68400)
      with ((hour dt + 19) * 3600 + minute dt * 60 + second dt) by lia.
    assert (timedelta_new (ordinal dt + -1) 0 0
              ((hour dt + 19) * 3600 + minute dt * 60 + second dt)
              (microsecond dt + 0)
            = {| days := ordinal dt - 1;
                 seconds := (hour dt + 19) * 3600 + minute dt * 60
                            + second dt;
                 microseconds := microsecond dt |}) as ->.
    { unfold timedelta_new.
      rewrite (Z.div_small (microsecond dt + 0)),
              (Z.mod_small (microsecond dt + 0)) by lia.
      rewrite Z.div_small, Z.mod_small by lia.
      f_equal; lia. }
    cbn [days seconds microseconds].
    rewrite bool_decide_eq_true_2 by lia.
    destruct (split_seconds (hour dt + 19) (minute dt) (second dt))
      as (-> & -> & ->); [done..|].
    assert ((hour dt - 5) `mod` 24 = hour dt + 19) as ->
      by (symmetry; apply (Z.mod_unique _ _ (-1)); lia).
    done.
Qed.

(** In the first five hours of ordinal day 1 the subtraction leaves the
    range of dates and raises. *)
Example current_time_overflow :
  current_time {| ordinal := 1; hour := 4; minute := 59; second := 59;
                  microsecond := 999999 |} {| method := "GET"; GET := [] |}
  = Err (OverflowError "date value out of range").
Proof. reflexivity. Qed.

(** The two characters of [two_digits n] are the decimal digits of [n]. *)
Lemma two_digits_spec (n : Z) :
  0 ≤ n < 100 →
  ∃ d1 d0 : nat, (d1 < 10)%nat ∧ (d0 < 10)%nat ∧
    n = Z.of_nat (10 * d1 + d0) ∧
    two_digits n =
      String (Ascii.ascii_of_nat (48 + d1))
        (String (Ascii.ascii_of_nat (48 + d0)) "").
Proof.
  intros Hn. exists (Z.to_nat (n `div` 10)), (Z.to_nat (n `mod` 10)).
  pose proof (Z.div_mod n 10). pose proof (Z.mod_pos_bound n 10).
  split_and!; [lia..|done].
Qed.

(** C8.  For a reading [utc_now] of the clock (any valid time but the first
    five hours of ordinal day 1, where the subtraction overflows),
    [current_time] answers with status 200 and the time [cdt_now] that lies
    exactly five hours before [utc_now], written as [HH:MM]: its hour is
    the clock's hour minus 5 modulo 24, its minute the clock's minute, and
    the body is the five characters made of the two decimal digits of the
    hour, a colon and the two decimal digits of the minute. *)
Theorem current_time_minus_5h (utc_now : datetime) (request : HttpRequest) :
  datetime_valid utc_now → 1 < ordinal utc_now ∨ 5 ≤ hour utc_now →
  ∃ (cdt_now : datetime) (h1 h0 m1 m0 : nat),
    datetime_valid cdt_now ∧
    total_microseconds cdt_now
      = total_microseconds utc_now - 5 * 3600 * 1000000 ∧
    hour cdt_now = (hour utc_now - 5) `mod` 24 ∧
    minute cdt_now = minute utc_now ∧
    (h1 < 10 ∧ h0 < 10 ∧ m1 < 10 ∧ m0 < 10)%nat ∧
    hour cdt_now = Z.of_nat (10 * h1 + h0) ∧
    minute cdt_now = Z.of_nat (10 * m1 + m0) ∧
    current_time utc_now request =
      Ok {| content :=
              String (Ascii.ascii_of_nat (48 + h1))
                (String (Ascii.ascii_of_nat (48 + h0))
                   (":" +:+
                    String (Ascii.ascii_of_nat (48 + m1))
                      (String (Ascii.ascii_of_nat (48 + m0)) "")));
            status_code := 200 |}.
Proof.
  intros Hvalid Hfirst.
  pose proof (datetime_sub_5h utc_now Hvalid Hfirst) as Hsub.
  destruct Hvalid as (Hord & Hh & Hm & Hs & Hus).
  pose proof (Z.mod_pos_bound (hour utc_now - 5) 24) as Hmod.
  destruct (two_digits_spec ((hour utc_now - 5) `mod` 24))
    as (h1 & h0 & Hh1 & Hh0 & Hhour & Hhh); [lia|].
  destruct (two_digits_spec (minute utc_now))
    as (m1 & m0 & Hm1 & Hm0 & Hminute & Hmm); [lia|].
  exists {| ordinal := if decide (5 ≤ hour utc_now) then ordinal utc_now
                       else ordinal utc_now - 1;
            hour := (hour utc_now - 5) `mod` 24;
            minute := minute utc_now;
            second := second utc_now;
            microsecond := microsecond utc_now |}, h1, h0, m1, m0.
  split; [|split; [|split; [done|split; [done|split; [lia|
    split; [done|split; [done|]]]]]]].
  - unfold datetime_valid. cbn [ordinal hour minute second microsecond].
    case_decide; lia.
  - unfold total_microseconds. cbn [ordinal hour minute second microsecond].
    case_decide.
    + rewrite (Z.mod_small (hour utc_now - 5)) by lia. lia.
    + assert ((hour utc_now - 5) `mod` 24 = hour utc_now + 19) as ->
        by (symmetry; apply (Z.mod_unique _ _ (-1)); lia).
      lia.
  - unfold current_time. rewrite Hsub. simpl.
    unfold strftime_HM. simpl. by rewrite Hhh, Hmm.
Qed.

Lemma current_time_minus_5h_witness :
  ∃ (cdt_now : datetime) (h1 h0 m1 m0 : nat),
    datetime_valid cdt_now ∧
    total_microseconds cdt_now
      = total_microseconds sample_utc_now - 5 * 3600 * 1000000 ∧
    hour cdt_now = (hour sample_utc_now - 5) `mod` 24 ∧
    minute cdt_now = minute sample_utc_now ∧
    (h1 < 10 ∧ h0 < 10 ∧ m1 < 10 ∧ m0 < 10)%nat ∧
    hour cdt_now = Z.of_nat (10 * h1 + h0) ∧
    minute cdt_now = Z.of_nat (10 * m1 + m0) ∧
    current_time sample_utc_now {| method := "GET"; GET := [] |} =
      Ok {| content :=
              String (Ascii.ascii_of_nat (48 + h1))
                (String (Ascii.ascii_of_nat (48 + h0))
                   (":" +:+
                    String (Ascii.ascii_of_nat (48 + m1))
                      (String (Ascii.ascii_of_nat (48 + m0)) "")));
            status_code := 200 |}.
Proof.
  apply (current_time_minus_5h sample_utc_now).
  - unfold datetime_valid, MAXORDINAL. simpl. lia.
  - left. simpl. lia.
Defined.

(** At 03:07 UTC the body is 22:07, at 17:45 it is 12:45. *)
Example current_time_0307 :
  current_time sample_utc_now {| method := "GET"; GET := [] |}
  = Ok {| content := "22:07"; status_code := 200 |}.
Proof. reflexivity. Qed.

Example current_time_1745 :
  current_time {| ordinal := 739000; hour := 17; minute := 45; second := 0;
                  microsecond := 0 |} {| method := "POST"; GET := [] |}
  = Ok {| content := "12:45"; status_code := 200 |}.
Proof. reflexivity. Qed.

(** What the query string gives for [key]: [Some s] when [s] is the value
    of the last pair whose name is [key], [None] when no pair has that
    name. *)
Definition query_value (request : HttpRequest) (key : string)
    (v : option string) : Prop :=
  match v with
  | Some s => ∃ before after,
      GET request = before ++ (key, s) :: after ∧ key ∉ after.*1
  | None => key ∉ (GET request).*1
  end.

Lemma QueryDict_get_absent (q : list (string * string)) (key : string) :
  key ∉ q.*1 → QueryDict_get q key = None.
Proof.
  induction q as [|[k v] q IH]; [done|]. simpl.
  intros [Hk Hq]%not_elem_of_cons. rewrite IH by done.
  by rewrite decide_False.
Qed.

Lemma QueryDict_get_last (before after : list (string * string))
    (key s : string) :
  key ∉ after.*1 → QueryDict_get (before ++ (key, s) :: after) key = Some s.
Proof.
  intros Hafter. induction before as [|[k v] before IH]; simpl.
  - rewrite QueryDict_get_absent by done. by rewrite decide_True.
  - by rewrite IH.
Qed.

Lemma QueryDict_get_query_value (request : HttpRequest) (key : string)
    (v : option string) :
  query_value request key v → QueryDict_get (GET request) key = v.
Proof.
  destruct v as [s|]; simpl.
  - intros (before & after & -> & Hafter). by apply QueryDict_get_last.
  - apply QueryDict_get_absent.
Qed.

(** C7.  In [add_numbers] a parameter that is absent from the query counts
    as [float(0)] and a parameter that is supplied counts as [float] of the
    last value the query gives it.  When both convert, the body is [str] of
    their sum; when a supplied parameter does not convert, the body is
    [Error: ] followed by the message of the error, the first parameter
    being converted first, and the message of a [ValueError], which is
    what [float] raises on a string, is the text it was raised with; the
    status is 200 in each case, whatever the method of the request. *)
Theorem add_numbers_responses `{PyFloat} (request : HttpRequest) :
  (query_value request "n1" None → query_value request "n2" None →
   add_numbers request =
     {| content := float_str (float_add (float_of_int 0) (float_of_int 0));
        status_code := 200 |}) ∧
  (∀ s1 x1, query_value request "n1" (Some s1) →
     float_of_str s1 = Ok x1 → query_value request "n2" None →
     add_numbers request =
       {| content := float_str (float_add x1 (float_of_int 0));
          status_code := 200 |}) ∧
  (∀ s2 x2, query_value request "n1" None →
     query_value request "n2" (Some s2) → float_of_str s2 = Ok x2 →
     add_numbers request =
       {| content := float_str (float_add (float_of_int 0) x2);
          status_code := 200 |}) ∧
  (∀ s1 s2 x1 x2, query_value request "n1" (Some s1) →
     float_of_str s1 = Ok x1 →
     query_value request "n2" (Some s2) → float_of_str s2 = Ok x2 →
     add_numbers request =
       {| content := float_str (float_add x1 x2); status_code := 200 |}) ∧
  (∀ s1 e, query_value request "n1" (Some s1) → float_of_str s1 = Err e →
     add_numbers request =
       {| content := "Error: " +:+ Error_str e; status_code := 200 |}) ∧
  (∀ s2 e, query_value request "n1" None →
     query_value request "n2" (Some s2) → float_of_str s2 = Err e →
     add_numbers request =
       {| content := "Error: " +:+ Error_str e; status_code := 200 |}) ∧
  (∀ s1 x1 s2 e, query_value request "n1" (Some s1) →
     float_of_str s1 = Ok x1 →
     query_value request "n2" (Some s2) → float_of_str s2 = Err e →
     add_numbers request =
       {| content := "Error: " +:+ Error_str e; status_code := 200 |}) ∧
  (∀ msg, Error_str (ValueError msg) = msg).
Proof.
  unfold add_numbers, float_param. split_and!; [..|done].
  - intros ->%QueryDict_get_query_value ->%QueryDict_get_query_value.
    done.
  - intros s1 x1 ->%QueryDict_get_query_value Hx1
           ->%QueryDict_get_query_value.
    by rewrite Hx1.
  - intros s2 x2 ->%QueryDict_get_query_value
           ->%QueryDict_get_query_value Hx2.
    simpl. by rewrite Hx2.
  - intros s1 s2 x1 x2 ->%QueryDict_get_query_value Hx1
           ->%QueryDict_get_query_value Hx2.
    rewrite Hx1. simpl. by rewrite Hx2.
  - intros s1 e ->%QueryDict_get_query_value He. by rewrite He.
  - intros s2 e ->%QueryDict_get_query_value
           ->%QueryDict_get_query_value He.
    simpl. by rewrite He.
  - intros s1 x1 s2 e ->%QueryDict_get_query_value Hx1
           ->%QueryDict_get_query_value He.
    rewrite Hx1. simpl. by rewrite He.
Qed.

(** ** Roles *)

(** C10.  A user built without a role has the role ["serf"], which is not
    the administrator role, and is stored with it; and a new user has the
    administrator role only if that role was passed explicitly. *)
Theorem User_default_role (username nickname : string)
    (avatar : option string) (bio : string) :
  let u := User.new username nickname None avatar bio in
  User.role u = "serf" ∧
  User.role u ≠ User.ADMINISTRATOR ∧
  (∀ db db' pk, User_create db u = Ok (db', pk) →
     ∃ u', users db' !! pk = Some u' ∧ User.role u' = "serf") ∧
  (∀ role', User.role (User.new username nickname role' avatar bio)
            = User.ADMINISTRATOR → role' = Some User.ADMINISTRATOR).
Proof.
  split_and!; [done|done| |].
  - intros db db' pk. unfold User_create.
    do 2 (destruct (require _ _); simpl; try done).
    intros [= <- <-]. eexists. split; [apply lookup_insert_eq|done].
  - intros [role'|]; simpl; [by intros ->|done].
Qed.

(** ** The sample database *)

Example build_sample_db_eq :
  build_sample_db =
    Ok ({[ "uploads/cat.png" := [Byte.x00; Byte.x01];
           "uploads/dog.png" := [Byte.x00; Byte.x01; Byte.x02] ]},
        sample_db).
Proof. by vm_compute. Qed.

(** Bob likes post 1 already: liking it again fails, and so does a like by
    a user that does not exist. *)
Example Like_create_sample_duplicate :
  Like_create sample_db 2 CT_Post 1 30
    = Err (IntegrityError (Unique "unique_user_like")) ∧
  Like_create sample_db 7 CT_Post 1 30
    = Err (IntegrityError (ForeignKey "user_id")).
Proof. split; by vm_compute. Qed.

(** Deleting post 1 takes comment 1, both uploads and the likes 1 and 2
    with it; post 2, its comment and the like on it stay. *)
Example Post_delete_sample :
  Post_delete sample_db 1 =
    Ok {| users := users sample_db;
          block_reasons := block_reasons sample_db;
          posts := delete 1 (posts sample_db);
          comments := delete 1 (comments sample_db);
          media := ∅;
          likes := delete 2 (delete 1 (likes sample_db)) |}.
Proof. by vm_compute. Qed.

(** Deleting bob takes his post 2 with alice's comment and like on it, his
    comment 1 with the upload and alice's like on it, and his like; alice,
    her post and her upload stay. *)
Example User_delete_sample :
  User_delete sample_db 2 =
    Ok {| users := delete 2 (users sample_db);
          block_reasons := block_reasons sample_db;
          posts := delete 2 (posts sample_db);
          comments := ∅;
          media := delete 1 (media sample_db);
          likes := ∅ |}.
Proof. by vm_compute. Qed.

(** Deleting the reason of a hidden post leaves the post hidden, by the
    same user at the same time, without a reason. *)
Example BlockReason_delete_sample :
  BlockReason_delete sample_db_hidden 1 =
    Ok (with_block_reasons ∅
       (with_posts
          (<[ 1 := {| Post.author := 1; Post.text := "hello";
                      Post.created_at := 10; Post.is_hidden := true;
                      Post.hidden_reason := None; Post.hidden_by := Some 2;
                      Post.hidden_at := Some 20 |} ]> (posts sample_db))
          sample_db)).
Proof. by vm_compute. Qed.

(** Deleting the user who hid a post nulls [hidden_by] on it; here the
    user is bob, whose own rows go as before. *)
Example User_delete_sample_hidden :
  User_delete sample_db_hidden 2 =
    Ok {| users := delete 2 (users sample_db);
          block_reasons := block_reasons sample_db;
          posts := {[ 1 := {| Post.author := 1; Post.text := "hello";
                              Post.created_at := 10; Post.is_hidden := true;
                              Post.hidden_reason := Some 1;
                              Post.hidden_by := None;
                              Post.hidden_at := Some 20 |} ]};
          comments := ∅;
          media := delete 1 (media sample_db);
          likes := ∅ |}.
Proof. by vm_compute. Qed.

(** ** The likes of [app/models.py] *)

(** X24.  Under [unique_together = ("user", "post")] a user likes a post once:
    the second insert for the same pair fails. *)
Lemma Like_create_twice_post (db : Models.DB) (u p now now' : Z) :
  is_Some (Models.users db !! u) →
  is_Some (Models.posts db !! p) →
  map_Forall (λ _ l, ¬ (Models.Like.user l = u ∧ Models.Like.post l = p))
             (Models.likes db) →
  ∃ db' pk,
    Models.Like_create db u p now = Ok (db', pk) ∧
    Models.likes db !! pk = None ∧
    Models.likes db' =
      <[pk := {| Models.Like.user := u; Models.Like.post := p;
                 Models.Like.created_at := now |}]> (Models.likes db) ∧
    Models.Like_create db' u p now' =
      Err (IntegrityError (Unique "user_post")).
Proof.
  intros Hu Hp Hnew. unfold Models.Like_create.
  rewrite (foreign_key_ok "user_id"), (foreign_key_ok "post_id") by done.
  rewrite require_true by by apply bool_decide_eq_true_2.
  eexists _, _. split; [done|]. split; [apply next_pk_fresh|].
  split; [done|]. simpl.
  rewrite (foreign_key_ok "user_id"), (foreign_key_ok "post_id") by done.
  simpl. rewrite require_false; [done|].
  apply bool_decide_eq_false_2. intros Hall.
  eapply Hall; [apply lookup_insert_eq|done].
Qed.

(** ** [add_numbers] on whole numbers *)

Example add_numbers_2_3 :
  @add_numbers whole_floats
    {| method := "GET"; GET := [("n1", "2"); ("n2", "3")] |}
  = {| content := "5.0"; status_code := 200 |}.
Proof. by vm_compute. Qed.

Example add_numbers_defaults :
  @add_numbers whole_floats {| method := "GET"; GET := [] |}
    = {| content := "0.0"; status_code := 200 |} ∧
  @add_numbers whole_floats {| method := "GET"; GET := [("n2", "41")] |}
    = {| content := "41.0"; status_code := 200 |}.
Proof. split; by vm_compute. Qed.

(** A parameter that is given but is not a number, the empty string
    included, yields the error text with status 200; the last value of a
    repeated parameter is the one that counts. *)
Example add_numbers_unparsable :
  @add_numbers whole_floats
    {| method := "GET"; GET := [("n1", "abc"); ("n2", "3")] |}
    = {| content := "Error: could not convert string to float: 'abc'";
         status_code := 200 |} ∧
  @add_numbers whole_floats {| method := "GET"; GET := [("n2", "")] |}
    = {| content := "Error: could not convert string to float: ''";
         status_code := 200 |} ∧
  @add_numbers whole_floats
    {| method := "GET"; GET := [("n1", "x"); ("n1", "4")] |}
    = {| content := "4.0"; status_code := 200 |}.
Proof. split_and!; by vm_compute. Qed.

(** * Further properties of the schema *)

(** ** What the inserts check *)

Lemma foreign_key_missing {A} column (table : gmap Z A) pk :
  table !! pk = None →
  foreign_key column table pk = Err (IntegrityError (ForeignKey column)).
Proof.
  intros H. apply require_false, bool_decide_eq_false_2.
  rewrite H. by intros [? ?].
Qed.

(** X9.  A post is created exactly for an existing author: it gets a fresh key,
    the time of the insert and the hide columns at their defaults (not
    hidden, no reason, nobody, no time), and no other row changes; for a
    missing author the insert fails on the foreign key. *)
Theorem Post_create_checks (db : DB) (author : Z) (text_ : string) (now : Z) :
  (is_Some (users db !! author) →
   ∃ db' pk, Post_create db author text_ now = Ok (db', pk) ∧
     posts db !! pk = None ∧
     db' = with_posts
             (<[pk := {| Post.author := author; Post.text := text_;
                         Post.created_at := now; Post.is_hidden := false;
                         Post.hidden_reason := None; Post.hidden_by := None;
                         Post.hidden_at := None |}]> (posts db)) db) ∧
  (users db !! author = None →
   Post_create db author text_ now
     = Err (IntegrityError (ForeignKey "author_id"))).
Proof.
  unfold Post_create. split; intros Hu.
  - rewrite foreign_key_ok by done. eexists _, _.
    split; [done|]. split; [apply next_pk_fresh|done].
  - by rewrite foreign_key_missing.
Qed.

(** X10.  A comment is created exactly on an existing post by an existing
    author, under a fresh key and without touching another row; a missing
    post, the author being there, fails on [post_id], and a missing
    author, the post being there, on [author_id]. *)
Theorem Comment_create_checks (db : DB) (post author : Z) (text_ : string)
    (now : Z) :
  (is_Some (posts db !! post) → is_Some (users db !! author) →
   ∃ db' pk, Comment_create db post author text_ now = Ok (db', pk) ∧
     comments db !! pk = None ∧
     db' = with_comments
             (<[pk := {| Comment.post := post; Comment.author := author;
                         Comment.text := text_; Comment.created_at := now;
                         Comment.is_hidden := false;
                         Comment.hidden_reason := None;
                         Comment.hidden_by := None;
                         Comment.hidden_at := None |}]> (comments db)) db) ∧
  (posts db !! post = None → is_Some (users db !! author) →
   Comment_create db post author text_ now
     = Err (IntegrityError (ForeignKey "post_id"))) ∧
  (is_Some (posts db !! post) → users db !! author = None →
   Comment_create db post author text_ now
     = Err (IntegrityError (ForeignKey "author_id"))).
Proof.
  unfold Comment_create. split_and!.
  - intros Hp Hu. rewrite (foreign_key_ok "post_id") by done.
    rewrite (foreign_key_ok "author_id") by done. eexists _, _.
    split; [done|]. split; [apply next_pk_fresh|done].
  - intros Hp _. by rewrite (foreign_key_missing "post_id") by done.
  - intros Hp Hu. rewrite (foreign_key_ok "post_id") by done.
    by rewrite (foreign_key_missing "author_id") by done.
Qed.

(** X11.  What rejects a like besides a duplicate: when the user is missing,
    the object id being in range and the like new, the insert fails on
    [user_id]; for an existing user a negative object id fails the check of
    the positive column.  Neither looks at whether the target exists. *)
Theorem Like_create_errors (db : DB) (u : Z) (ct : ContentType)
    (oid now : Z) :
  (users db !! u = None → 0 ≤ oid ≤ MAX_BIGINT →
   map_Forall (λ _ l, ¬ same_like u ct oid l) (likes db) →
   Like_create db u ct oid now
     = Err (IntegrityError (ForeignKey "user_id"))) ∧
  (is_Some (users db !! u) → oid < 0 →
   Like_create db u ct oid now
     = Err (IntegrityError (NonNegative "object_id"))).
Proof.
  unfold Like_create, check_positive_big_integer. split.
  - intros Hu _ _. by rewrite foreign_key_missing.
  - intros Hu Hoid. rewrite foreign_key_ok by done. simpl.
    by rewrite (require_false (bool_decide (0 ≤ oid)))
      by (apply bool_decide_eq_false_2; lia).
Qed.

(** ** What a successful insert did *)

Lemma bind_Ok {A B} (r : Result A) (k : A → Result B) (y : B) :
  r ≫= k = Ok y → ∃ x, r = Ok x ∧ k x = Ok y.
Proof. destruct r as [x|e]; simpl; [eauto|done]. Qed.

Lemma require_Ok (b : bool) (e : Error) (x : unit) :
  require b e = Ok x → b = true.
Proof. by destruct b. Qed.

Lemma foreign_key_Ok {A} column (table : gmap Z A) pk x :
  foreign_key column table pk = Ok x → is_Some (table !! pk).
Proof. intros H%require_Ok. by apply bool_decide_eq_true in H. Qed.

Lemma check_positive_big_integer_Ok column v x :
  check_positive_big_integer column v = Ok x → 0 ≤ v ≤ MAX_BIGINT.
Proof.
  intros (? & H1%require_Ok & H2%require_Ok)%bind_Ok.
  apply bool_decide_eq_true in H1, H2. lia.
Qed.

Lemma User_create_Ok db u db' pk :
  User_create db u = Ok (db', pk) →
  db' = with_users (<[pk := u]> (users db)) db ∧
  users db !! pk = None ∧
  map_Forall (λ _ v, User.username v ≠ User.username u) (users db) ∧
  map_Forall (λ _ v, User.nickname v ≠ User.nickname u) (users db).
Proof.
  intros (? & H1%require_Ok & (? & H2%require_Ok & [= <- <-])%bind_Ok)%bind_Ok.
  apply bool_decide_eq_true in H1, H2.
  split_and!; [done|apply next_pk_fresh|done..].
Qed.

Lemma BlockReason_create_Ok db r db' pk :
  BlockReason_create db r = Ok (db', pk) →
  db' = with_block_reasons (<[pk := r]> (block_reasons db)) db ∧
  block_reasons db !! pk = None ∧
  map_Forall (λ _ v, BlockReason.code v ≠ BlockReason.code r)
             (block_reasons db).
Proof.
  intros (? & H1%require_Ok & [= <- <-])%bind_Ok.
  apply bool_decide_eq_true in H1.
  split_and!; [done|apply next_pk_fresh|done].
Qed.

Lemma Post_create_Ok db author text_ now db' pk :
  Post_create db author text_ now = Ok (db', pk) →
  is_Some (users db !! author) ∧ posts db !! pk = None ∧
  db' = with_posts
          (<[pk := {| Post.author := author; Post.text := text_;
                      Post.created_at := now; Post.is_hidden := false;
                      Post.hidden_reason := None; Post.hidden_by := None;
                      Post.hidden_at := None |}]> (posts db)) db.
Proof.
  intros (? & H1%foreign_key_Ok & [= <- <-])%bind_Ok.
  split_and!; [done|apply next_pk_fresh|done].
Qed.

Lemma Comment_create_Ok db post author text_ now db' pk :
  Comment_create db post author text_ now = Ok (db', pk) →
  is_Some (posts db !! post) ∧ is_Some (users db !! author) ∧
  comments db !! pk = None ∧
  db' = with_comments
          (<[pk := {| Comment.post := post; Comment.author := author;
                      Comment.text := text_; Comment.created_at := now;
                      Comment.is_hidden := false;
                      Comment.hidden_reason := None;
                      Comment.hidden_by := None;
                      Comment.hidden_at := None |}]> (comments db)) db.
Proof.
  intros (? & H1%foreign_key_Ok
          & (? & H2%foreign_key_Ok & [= <- <-])%bind_Ok)%bind_Ok.
  split_and!; [done|done|apply next_pk_fresh|done].
Qed.

Lemma Like_create_Ok db u ct oid now db' pk :
  Like_create db u ct oid now = Ok (db', pk) →
  is_Some (users db !! u) ∧ 0 ≤ oid ≤ MAX_BIGINT ∧
  map_Forall (λ _ l, ¬ same_like u ct oid l) (likes db) ∧
  likes db !! pk = None ∧
  db' = with_likes
          (<[pk := {| Like.user := u; Like.created_at := now;
                      Like.content_type := ct; Like.object_id := oid |}]>
             (likes db)) db.
Proof.
  intros (? & H1%foreign_key_Ok
          & (? & H2%check_positive_big_integer_Ok
             & (? & H3%require_Ok & [= <- <-])%bind_Ok)%bind_Ok)%bind_Ok.
  apply bool_decide_eq_true in H3.
  split_and!; first [done | lia | apply next_pk_fresh].
Qed.

(** A save of a media instance touches the media table only. *)
Lemma Media_save_Ok {FS : FileStorage} st db o now st' db' o' :
  Media_save st db o now = Ok (st', db', o') →
  ∃ k row, db' = with_media (<[k := row]> (media db)) db
           ∧ o' = Media.from_db k row.
Proof.
  assert (∀ o0, Media_base_save st db o0 now = Ok (st', db', o') →
          ∃ k row, db' = with_media (<[k := row]> (media db)) db
                   ∧ o' = Media.from_db k row) as Hbase.
  { intros o0. unfold Media_base_save.
    destruct (FieldFile.commit _ _ _) as [[st1 file1]|]; simpl; [|done].
    intros (? & _ & (? & _ & (? & _ & (? & _ & (? & _ & (? & _ & (? & _
            & (? & _ & (? & _ & [= <- <- <-])%bind_Ok)%bind_Ok)%bind_Ok
            )%bind_Ok)%bind_Ok)%bind_Ok)%bind_Ok)%bind_Ok)%bind_Ok.
    eauto. }
  unfold Media_save. intros (o0 & _ & H)%bind_Ok. by apply Hbase in H.
Qed.

(** ** Invariants kept by the inserts *)

(** Every row that [db] can reference is still there in [db']. *)
Definition grows (db db' : DB) : Prop :=
  (∀ k, is_Some (users db !! k) → is_Some (users db' !! k))
  ∧ (∀ k, is_Some (block_reasons db !! k) → is_Some (block_reasons db' !! k))
  ∧ (∀ k, is_Some (posts db !! k) → is_Some (posts db' !! k)).

Lemma is_Some_insert {A} (table : gmap Z A) i x k :
  is_Some (table !! k) → is_Some (<[i := x]> table !! k).
Proof.
  intros H. apply lookup_insert_is_Some.
  destruct (decide (i = k)); auto.
Qed.

Lemma ref_ok_grows {A} (table table' : gmap Z A) v :
  (∀ k, is_Some (table !! k) → is_Some (table' !! k)) →
  ref_ok table v → ref_ok table' v.
Proof. intros H. destruct v; simpl; auto. Qed.

Lemma fk_integrity_grows db db' :
  grows db db' → fk_integrity db →
  (∀ k p, posts db' !! k = Some p →
          posts db !! k = Some p ∨ Post_fk_ok db' p) →
  (∀ k c, comments db' !! k = Some c →
          comments db !! k = Some c ∨ Comment_fk_ok db' c) →
  (∀ k l, likes db' !! k = Some l →
          likes db !! k = Some l ∨ Like_fk_ok db' l) →
  fk_integrity db'.
Proof.
  intros (Hu & Hr & Hp) (Hposts & Hcomments & Hlikes) Hps Hcs Hls.
  split_and!.
  - intros k p [Hk|Hk]%Hps; [|done].
    destruct (Hposts k p Hk) as (H1 & H2 & H3).
    split_and!; [auto|by eapply ref_ok_grows..].
  - intros k c [Hk|Hk]%Hcs; [|done].
    destruct (Hcomments k c Hk) as (H1 & H2 & H3 & H4).
    split_and!; [auto|auto|by eapply ref_ok_grows..].
  - intros k l [Hk|Hk]%Hls; [|done]. apply Hu, (Hlikes k l Hk).
Qed.

(** X7.  Every insert keeps referential integrity: a database without dangling
    foreign keys has none after a user, block reason, post, comment, like
    or media row was stored. *)
Theorem inserts_keep_fk_integrity {FS : FileStorage} (db : DB) :
  fk_integrity db →
  (∀ u db' pk, User_create db u = Ok (db', pk) → fk_integrity db') ∧
  (∀ r db' pk, BlockReason_create db r = Ok (db', pk) → fk_integrity db') ∧
  (∀ author text_ now db' pk,
     Post_create db author text_ now = Ok (db', pk) → fk_integrity db') ∧
  (∀ post author text_ now db' pk,
     Comment_create db post author text_ now = Ok (db', pk) →
     fk_integrity db') ∧
  (∀ u ct oid now db' pk,
     Like_create db u ct oid now = Ok (db', pk) → fk_integrity db') ∧
  (∀ st o now st' db' o',
     Media_save st db o now = Ok (st', db', o') → fk_integrity db').
Proof.
  intros Hdb. split_and!.
  - intros u db' pk (-> & _)%User_create_Ok.
    apply (fk_integrity_grows db); [|done|auto..].
    split_and!; [|done..]. intros k. apply is_Some_insert.
  - intros r db' pk (-> & _)%BlockReason_create_Ok.
    apply (fk_integrity_grows db); [|done|auto..].
    split_and!; [done| |done]. intros k. apply is_Some_insert.
  - intros author text_ now db' pk (Hu & _ & ->)%Post_create_Ok.
    apply (fk_integrity_grows db); [|done| |auto..].
    + split_and!; [done|done|]. intros k. apply is_Some_insert.
    + intros k p Hk. simpl in Hk.
      apply lookup_insert_Some in Hk as [[_ <-]|[_ Hk]]; [|by left].
      right. by split_and!.
  - intros post author text_ now db' pk
           (Hp & Hu & _ & ->)%Comment_create_Ok.
    apply (fk_integrity_grows db); [by split_and!|done|auto| |auto].
    intros k c Hk. simpl in Hk.
    apply lookup_insert_Some in Hk as [[_ <-]|[_ Hk]]; [|by left].
    right. by split_and!.
  - intros u ct oid now db' pk (Hu & _ & _ & _ & ->)%Like_create_Ok.
    apply (fk_integrity_grows db); [by split_and!|done|auto|auto|].
    intros k l Hk. simpl in Hk.
    apply lookup_insert_Some in Hk as [[_ <-]|[_ Hk]]; [|by left].
    by right.
  - intros st o now st' db' o' (k & row & -> & _)%Media_save_Ok.
    apply (fk_integrity_grows db); [by split_and!|done|auto..].
Qed.

Lemma inserts_keep_fk_integrity_witness :
  (∀ u db' pk, User_create sample_db u = Ok (db', pk) → fk_integrity db') ∧
  (∀ r db' pk,
     BlockReason_create sample_db r = Ok (db', pk) → fk_integrity db') ∧
  (∀ author text_ now db' pk,
     Post_create sample_db author text_ now = Ok (db', pk) →
     fk_integrity db') ∧
  (∀ post author text_ now db' pk,
     Comment_create sample_db post author text_ now = Ok (db', pk) →
     fk_integrity db') ∧
  (∀ u ct oid now db' pk,
     Like_create sample_db u ct oid now = Ok (db', pk) → fk_integrity db') ∧
  (∀ st o now st' db' o',
     Media_save (FS := sample_storage) st sample_db o now
     = Ok (st', db', o') →
     fk_integrity db').
Proof.
  apply (inserts_keep_fk_integrity (FS := sample_storage) sample_db).
  apply (bool_decide_unpack _). by vm_compute.
Defined.

Lemma unique_column_insert {A B} (f : A → B) (table : gmap Z A) k a :
  unique_column f table →
  map_Forall (λ _ a', f a' ≠ f a) table →
  unique_column f (<[k := a]> table).
Proof.
  intros Hu Hnew k1 a1 H1 k2 a2 H2 Hf.
  apply lookup_insert_Some in H1 as [[<- <-]|[Hk1 H1]];
    apply lookup_insert_Some in H2 as [[<- <-]|[Hk2 H2]].
  - done.
  - by destruct (Hnew k2 a2 H2).
  - by destruct (Hnew k1 a1 H1).
  - by apply (Hu k1 a1 H1 k2 a2 H2).
Qed.

(** X8.  Every insert keeps the unique constraints: user names, nicknames and
    block reason codes stay pairwise distinct, and no user has two likes on
    one object. *)
Theorem inserts_keep_unique {FS : FileStorage} (db : DB) :
  unique_ok db →
  (∀ u db' pk, User_create db u = Ok (db', pk) → unique_ok db') ∧
  (∀ r db' pk, BlockReason_create db r = Ok (db', pk) → unique_ok db') ∧
  (∀ author text_ now db' pk,
     Post_create db author text_ now = Ok (db', pk) → unique_ok db') ∧
  (∀ post author text_ now db' pk,
     Comment_create db post author text_ now = Ok (db', pk) →
     unique_ok db') ∧
  (∀ u ct oid now db' pk,
     Like_create db u ct oid now = Ok (db', pk) → unique_ok db') ∧
  (∀ st o now st' db' o',
     Media_save st db o now = Ok (st', db', o') → unique_ok db').
Proof.
  intros (H1 & H2 & H3 & H4). split_and!.
  - intros u db' pk (-> & _ & Hname & Hnick)%User_create_Ok.
    split_and!; [by apply unique_column_insert..|done|done].
  - intros r db' pk (-> & _ & Hcode)%BlockReason_create_Ok.
    split_and!; [done|done|by apply unique_column_insert|done].
  - by intros author text_ now db' pk (_ & _ & ->)%Post_create_Ok.
  - by intros post author text_ now db' pk
              (_ & _ & _ & ->)%Comment_create_Ok.
  - intros u ct oid now db' pk (_ & _ & Hnew & _ & ->)%Like_create_Ok.
    split_and!; [done|done|done|]. apply unique_column_insert; [done|].
    intros k l Hl [= ? ? ?]. by apply (Hnew k l Hl).
  - by intros st o now st' db' o' (k & row & -> & _)%Media_save_Ok.
Qed.

Lemma inserts_keep_unique_witness :
  (∀ u db' pk, User_create sample_db u = Ok (db', pk) → unique_ok db') ∧
  (∀ r db' pk,
     BlockReason_create sample_db r = Ok (db', pk) → unique_ok db') ∧
  (∀ author text_ now db' pk,
     Post_create sample_db author text_ now = Ok (db', pk) →
     unique_ok db') ∧
  (∀ post author text_ now db' pk,
     Comment_create sample_db post author text_ now = Ok (db', pk) →
     unique_ok db') ∧
  (∀ u ct oid now db' pk,
     Like_create sample_db u ct oid now = Ok (db', pk) → unique_ok db') ∧
  (∀ st o now st' db' o',
     Media_save (FS := sample_storage) st sample_db o now
     = Ok (st', db', o') →
     unique_ok db').
Proof.
  apply (inserts_keep_unique (FS := sample_storage) sample_db).
  apply (bool_decide_unpack _). by vm_compute.
Defined.

(** ** Invariants kept by the deletions *)

(** X5.  Every deletion keeps referential integrity: after deleting a post, a
    comment, a block reason or a user from a database without dangling
    foreign keys, no foreign key dangles. *)
Theorem deletions_keep_fk_integrity (db : DB) (pk : Z) :
  fk_integrity db →
  (∃ db', Post_delete db pk = Ok db' ∧ fk_integrity db') ∧
  (∃ db', Comment_delete db pk = Ok db' ∧ fk_integrity db') ∧
  (∃ db', BlockReason_delete db pk = Ok db' ∧ fk_integrity db') ∧
  (∃ db', User_delete db pk = Ok db' ∧ fk_integrity db').
Proof.
  intros Hdb. split_and!.
  - destruct (Post_delete_invariants db pk) as (db' & Heq & H & _). eauto.
  - destruct (Comment_delete_invariants db pk) as (db' & Heq & H & _).
    eauto.
  - destruct (BlockReason_delete_invariants db pk) as (db' & Heq & H & _).
    eauto.
  - destruct (User_delete_invariants db pk) as (db' & Heq & H & _). eauto.
Qed.

Lemma deletions_keep_fk_integrity_witness :
  (∃ db', Post_delete sample_db_hidden 1 = Ok db' ∧ fk_integrity db') ∧
  (∃ db', Comment_delete sample_db_hidden 1 = Ok db' ∧ fk_integrity db') ∧
  (∃ db', BlockReason_delete sample_db_hidden 1 = Ok db'
          ∧ fk_integrity db') ∧
  (∃ db', User_delete sample_db_hidden 1 = Ok db' ∧ fk_integrity db').
Proof.
  apply (deletions_keep_fk_integrity sample_db_hidden 1).
  apply (bool_decide_unpack _). by vm_compute.
Defined.

(** X6.  No deletion orphans an attachment: if every upload and like on a post
    or comment has its target and every upload by a user its uploader,
    then the same holds after deleting a post, a comment, a block reason or
    a user. *)
Theorem deletions_leave_no_orphans (db : DB) (pk : Z) :
  no_orphans db →
  (∃ db', Post_delete db pk = Ok db' ∧ no_orphans db') ∧
  (∃ db', Comment_delete db pk = Ok db' ∧ no_orphans db') ∧
  (∃ db', BlockReason_delete db pk = Ok db' ∧ no_orphans db') ∧
  (∃ db', User_delete db pk = Ok db' ∧ no_orphans db').
Proof.
  intros Hdb. split_and!.
  - destruct (Post_delete_invariants db pk) as (db' & Heq & _ & H & _).
    eauto.
  - destruct (Comment_delete_invariants db pk) as (db' & Heq & _ & H & _).
    eauto.
  - destruct (BlockReason_delete_invariants db pk)
      as (db' & Heq & _ & H & _).
    eauto.
  - destruct (User_delete_invariants db pk) as (db' & Heq & _ & H & _).
    eauto.
Qed.

Lemma deletions_leave_no_orphans_witness :
  (∃ db', Post_delete sample_db 1 = Ok db' ∧ no_orphans db') ∧
  (∃ db', Comment_delete sample_db 1 = Ok db' ∧ no_orphans db') ∧
  (∃ db', BlockReason_delete sample_db 1 = Ok db' ∧ no_orphans db') ∧
  (∃ db', User_delete sample_db 1 = Ok db' ∧ no_orphans db').
Proof.
  apply (deletions_leave_no_orphans sample_db 1).
  apply (bool_decide_unpack _). by vm_compute.
Defined.

(** ** Further properties of [Media.save] *)

Lemma Media_save_nonzero_size_witness :
  Media.Obj.size_bytes
    (Media.Obj.set_size_bytes (Some 9) empty_upload) = Some 9 ∧
  ∃ k row,
    Media.Obj.pk (Media.from_db 1 (empty_upload_row 9)) = Some k
    ∧ media (with_media {[ 1 := empty_upload_row 9 ]} db_one_post)
        !! k = Some row
    ∧ Media.size_bytes row = 9.
Proof.
  apply (Media_save_nonzero_size (FS := sample_storage) ∅ db_one_post
           (Media.Obj.set_size_bytes (Some 9) empty_upload) 100 9
           {[ "uploads/empty.txt" := [] ]}
           (with_media {[ 1 := empty_upload_row 9 ]} db_one_post)
           (Media.from_db 1 (empty_upload_row 9))).
  - reflexivity.
  - lia.
  - by vm_compute.
Defined.

Lemma Media_save_reload_witness :
  Media_save (FS := sample_storage) ∅ sample_db (Media.from_db 2
     {| Media.file := "uploads/dog.png"; Media.size_bytes := 3;
        Media.uploaded_at := 18; Media.content_type := CT_Post;
        Media.object_id := 1; Media.uploader_content_type := CT_User;
        Media.uploader_object_id := 1 |}) 99
  = Ok (∅, sample_db, Media.from_db 2
     {| Media.file := "uploads/dog.png"; Media.size_bytes := 3;
        Media.uploaded_at := 18; Media.content_type := CT_Post;
        Media.object_id := 1; Media.uploader_content_type := CT_User;
        Media.uploader_object_id := 1 |}).
Proof.
  apply (Media_save_reload (FS := sample_storage) ∅ sample_db 2).
  - by vm_compute.
  - unfold Media_row_valid, MAX_BIGINT. simpl. lia.
  - simpl. lia.
Defined.

(** X14.  The first save of an upload that the storage takes stores what
    was uploaded: the row gets the time of the save and the number of bytes
    of the upload, its file name is the name the storage chose, the storage
    holds the upload under that name and every file it held before as it
    was, and the size of the stored file, read back, is the recorded
    [size_bytes]. *)
Theorem Media_save_upload_round_trip {FS : FileStorage} (st : Storage)
    (db : DB) (name : string) (content : list Byte.byte)
    (ct uct : ContentType) (oid uoid : Z) (now : Z)
    (wanted stored : string) :
  name ≠ "" →
  generate_filename Media.upload_to name = Ok wanted →
  get_available_name st wanted = Ok stored →
  Z.of_nat (length content) ≤ MAX_BIGINT →
  0 ≤ oid ≤ MAX_BIGINT → 0 ≤ uoid ≤ MAX_BIGINT →
  ∃ st' db' k row,
    Media_save st db (Media.Obj.new name content ct oid uct uoid) now
      = Ok (st', db', Media.from_db k row) ∧
    media db' !! k = Some row ∧
    Media.uploaded_at row = now ∧
    Media.size_bytes row = Z.of_nat (length content) ∧
    Media.file row = stored ∧
    st' !! stored = Some content ∧
    (∀ other kept, st !! other = Some kept → st' !! other = Some kept) ∧
    FieldFile.size st' (Media.Obj.file (Media.from_db k row))
      = Ok (Media.size_bytes row).
Proof.
  intros Hname Hwanted Hstored Hsize Hoid Huoid.
  pose proof (get_available_name_free _ _ _ Hstored) as Hfree.
  pose proof (get_available_name_nonempty _ _ _ Hstored) as Hne.
  eexists _, _, _, _. split; [by eapply Media_save_new|].
  split; [apply lookup_insert_eq|]. split; [done|]. split; [done|].
  split; [done|]. split; [apply lookup_insert_eq|]. split.
  - intros other kept Hother. rewrite lookup_insert_ne; [done|].
    intros <-. congruence.
  - unfold FieldFile.size, FieldFile.truthy. simpl.
    rewrite lookup_insert_eq.
    by rewrite bool_decide_eq_true_2.
Qed.

Lemma Media_save_upload_round_trip_witness :
  ∃ st' db' k row,
    Media_save (FS := sample_storage) {[ "uploads/cat.png" := [Byte.x07] ]}
      sample_db
      (Media.Obj.new "bird.png" [Byte.x00] CT_Post 2 CT_User 1) 30
      = Ok (st', db', Media.from_db k row) ∧
    media db' !! k = Some row ∧
    Media.uploaded_at row = 30 ∧
    Media.size_bytes row = Z.of_nat (length [Byte.x00]) ∧
    Media.file row = "uploads/bird.png" ∧
    st' !! "uploads/bird.png" = Some [Byte.x00] ∧
    (∀ other kept,
       ({[ "uploads/cat.png" := [Byte.x07] ]} : Storage) !! other
       = Some kept →
       st' !! other = Some kept) ∧
    FieldFile.size st' (Media.Obj.file (Media.from_db k row))
      = Ok (Media.size_bytes row).
Proof.
  apply (Media_save_upload_round_trip (FS := sample_storage)
           {[ "uploads/cat.png" := [Byte.x07] ]} sample_db "bird.png"
           [Byte.x00] CT_Post CT_User 2 1 30
           "uploads/bird.png" "uploads/bird.png").
  - done.
  - reflexivity.
  - by vm_compute.
  - unfold MAX_BIGINT. simpl. lia.
  - unfold MAX_BIGINT. lia.
  - unfold MAX_BIGINT. lia.
Defined.

(** X15.  Saves that cannot succeed: an instance without a size and without a
    file, its references being filled in, violates the NOT NULL constraint
    of [size_bytes]; an instance whose size is unset or zero and whose file
    is committed but missing from the storage fails when the size is
    read, before anything is written. *)
Theorem Media_save_failures {FS : FileStorage} (st : Storage) (db : DB)
    (o : Media.Obj.t) (now : Z) :
  (Media.Obj.size_bytes o = None →
   FieldFile.name (Media.Obj.file o) = "" →
   (∃ ct oid uct uoid,
      Media.Obj.content_type o = Some ct ∧
      Media.Obj.object_id o = Some oid ∧ 0 ≤ oid ≤ MAX_BIGINT ∧
      Media.Obj.uploader_content_type o = Some uct ∧
      Media.Obj.uploader_object_id o = Some uoid ∧
      0 ≤ uoid ≤ MAX_BIGINT) →
   Media_save st db o now
     = Err (IntegrityError (NotNull "size_bytes"))) ∧
  (size_bytes_truthy (Media.Obj.size_bytes o) = false →
   FieldFile.name (Media.Obj.file o) ≠ "" →
   FieldFile.pending (Media.Obj.file o) = None →
   st !! FieldFile.name (Media.Obj.file o) = None →
   Media_save st db o now
     = Err (FileNotFoundError (FieldFile.name (Media.Obj.file o)))).
Proof.
  split.
  - intros Hsize Hname _. unfold Media_save, FieldFile.truthy.
    rewrite Hname, Hsize. simpl.
    unfold Media_base_save, FieldFile.commit, FieldFile.truthy.
    rewrite Hname. simpl.
    destruct (FieldFile.pending _); simpl; by rewrite Hsize.
  - intros Hsize Hname Hpending Hst. unfold Media_save.
    rewrite Hsize. unfold FieldFile.size, FieldFile.truthy.
    rewrite bool_decide_eq_true_2 by done. simpl.
    by rewrite Hpending, Hst.
Qed.

(** * The first schema, [app/models.py] *)

(** ** The collector of the first schema *)

Lemma M_elem_of_data_add model pks col m k :
  k ∈ Models.data (Models.add model pks col) m
  ↔ (m = model ∧ k ∈ pks) ∨ k ∈ Models.data col m.
Proof.
  simpl. case_decide; [rewrite elem_of_union|]; intuition congruence.
Qed.

Lemma M_data_add_field_update field pks col :
  Models.data (Models.add_field_update field pks col) = Models.data col.
Proof. done. Qed.

Lemma M_elem_of_data_empty m k :
  k ∈ Models.data Models.empty_collector m ↔ False.
Proof. simpl. apply elem_of_empty. Qed.

Lemma M_field_updates_add model pks col :
  Models.field_updates (Models.add model pks col)
  = Models.field_updates col.
Proof. done. Qed.

Lemma M_elem_of_field_updates_add_field_update field pks col f k :
  k ∈ Models.field_updates (Models.add_field_update field pks col) f
  ↔ (f = field ∧ k ∈ pks) ∨ k ∈ Models.field_updates col f.
Proof.
  simpl. case_decide; [rewrite elem_of_union|]; intuition congruence.
Qed.

Lemma M_elem_of_field_updates_empty f k :
  k ∈ Models.field_updates Models.empty_collector f ↔ False.
Proof. simpl. apply elem_of_empty. Qed.

Ltac M_collected_data :=
  repeat first [ rewrite M_data_add_field_update
               | rewrite M_elem_of_data_add
               | rewrite M_elem_of_data_empty ].

Ltac M_collected_updates :=
  repeat first [ rewrite M_field_updates_add
               | rewrite M_elem_of_field_updates_add_field_update
               | rewrite M_elem_of_field_updates_empty ].

(** A row of a table whose rows are updated and then filtered. *)
Lemma lookup_remaining_imap {A} (pks : gset Z) (f : Z → A → A)
    (table : gmap Z A) (k : Z) :
  remaining pks (map_imap (λ k x, Some (f k x)) table) !! k =
    if decide (k ∈ pks) then None else f k <$> table !! k.
Proof.
  case_decide as Hk.
  - by apply lookup_remaining_None.
  - apply option_eq. intros x.
    rewrite lookup_remaining_Some, map_lookup_imap.
    destruct (table !! k); simpl; intuition congruence.
Qed.

(** ** Deleting a user *)

Section M_User_delete.
Variables (db : Models.DB) (u : Z).

(** The collector a user's deletion ends with: the user's likes go, the
    user's posts, comments and uploads are scheduled for an update. *)
Let col : Models.Collector :=
  Models.add CT_Like
    (related (λ l, Models.Like.user l ∈ ({[u]} : gset Z)) (Models.likes db))
  (Models.add_field_update Models.Media_uploaded_by
    (related (λ m, points_at (Models.Media.uploaded_by m) {[u]})
             (Models.media db))
  (Models.add_field_update Models.Comment_author
    (related (λ c, points_at (Models.Comment.author c) {[u]})
             (Models.comments db))
  (Models.add_field_update Models.Post_author
    (related (λ p, points_at (Models.Post.author p) {[u]})
             (Models.posts db))
  (Models.add CT_User {[u]} Models.empty_collector)))).

Lemma M_User_delete_eq :
  Models.User_delete db u = Ok (Models.Collector_delete db col).
Proof. done. Qed.

Lemma M_User_delete_data m k :
  k ∈ Models.data col m ↔
  (m = CT_User ∧ k = u)
  ∨ (m = CT_Like ∧ ∃ l, Models.likes db !! k = Some l
                        ∧ Models.Like.user l = u).
Proof.
  unfold col. M_collected_data. rewrite elem_of_related.
  setoid_rewrite elem_of_singleton. tauto.
Qed.

Lemma M_User_delete_updates f k :
  k ∈ Models.field_updates col f ↔
  (f = Models.Post_author
   ∧ ∃ p, Models.posts db !! k = Some p ∧ Models.Post.author p = Some u)
  ∨ (f = Models.Comment_author
     ∧ ∃ c, Models.comments db !! k = Some c
            ∧ Models.Comment.author c = Some u)
  ∨ (f = Models.Media_uploaded_by
     ∧ ∃ m, Models.media db !! k = Some m
            ∧ Models.Media.uploaded_by m = Some u).
Proof.
  unfold col. M_collected_updates. rewrite !elem_of_related.
  setoid_rewrite points_at_singleton. tauto.
Qed.

Lemma M_User_delete_update_Post k p :
  Models.posts db !! k = Some p →
  Models.update_Post col k p =
    if decide (Models.Post.author p = Some u)
    then Models.Post.set_author None p else p.
Proof.
  intros Hk. unfold Models.update_Post.
  rewrite (decide_False (P := k ∈ _ Models.Post_hidden_reason)).
  2: { rewrite M_User_delete_updates.
       intros [[? _]|[[? _]|[? _]]]; discriminate. }
  case_decide as Hin; case_decide as Hu; try done.
  - apply M_User_delete_updates in Hin
      as [[_ (p0 & Hp0 & Hin)]|[[? _]|[? _]]]; try discriminate.
    congruence.
  - exfalso. apply Hin, M_User_delete_updates. left. eauto.
Qed.

Lemma M_User_delete_update_Comment k c :
  Models.comments db !! k = Some c →
  Models.update_Comment col k c =
    if decide (Models.Comment.author c = Some u)
    then Models.Comment.set_author None c else c.
Proof.
  intros Hk. unfold Models.update_Comment.
  rewrite (decide_False (P := k ∈ _ Models.Comment_hidden_reason)).
  2: { rewrite M_User_delete_updates.
       intros [[? _]|[[? _]|[? _]]]; discriminate. }
  case_decide as Hin; case_decide as Hu; try done.
  - apply M_User_delete_updates in Hin
      as [[? _]|[[_ (c0 & Hc0 & Hin)]|[? _]]]; try discriminate.
    congruence.
  - exfalso. apply Hin, M_User_delete_updates. right. left. eauto.
Qed.

Lemma M_User_delete_update_Media k m :
  Models.media db !! k = Some m →
  Models.update_Media col k m =
    if decide (Models.Media.uploaded_by m = Some u)
    then Models.Media.set_uploaded_by None m else m.
Proof.
  intros Hk. unfold Models.update_Media.
  rewrite (decide_False (P := k ∈ _ Models.Media_post)).
  2: { rewrite M_User_delete_updates.
       intros [[? _]|[[? _]|[? _]]]; discriminate. }
  rewrite (decide_False (P := k ∈ _ Models.Media_comment)).
  2: { rewrite M_User_delete_updates.
       intros [[? _]|[[? _]|[? _]]]; discriminate. }
  case_decide as Hin; case_decide as Hu; try done.
  - apply M_User_delete_updates in Hin
      as [[? _]|[[? _]|[_ (m0 & Hm0 & Hin)]]]; try discriminate.
    congruence.
  - exfalso. apply Hin, M_User_delete_updates. right. right. eauto.
Qed.

Lemma M_User_delete_none m :
  m ≠ CT_User → m ≠ CT_Like → ∀ k, k ∉ Models.data col m.
Proof. intros H1 H2 k [[? _]|[? _]]%M_User_delete_data; done. Qed.

Lemma M_User_delete_users :
  Models.users (Models.Collector_delete db col) = delete u (Models.users db).
Proof.
  apply map_eq. intros k. apply option_eq. intros v.
  change (Models.users (Models.Collector_delete db col))
    with (remaining (Models.data col CT_User) (Models.users db)).
  rewrite lookup_remaining_Some, M_User_delete_data, lookup_delete_Some.
  split.
  - intros [Hv Hk]. split; [|done]. intros ->. apply Hk. by left.
  - intros [Hk Hv]. split; [done|].
    intros [[_ ->]|[? _]]; [done|discriminate].
Qed.

Lemma M_User_delete_block_reasons :
  Models.block_reasons (Models.Collector_delete db col)
  = Models.block_reasons db.
Proof. by apply remaining_none, M_User_delete_none. Qed.

Lemma M_User_delete_posts :
  Models.posts (Models.Collector_delete db col) =
    (λ p, if decide (Models.Post.author p = Some u)
          then Models.Post.set_author None p else p)
    <$> Models.posts db.
Proof.
  apply map_eq. intros k.
  change (Models.posts (Models.Collector_delete db col) !! k)
    with (remaining (Models.data col CT_Post)
            (map_imap (λ k p, Some (Models.update_Post col k p))
                      (Models.posts db)) !! k).
  rewrite lookup_remaining_imap, lookup_fmap.
  rewrite decide_False by by apply M_User_delete_none.
  destruct (Models.posts db !! k) as [p|] eqn:Hp; [|done]. simpl.
  by rewrite M_User_delete_update_Post.
Qed.

Lemma M_User_delete_comments :
  Models.comments (Models.Collector_delete db col) =
    (λ c, if decide (Models.Comment.author c = Some u)
          then Models.Comment.set_author None c else c)
    <$> Models.comments db.
Proof.
  apply map_eq. intros k.
  change (Models.comments (Models.Collector_delete db col) !! k)
    with (remaining (Models.data col CT_Comment)
            (map_imap (λ k c, Some (Models.update_Comment col k c))
                      (Models.comments db)) !! k).
  rewrite lookup_remaining_imap, lookup_fmap.
  rewrite decide_False by by apply M_User_delete_none.
  destruct (Models.comments db !! k) as [c|] eqn:Hc; [|done]. simpl.
  by rewrite M_User_delete_update_Comment.
Qed.

Lemma M_User_delete_media :
  Models.media (Models.Collector_delete db col) =
    (λ m, if decide (Models.Media.uploaded_by m = Some u)
          then Models.Media.set_uploaded_by None m else m)
    <$> Models.media db.
Proof.
  apply map_eq. intros k.
  change (Models.media (Models.Collector_delete db col) !! k)
    with (remaining (Models.data col CT_Media)
            (map_imap (λ k m, Some (Models.update_Media col k m))
                      (Models.media db)) !! k).
  rewrite lookup_remaining_imap, lookup_fmap.
  rewrite decide_False by by apply M_User_delete_none.
  destruct (Models.media db !! k) as [m|] eqn:Hm; [|done]. simpl.
  by rewrite M_User_delete_update_Media.
Qed.

Lemma M_User_delete_likes k l :
  Models.likes (Models.Collector_delete db col) !! k = Some l ↔
  Models.likes db !! k = Some l ∧ Models.Like.user l ≠ u.
Proof.
  change (Models.likes (Models.Collector_delete db col))
    with (remaining (Models.data col CT_Like) (Models.likes db)).
  rewrite lookup_remaining_Some, M_User_delete_data. split.
  - intros [Hl Hk]. split; [done|]. intros Hu. apply Hk. right. eauto.
  - intros [Hl Hu]. split; [done|].
    intros [[? _]|[_ (l0 & Hl0 & Hu0)]]; [discriminate|congruence].
Qed.

(** X16.  Under the first schema deleting a user deletes the user and the user's
    likes and nothing else: every post, comment and upload stays under its
    key, with the author or uploader reset to null where it was the user
    and all other columns unchanged. *)
Theorem M_User_delete_keeps_content :
  ∃ db', Models.User_delete db u = Ok db' ∧
    Models.users db' = delete u (Models.users db) ∧
    Models.block_reasons db' = Models.block_reasons db ∧
    Models.posts db' =
      (λ p, if decide (Models.Post.author p = Some u)
            then Models.Post.set_author None p else p)
      <$> Models.posts db ∧
    Models.comments db' =
      (λ c, if decide (Models.Comment.author c = Some u)
            then Models.Comment.set_author None c else c)
      <$> Models.comments db ∧
    Models.media db' =
      (λ m, if decide (Models.Media.uploaded_by m = Some u)
            then Models.Media.set_uploaded_by None m else m)
      <$> Models.media db ∧
    (∀ k l, Models.likes db' !! k = Some l ↔
            Models.likes db !! k = Some l ∧ Models.Like.user l ≠ u).
Proof.
  exists (Models.Collector_delete db col). split; [apply M_User_delete_eq|].
  split_and!.
  - apply M_User_delete_users.
  - apply M_User_delete_block_reasons.
  - apply M_User_delete_posts.
  - apply M_User_delete_comments.
  - apply M_User_delete_media.
  - apply M_User_delete_likes.
Qed.

(** A reference that is reset where it named [u] names a row of the table
    without [u]. *)
Lemma ref_ok_reset {A} (table : gmap Z A) (v : option Z) :
  ref_ok table v →
  ref_ok (delete u table) (if decide (v = Some u) then None else v).
Proof.
  intros Hv. case_decide as Hu; [done|]. destruct v as [k|]; [|done].
  simpl in *. destruct Hv as [x Hx]. exists x.
  apply lookup_delete_Some. split; [congruence|done].
Qed.

Lemma M_User_delete_author_str (v : option Z) :
  v ≠ Some u →
  Models.author_str (Models.Collector_delete db col) v
  = Models.author_str db v.
Proof.
  intros Hv. destruct v as [a|]; [|done]. unfold Models.author_str.
  rewrite M_User_delete_users, lookup_delete_ne; [done|congruence].
Qed.

(** [str_prefix n s] cuts [s] between two characters, after the first [n]
    of them. *)
Lemma str_prefix_spec (n : nat) (s : string) :
  ∃ rest, s = Models.str_prefix n s +:+ rest ∧
    Models.str_len (Models.str_prefix n s) = (n `min` Models.str_len s)%nat ∧
    match rest with
    | EmptyString => True
    | String c _ => Models.continuation_byte c = false
    end.
Proof.
  revert n. induction s as [|c s IH]; intros n; simpl.
  - exists "". split_and!; [done|lia|done].
  - destruct (Models.continuation_byte c) eqn:Hc.
    + destruct (IH n) as (rest & Hs & Hlen & Hrest). exists rest.
      simpl. rewrite Hc. split_and!; [by rewrite Hs at 1|done|done].
    + destruct n as [|n].
      * exists (String c s). by split_and!.
      * destruct (IH n) as (rest & Hs & Hlen & Hrest). exists rest.
        simpl. rewrite Hc. split_and!; [by rewrite Hs at 1|lia|done].
Qed.

(** X17.  After a user was deleted under the first schema, the user's posts
    and comments show [None] for their author: a post prints as [None: ]
    and the first 50 characters of its content (all of it when it has
    fewer), a comment as [Comment by None on ] and the key of its post.
    Every other post and comment prints as before. *)
Theorem M_User_delete_display :
  ∃ db', Models.User_delete db u = Ok db' ∧
    (∀ k p, Models.posts db !! k = Some p →
       ∃ p', Models.posts db' !! k = Some p' ∧
         if decide (Models.Post.author p = Some u)
         then ∃ shown rest,
           Models.Post.content p = shown +:+ rest ∧
           Models.str_len shown
             = (50 `min` Models.str_len (Models.Post.content p))%nat ∧
           match rest with
           | EmptyString => True
           | String c _ => Models.continuation_byte c = false
           end ∧
           Models.Post_str db' p' = Some ("None: " +:+ shown)
         else Models.Post_str db' p' = Models.Post_str db p) ∧
    (∀ k c, Models.comments db !! k = Some c →
       ∃ c', Models.comments db' !! k = Some c' ∧
         Models.Comment_str db' c' =
           if decide (Models.Comment.author c = Some u)
           then Some ("Comment by None on "
                      +:+ pretty (Models.Comment.post c))
           else Models.Comment_str db c).
Proof.
  exists (Models.Collector_delete db col). split; [apply M_User_delete_eq|].
  split.
  - intros k p Hp.
    exists (if decide (Models.Post.author p = Some u)
            then Models.Post.set_author None p else p).
    split.
    { by rewrite M_User_delete_posts, lookup_fmap, Hp. }
    unfold Models.Post_str. case_decide as Hu.
    + destruct (str_prefix_spec 50 (Models.Post.content p))
        as (rest & Hs & Hlen & Hrest).
      by exists (Models.str_prefix 50 (Models.Post.content p)), rest.
    + by rewrite M_User_delete_author_str.
  - intros k c Hc.
    exists (if decide (Models.Comment.author c = Some u)
            then Models.Comment.set_author None c else c).
    split.
    { by rewrite M_User_delete_comments, lookup_fmap, Hc. }
    unfold Models.Comment_str. case_decide as Hu; [done|].
    by rewrite M_User_delete_author_str.
Qed.

Lemma M_User_delete_fk_integrity :
  M_fk_integrity db → M_fk_integrity (Models.Collector_delete db col).
Proof.
  intros (Hposts & Hcomments & Hmedia & Hlikes).
  unfold M_fk_integrity, M_Post_fk_ok, M_Comment_fk_ok, M_Media_fk_ok,
    M_Like_fk_ok.
  rewrite M_User_delete_users, M_User_delete_block_reasons,
          M_User_delete_posts, M_User_delete_comments, M_User_delete_media.
  split_and!.
  - intros k p' (p & <- & Hp)%lookup_fmap_Some.
    destruct (Hposts k p Hp) as [H1 H2]. split.
    + replace (Models.Post.author _)
        with (if decide (Models.Post.author p = Some u) then None
              else Models.Post.author p) by by case_decide.
      by apply ref_ok_reset.
    + by case_decide.
  - intros k c' (c & <- & Hc)%lookup_fmap_Some.
    destruct (Hcomments k c Hc) as (H1 & H2 & H3). split_and!.
    + rewrite lookup_fmap.
      replace (Models.Comment.post _) with (Models.Comment.post c)
        by by case_decide.
      by apply fmap_is_Some.
    + replace (Models.Comment.author _)
        with (if decide (Models.Comment.author c = Some u) then None
              else Models.Comment.author c) by by case_decide.
      by apply ref_ok_reset.
    + by case_decide.
  - intros k m' (m & <- & Hm)%lookup_fmap_Some.
    destruct (Hmedia k m Hm) as (H1 & H2 & H3). split_and!.
    + replace (Models.Media.uploaded_by _)
        with (if decide (Models.Media.uploaded_by m = Some u) then None
              else Models.Media.uploaded_by m) by by case_decide.
      by apply ref_ok_reset.
    + replace (Models.Media.post _) with (Models.Media.post m)
        by by case_decide.
      destruct (Models.Media.post m); [|done]. simpl in *.
      rewrite lookup_fmap. by apply fmap_is_Some.
    + replace (Models.Media.comment _) with (Models.Media.comment m)
        by by case_decide.
      destruct (Models.Media.comment m); [|done]. simpl in *.
      rewrite lookup_fmap. by apply fmap_is_Some.
  - intros k l [Hl Hu]%M_User_delete_likes.
    destruct (Hlikes k l Hl) as [[x Hx] H2]. split.
    + exists x. by apply lookup_delete_Some.
    + rewrite lookup_fmap. by apply fmap_is_Some.
Qed.

End M_User_delete.

(** ** Deleting a post *)

Section M_Post_delete.
Variables (db : Models.DB) (pk : Z).

(** The comments on the post. *)
Let cs : gset Z :=
  related (λ c, Models.Comment.post c ∈ ({[pk]} : gset Z))
          (Models.comments db).

(** The collector a post's deletion ends with. *)
Let col : Models.Collector :=
  Models.add CT_Like
    (related (λ l, Models.Like.post l ∈ ({[pk]} : gset Z)) (Models.likes db))
  (Models.add CT_Media
    (related (λ m, points_at (Models.Media.post m) {[pk]}) (Models.media db))
  (Models.add CT_Media
    (related (λ m, points_at (Models.Media.comment m) cs) (Models.media db))
  (Models.add CT_Comment cs
  (Models.add CT_Post {[pk]} Models.empty_collector)))).

Lemma M_Post_delete_eq :
  Models.Post_delete db pk = Ok (Models.Collector_delete db col).
Proof. done. Qed.

Lemma M_Post_delete_cs k :
  k ∈ cs ↔
  ∃ c, Models.comments db !! k = Some c ∧ Models.Comment.post c = pk.
Proof.
  unfold cs. rewrite elem_of_related. by setoid_rewrite elem_of_singleton.
Qed.

Lemma M_points_at_cs (v : option Z) :
  points_at v cs ↔
  ∃ c cr, v = Some c ∧ Models.comments db !! c = Some cr
          ∧ Models.Comment.post cr = pk.
Proof.
  destruct v as [c|]; simpl.
  - rewrite M_Post_delete_cs. split.
    + intros (cr & Hc & Hp). eauto.
    + intros (c0 & cr & [= <-] & Hc & Hp). eauto.
  - split; [done|]. by intros (c & cr & ? & _).
Qed.

Lemma M_Post_delete_data m k :
  k ∈ Models.data col m ↔
  (m = CT_Post ∧ k = pk)
  ∨ (m = CT_Comment
     ∧ ∃ c, Models.comments db !! k = Some c ∧ Models.Comment.post c = pk)
  ∨ (m = CT_Media
     ∧ ∃ x, Models.media db !! k = Some x
            ∧ (Models.Media.post x = Some pk
               ∨ ∃ c cr, Models.Media.comment x = Some c
                         ∧ Models.comments db !! c = Some cr
                         ∧ Models.Comment.post cr = pk))
  ∨ (m = CT_Like
     ∧ ∃ l, Models.likes db !! k = Some l ∧ Models.Like.post l = pk).
Proof.
  unfold col. M_collected_data. rewrite M_Post_delete_cs.
  rewrite !elem_of_related. setoid_rewrite M_points_at_cs.
  setoid_rewrite points_at_singleton. setoid_rewrite elem_of_singleton.
  split.
  - intros [[-> H]|[[-> (x & Hx & H)]|[[-> (x & Hx & H)]|[[-> H]
            |[[-> H]|[]]]]]]; eauto 10.
  - intros [[-> H]|[[-> H]|[[-> (x & Hx & [H|H])]|[-> H]]]]; eauto 10.
Qed.

Lemma M_Post_delete_no_update f : Models.field_updates col f = ∅.
Proof. done. Qed.

Lemma M_Post_delete_update_Post k (p : Models.Post.t) :
  Models.update_Post col k p = p.
Proof.
  unfold Models.update_Post. rewrite !M_Post_delete_no_update.
  by rewrite !decide_False by apply not_elem_of_empty.
Qed.

Lemma M_Post_delete_update_Comment k (c : Models.Comment.t) :
  Models.update_Comment col k c = c.
Proof.
  unfold Models.update_Comment. rewrite !M_Post_delete_no_update.
  by rewrite !decide_False by apply not_elem_of_empty.
Qed.

Lemma M_Post_delete_update_Media k (m : Models.Media.t) :
  Models.update_Media col k m = m.
Proof.
  unfold Models.update_Media. rewrite !M_Post_delete_no_update.
  by rewrite !decide_False by apply not_elem_of_empty.
Qed.

Lemma M_Post_delete_users :
  Models.users (Models.Collector_delete db col) = Models.users db.
Proof.
  apply remaining_none. intros k. rewrite M_Post_delete_data.
  intros [[? _]|[[? _]|[[? _]|[? _]]]]; discriminate.
Qed.

Lemma M_Post_delete_block_reasons :
  Models.block_reasons (Models.Collector_delete db col)
  = Models.block_reasons db.
Proof.
  apply remaining_none. intros k. rewrite M_Post_delete_data.
  intros [[? _]|[[? _]|[[? _]|[? _]]]]; discriminate.
Qed.

Lemma M_Post_delete_posts :
  Models.posts (Models.Collector_delete db col) = delete pk (Models.posts db).
Proof.
  apply map_eq. intros k.
  change (Models.posts (Models.Collector_delete db col) !! k)
    with (remaining (Models.data col CT_Post)
            (map_imap (λ k p, Some (Models.update_Post col k p))
                      (Models.posts db)) !! k).
  rewrite lookup_remaining_imap. case_decide as Hk.
  - apply M_Post_delete_data in Hk
      as [[_ ->]|[[? _]|[[? _]|[? _]]]]; try discriminate.
    by rewrite lookup_delete_eq.
  - rewrite lookup_delete_ne.
    + destruct (Models.posts db !! k); simpl;
        [by rewrite M_Post_delete_update_Post|done].
    + intros <-. apply Hk, M_Post_delete_data. by left.
Qed.

Lemma M_Post_delete_comments k c :
  Models.comments (Models.Collector_delete db col) !! k = Some c ↔
  Models.comments db !! k = Some c ∧ Models.Comment.post c ≠ pk.
Proof.
  change (Models.comments (Models.Collector_delete db col) !! k)
    with (remaining (Models.data col CT_Comment)
            (map_imap (λ k c, Some (Models.update_Comment col k c))
                      (Models.comments db)) !! k).
  rewrite lookup_remaining_imap. case_decide as Hk.
  - apply M_Post_delete_data in Hk
      as [[? _]|[[_ (c0 & Hc0 & Hp)]|[[? _]|[? _]]]]; try discriminate.
    split; [done|]. intros [Hc Hne]. congruence.
  - destruct (Models.comments db !! k) as [c0|] eqn:Hc0; simpl.
    + rewrite M_Post_delete_update_Comment. split.
      * intros [= <-]. split; [done|]. intros Hp.
        apply Hk, M_Post_delete_data. right. left. eauto.
      * by intros [? _].
    + split; [done|]. by intros [? _].
Qed.

Lemma M_Post_delete_media k m :
  Models.media (Models.Collector_delete db col) !! k = Some m ↔
  Models.media db !! k = Some m ∧ Models.Media.post m ≠ Some pk ∧
  ¬ ∃ c cr, Models.Media.comment m = Some c
            ∧ Models.comments db !! c = Some cr
            ∧ Models.Comment.post cr = pk.
Proof.
  change (Models.media (Models.Collector_delete db col) !! k)
    with (remaining (Models.data col CT_Media)
            (map_imap (λ k m, Some (Models.update_Media col k m))
                      (Models.media db)) !! k).
  rewrite lookup_remaining_imap. case_decide as Hk.
  - apply M_Post_delete_data in Hk
      as [[? _]|[[? _]|[[_ (x & Hx & H)]|[? _]]]]; try discriminate.
    split; [done|]. intros (Hm & H1 & H2).
    assert (x = m) as -> by congruence. tauto.
  - destruct (Models.media db !! k) as [x|] eqn:Hx; simpl.
    + rewrite M_Post_delete_update_Media. split.
      * intros [= <-]. split_and!; [done|..]; intros H;
          apply Hk, M_Post_delete_data; right; right; left; eauto.
      * by intros [? _].
    + split; [done|]. by intros [? _].
Qed.

Lemma M_Post_delete_likes k l :
  Models.likes (Models.Collector_delete db col) !! k = Some l ↔
  Models.likes db !! k = Some l ∧ Models.Like.post l ≠ pk.
Proof.
  change (Models.likes (Models.Collector_delete db col))
    with (remaining (Models.data col CT_Like) (Models.likes db)).
  rewrite lookup_remaining_Some, M_Post_delete_data. split.
  - intros [Hl Hk]. split; [done|]. intros Hp. apply Hk.
    do 3 right. eauto.
  - intros [Hl Hp]. split; [done|].
    intros [[? _]|[[? _]|[[? _]|[_ (l0 & Hl0 & Hp0)]]]];
      try discriminate.
    congruence.
Qed.

(** X18.  Under the first schema deleting a post deletes the post, the comments
    on it, the uploads that hang on it or on one of those comments and the
    likes on it, and nothing else: users and block reasons are untouched
    and every remaining row is unchanged. *)
Theorem M_Post_delete_cascades :
  ∃ db', Models.Post_delete db pk = Ok db' ∧
    Models.users db' = Models.users db ∧
    Models.block_reasons db' = Models.block_reasons db ∧
    Models.posts db' = delete pk (Models.posts db) ∧
    (∀ k c, Models.comments db' !! k = Some c ↔
       Models.comments db !! k = Some c ∧ Models.Comment.post c ≠ pk) ∧
    (∀ k m, Models.media db' !! k = Some m ↔
       Models.media db !! k = Some m ∧ Models.Media.post m ≠ Some pk ∧
       ¬ ∃ c cr, Models.Media.comment m = Some c
                 ∧ Models.comments db !! c = Some cr
                 ∧ Models.Comment.post cr = pk) ∧
    (∀ k l, Models.likes db' !! k = Some l ↔
       Models.likes db !! k = Some l ∧ Models.Like.post l ≠ pk).
Proof.
  exists (Models.Collector_delete db col). split; [apply M_Post_delete_eq|].
  split_and!.
  - apply M_Post_delete_users.
  - apply M_Post_delete_block_reasons.
  - apply M_Post_delete_posts.
  - apply M_Post_delete_comments.
  - apply M_Post_delete_media.
  - apply M_Post_delete_likes.
Qed.

Lemma M_Post_delete_fk_integrity :
  M_fk_integrity db → M_fk_integrity (Models.Collector_delete db col).
Proof.
  intros (Hposts & Hcomments & Hmedia & Hlikes).
  unfold M_fk_integrity, M_Post_fk_ok, M_Comment_fk_ok, M_Media_fk_ok,
    M_Like_fk_ok.
  rewrite M_Post_delete_users, M_Post_delete_block_reasons,
          M_Post_delete_posts.
  split_and!.
  - intros k p [_ Hp]%lookup_delete_Some. apply (Hposts k p Hp).
  - intros k c [Hc Hne]%M_Post_delete_comments.
    destruct (Hcomments k c Hc) as ([x Hx] & H2 & H3). split_and!; try done.
    exists x. by apply lookup_delete_Some.
  - intros k m (Hm & Hne & Hnc)%M_Post_delete_media.
    destruct (Hmedia k m Hm) as (H1 & H2 & H3). split_and!; [done|..].
    + destruct (Models.Media.post m) as [q|]; [|done]. simpl in *.
      destruct H2 as [x Hx]. exists x. apply lookup_delete_Some.
      split; [congruence|done].
    + destruct (Models.Media.comment m) as [c|]; [|done]. simpl in *.
      destruct H3 as [cr Hcr]. exists cr. apply M_Post_delete_comments.
      split; [done|]. intros Hp. apply Hnc. eauto.
  - intros k l [Hl Hne]%M_Post_delete_likes.
    destruct (Hlikes k l Hl) as [H1 [x Hx]]. split; [done|].
    exists x. by apply lookup_delete_Some.
Qed.

End M_Post_delete.

(** ** Deleting a comment *)

Section M_Comment_delete.
Variables (db : Models.DB) (pk : Z).

Let col : Models.Collector :=
  Models.add CT_Media
    (related (λ m, points_at (Models.Media.comment m) {[pk]})
             (Models.media db))
  (Models.add CT_Comment {[pk]} Models.empty_collector).

Lemma M_Comment_delete_eq :
  Models.Comment_delete db pk = Ok (Models.Collector_delete db col).
Proof. done. Qed.

Lemma M_Comment_delete_data m k :
  k ∈ Models.data col m ↔
  (m = CT_Comment ∧ k = pk)
  ∨ (m = CT_Media
     ∧ ∃ x, Models.media db !! k = Some x
            ∧ Models.Media.comment x = Some pk).
Proof.
  unfold col. M_collected_data. rewrite elem_of_related.
  setoid_rewrite points_at_singleton. rewrite elem_of_singleton. tauto.
Qed.

Lemma M_Comment_delete_none m :
  m ≠ CT_Comment → m ≠ CT_Media → ∀ k, k ∉ Models.data col m.
Proof. intros H1 H2 k [[? _]|[? _]]%M_Comment_delete_data; done. Qed.

Lemma M_Comment_delete_update_Comment k (c : Models.Comment.t) :
  Models.update_Comment col k c = c.
Proof.
  unfold Models.update_Comment.
  by rewrite !decide_False by apply not_elem_of_empty.
Qed.

Lemma M_Comment_delete_update_Media k (m : Models.Media.t) :
  Models.update_Media col k m = m.
Proof.
  unfold Models.update_Media.
  by rewrite !decide_False by apply not_elem_of_empty.
Qed.

Lemma M_Comment_delete_update_Post k (p : Models.Post.t) :
  Models.update_Post col k p = p.
Proof.
  unfold Models.update_Post.
  by rewrite !decide_False by apply not_elem_of_empty.
Qed.

Lemma M_Comment_delete_users :
  Models.users (Models.Collector_delete db col) = Models.users db.
Proof. by apply remaining_none, M_Comment_delete_none. Qed.

Lemma M_Comment_delete_block_reasons :
  Models.block_reasons (Models.Collector_delete db col)
  = Models.block_reasons db.
Proof. by apply remaining_none, M_Comment_delete_none. Qed.

Lemma M_Comment_delete_likes :
  Models.likes (Models.Collector_delete db col) = Models.likes db.
Proof. by apply remaining_none, M_Comment_delete_none. Qed.

Lemma M_Comment_delete_posts :
  Models.posts (Models.Collector_delete db col) = Models.posts db.
Proof.
  apply map_eq. intros k.
  change (Models.posts (Models.Collector_delete db col) !! k)
    with (remaining (Models.data col CT_Post)
            (map_imap (λ k p, Some (Models.update_Post col k p))
                      (Models.posts db)) !! k).
  rewrite lookup_remaining_imap.
  rewrite decide_False by by apply M_Comment_delete_none.
  destruct (Models.posts db !! k); simpl;
    [by rewrite M_Comment_delete_update_Post|done].
Qed.

Lemma M_Comment_delete_comments :
  Models.comments (Models.Collector_delete db col)
  = delete pk (Models.comments db).
Proof.
  apply map_eq. intros k.
  change (Models.comments (Models.Collector_delete db col) !! k)
    with (remaining (Models.data col CT_Comment)
            (map_imap (λ k c, Some (Models.update_Comment col k c))
                      (Models.comments db)) !! k).
  rewrite lookup_remaining_imap. case_decide as Hk.
  - apply M_Comment_delete_data in Hk as [[_ ->]|[? _]]; [|discriminate].
    by rewrite lookup_delete_eq.
  - rewrite lookup_delete_ne.
    + destruct (Models.comments db !! k); simpl;
        [by rewrite M_Comment_delete_update_Comment|done].
    + intros <-. apply Hk, M_Comment_delete_data. by left.
Qed.

Lemma M_Comment_delete_media k m :
  Models.media (Models.Collector_delete db col) !! k = Some m ↔
  Models.media db !! k = Some m ∧ Models.Media.comment m ≠ Some pk.
Proof.
  change (Models.media (Models.Collector_delete db col) !! k)
    with (remaining (Models.data col CT_Media)
            (map_imap (λ k m, Some (Models.update_Media col k m))
                      (Models.media db)) !! k).
  rewrite lookup_remaining_imap. case_decide as Hk.
  - apply M_Comment_delete_data in Hk as [[? _]|[_ (x & Hx & H)]];
      [discriminate|].
    split; [done|]. intros [Hm Hne]. congruence.
  - destruct (Models.media db !! k) as [x|] eqn:Hx; simpl.
    + rewrite M_Comment_delete_update_Media. split.
      * intros [= <-]. split; [done|]. intros H.
        apply Hk, M_Comment_delete_data. right. eauto.
      * by intros [? _].
    + split; [done|]. by intros [? _].
Qed.

(** X19.  Under the first schema deleting a comment deletes the comment and the
    uploads that hang on it, and nothing else; likes bear on posts only and
    all stay. *)
Theorem M_Comment_delete_cascades :
  ∃ db', Models.Comment_delete db pk = Ok db' ∧
    Models.users db' = Models.users db ∧
    Models.block_reasons db' = Models.block_reasons db ∧
    Models.posts db' = Models.posts db ∧
    Models.comments db' = delete pk (Models.comments db) ∧
    (∀ k m, Models.media db' !! k = Some m ↔
       Models.media db !! k = Some m ∧ Models.Media.comment m ≠ Some pk) ∧
    Models.likes db' = Models.likes db.
Proof.
  exists (Models.Collector_delete db col).
  split; [apply M_Comment_delete_eq|]. split_and!.
  - apply M_Comment_delete_users.
  - apply M_Comment_delete_block_reasons.
  - apply M_Comment_delete_posts.
  - apply M_Comment_delete_comments.
  - apply M_Comment_delete_media.
  - apply M_Comment_delete_likes.
Qed.

Lemma M_Comment_delete_fk_integrity :
  M_fk_integrity db → M_fk_integrity (Models.Collector_delete db col).
Proof.
  intros (Hposts & Hcomments & Hmedia & Hlikes).
  unfold M_fk_integrity, M_Post_fk_ok, M_Comment_fk_ok, M_Media_fk_ok,
    M_Like_fk_ok.
  rewrite M_Comment_delete_users, M_Comment_delete_block_reasons,
          M_Comment_delete_posts, M_Comment_delete_comments,
          M_Comment_delete_likes.
  split_and!; [done| |  |done].
  - intros k c [_ Hc]%lookup_delete_Some. apply (Hcomments k c Hc).
  - intros k m [Hm Hne]%M_Comment_delete_media.
    destruct (Hmedia k m Hm) as (H1 & H2 & H3). split_and!; [done..|].
    destruct (Models.Media.comment m) as [c|]; [|done]. simpl in *.
    destruct H3 as [x Hx]. exists x. apply lookup_delete_Some.
    split; [congruence|done].
Qed.

End M_Comment_delete.

(** ** Deleting a block reason *)

Section M_BlockReason_delete.
Variables (db : Models.DB) (pk : Z).

Let col : Models.Collector :=
  Models.add_field_update Models.Comment_hidden_reason
    (related (λ c, points_at (Models.Comment.hidden_reason c) {[pk]})
             (Models.comments db))
  (Models.add_field_update Models.Post_hidden_reason
    (related (λ p, points_at (Models.Post.hidden_reason p) {[pk]})
             (Models.posts db))
  (Models.add CT_BlockReason {[pk]} Models.empty_collector)).

Lemma M_BlockReason_delete_eq :
  Models.BlockReason_delete db pk = Ok (Models.Collector_delete db col).
Proof. done. Qed.

Lemma M_BlockReason_delete_data m k :
  k ∈ Models.data col m ↔ m = CT_BlockReason ∧ k = pk.
Proof.
  unfold col. M_collected_data. rewrite elem_of_singleton. tauto.
Qed.

Lemma M_BlockReason_delete_none m :
  m ≠ CT_BlockReason → ∀ k, k ∉ Models.data col m.
Proof. intros H1 k [? _]%M_BlockReason_delete_data; done. Qed.

Lemma M_BlockReason_delete_updates f k :
  k ∈ Models.field_updates col f ↔
  (f = Models.Post_hidden_reason
   ∧ ∃ p, Models.posts db !! k = Some p
          ∧ Models.Post.hidden_reason p = Some pk)
  ∨ (f = Models.Comment_hidden_reason
     ∧ ∃ c, Models.comments db !! k = Some c
            ∧ Models.Comment.hidden_reason c = Some pk).
Proof.
  unfold col. M_collected_updates. rewrite !elem_of_related.
  setoid_rewrite points_at_singleton. tauto.
Qed.

Lemma M_BlockReason_delete_update_Post k p :
  Models.posts db !! k = Some p →
  Models.update_Post col k p =
    if decide (Models.Post.hidden_reason p = Some pk)
    then Models.Post.set_hidden_reason None p else p.
Proof.
  intros Hk. unfold Models.update_Post.
  rewrite (decide_False (P := k ∈ _ Models.Post_author)).
  2: { rewrite M_BlockReason_delete_updates.
       intros [[? _]|[? _]]; discriminate. }
  case_decide as Hin; case_decide as Hu; try done.
  - apply M_BlockReason_delete_updates in Hin
      as [[_ (p0 & Hp0 & Hin)]|[? _]]; try discriminate.
    congruence.
  - exfalso. apply Hin, M_BlockReason_delete_updates. left. eauto.
Qed.

Lemma M_BlockReason_delete_update_Comment k c :
  Models.comments db !! k = Some c →
  Models.update_Comment col k c =
    if decide (Models.Comment.hidden_reason c = Some pk)
    then Models.Comment.set_hidden_reason None c else c.
Proof.
  intros Hk. unfold Models.update_Comment.
  rewrite (decide_False (P := k ∈ _ Models.Comment_author)).
  2: { rewrite M_BlockReason_delete_updates.
       intros [[? _]|[? _]]; discriminate. }
  case_decide as Hin; case_decide as Hu; try done.
  - apply M_BlockReason_delete_updates in Hin
      as [[? _]|[_ (c0 & Hc0 & Hin)]]; try discriminate.
    congruence.
  - exfalso. apply Hin, M_BlockReason_delete_updates. right. eauto.
Qed.

Lemma M_BlockReason_delete_update_Media k (m : Models.Media.t) :
  Models.update_Media col k m = m.
Proof.
  unfold Models.update_Media.
  by rewrite !decide_False by apply not_elem_of_empty.
Qed.

Lemma M_BlockReason_delete_users :
  Models.users (Models.Collector_delete db col) = Models.users db.
Proof. by apply remaining_none, M_BlockReason_delete_none. Qed.

Lemma M_BlockReason_delete_likes :
  Models.likes (Models.Collector_delete db col) = Models.likes db.
Proof. by apply remaining_none, M_BlockReason_delete_none. Qed.

Lemma M_BlockReason_delete_block_reasons :
  Models.block_reasons (Models.Collector_delete db col)
  = delete pk (Models.block_reasons db).
Proof.
  apply map_eq. intros k. apply option_eq. intros v.
  change (Models.block_reasons (Models.Collector_delete db col))
    with (remaining (Models.data col CT_BlockReason)
            (Models.block_reasons db)).
  rewrite lookup_remaining_Some, M_BlockReason_delete_data,
    lookup_delete_Some.
  split.
  - intros [Hv Hk]. split; [|done]. intros <-. by apply Hk.
  - intros [Hk Hv]. split; [done|]. intros [_ Heq]. by apply Hk.
Qed.

Lemma M_BlockReason_delete_posts :
  Models.posts (Models.Collector_delete db col) =
    (λ p, if decide (Models.Post.hidden_reason p = Some pk)
          then Models.Post.set_hidden_reason None p else p)
    <$> Models.posts db.
Proof.
  apply map_eq. intros k.
  change (Models.posts (Models.Collector_delete db col) !! k)
    with (remaining (Models.data col CT_Post)
            (map_imap (λ k p, Some (Models.update_Post col k p))
                      (Models.posts db)) !! k).
  rewrite lookup_remaining_imap, lookup_fmap.
  rewrite decide_False by by apply M_BlockReason_delete_none.
  destruct (Models.posts db !! k) as [p|] eqn:Hp; [|done]. simpl.
  by rewrite M_BlockReason_delete_update_Post.
Qed.

Lemma M_BlockReason_delete_comments :
  Models.comments (Models.Collector_delete db col) =
    (λ c, if decide (Models.Comment.hidden_reason c = Some pk)
          then Models.Comment.set_hidden_reason None c else c)
    <$> Models.comments db.
Proof.
  apply map_eq. intros k.
  change (Models.comments (Models.Collector_delete db col) !! k)
    with (remaining (Models.data col CT_Comment)
            (map_imap (λ k c, Some (Models.update_Comment col k c))
                      (Models.comments db)) !! k).
  rewrite lookup_remaining_imap, lookup_fmap.
  rewrite decide_False by by apply M_BlockReason_delete_none.
  destruct (Models.comments db !! k) as [c|] eqn:Hc; [|done]. simpl.
  by rewrite M_BlockReason_delete_update_Comment.
Qed.

Lemma M_BlockReason_delete_media :
  Models.media (Models.Collector_delete db col) = Models.media db.
Proof.
  apply map_eq. intros k.
  change (Models.media (Models.Collector_delete db col) !! k)
    with (remaining (Models.data col CT_Media)
            (map_imap (λ k m, Some (Models.update_Media col k m))
                      (Models.media db)) !! k).
  rewrite lookup_remaining_imap.
  rewrite decide_False by by apply M_BlockReason_delete_none.
  destruct (Models.media db !! k); simpl;
    [by rewrite M_BlockReason_delete_update_Media|done].
Qed.

(** X20.  Under the first schema deleting a block reason deletes no post and no
    comment: those hidden for that reason stay under their keys with the
    reason reset to null and the [hidden] flag and every other column as
    they were; users, uploads and likes are untouched. *)
Theorem M_BlockReason_delete_nullifies :
  ∃ db', Models.BlockReason_delete db pk = Ok db' ∧
    Models.users db' = Models.users db ∧
    Models.block_reasons db' = delete pk (Models.block_reasons db) ∧
    Models.posts db' =
      (λ p, if decide (Models.Post.hidden_reason p = Some pk)
            then Models.Post.set_hidden_reason None p else p)
      <$> Models.posts db ∧
    Models.comments db' =
      (λ c, if decide (Models.Comment.hidden_reason c = Some pk)
            then Models.Comment.set_hidden_reason None c else c)
      <$> Models.comments db ∧
    Models.media db' = Models.media db ∧
    Models.likes db' = Models.likes db ∧
    (∀ k p p', Models.posts db !! k = Some p →
       Models.posts db' !! k = Some p' →
       Models.Post.hidden p' = Models.Post.hidden p) ∧
    (∀ k c c', Models.comments db !! k = Some c →
       Models.comments db' !! k = Some c' →
       Models.Comment.hidden c' = Models.Comment.hidden c).
Proof.
  exists (Models.Collector_delete db col).
  split; [apply M_BlockReason_delete_eq|]. split_and!.
  - apply M_BlockReason_delete_users.
  - apply M_BlockReason_delete_block_reasons.
  - apply M_BlockReason_delete_posts.
  - apply M_BlockReason_delete_comments.
  - apply M_BlockReason_delete_media.
  - apply M_BlockReason_delete_likes.
  - intros k p p' Hp. rewrite M_BlockReason_delete_posts, lookup_fmap, Hp.
    intros [= <-]. by case_decide.
  - intros k c c' Hc.
    rewrite M_BlockReason_delete_comments, lookup_fmap, Hc.
    intros [= <-]. by case_decide.
Qed.

Lemma M_BlockReason_delete_fk_integrity :
  M_fk_integrity db → M_fk_integrity (Models.Collector_delete db col).
Proof.
  intros (Hposts & Hcomments & Hmedia & Hlikes).
  unfold M_fk_integrity, M_Post_fk_ok, M_Comment_fk_ok, M_Media_fk_ok,
    M_Like_fk_ok.
  rewrite M_BlockReason_delete_users, M_BlockReason_delete_block_reasons,
          M_BlockReason_delete_posts, M_BlockReason_delete_comments,
          M_BlockReason_delete_media, M_BlockReason_delete_likes.
  split_and!.
  - intros k p' (p & <- & Hp)%lookup_fmap_Some.
    destruct (Hposts k p Hp) as [H1 H2]. split.
    + by case_decide.
    + replace (Models.Post.hidden_reason _)
        with (if decide (Models.Post.hidden_reason p = Some pk) then None
              else Models.Post.hidden_reason p) by by case_decide.
      by apply ref_ok_reset.
  - intros k c' (c & <- & Hc)%lookup_fmap_Some.
    destruct (Hcomments k c Hc) as (H1 & H2 & H3). split_and!.
    + rewrite lookup_fmap.
      replace (Models.Comment.post _) with (Models.Comment.post c)
        by by case_decide.
      by apply fmap_is_Some.
    + by case_decide.
    + replace (Models.Comment.hidden_reason _)
        with (if decide (Models.Comment.hidden_reason c = Some pk) then None
              else Models.Comment.hidden_reason c) by by case_decide.
      by apply ref_ok_reset.
  - intros k m Hm. destruct (Hmedia k m Hm) as (H1 & H2 & H3).
    split_and!; [done|..].
    + destruct (Models.Media.post m); [|done]. simpl in *.
      rewrite lookup_fmap. by apply fmap_is_Some.
    + destruct (Models.Media.comment m); [|done]. simpl in *.
      rewrite lookup_fmap. by apply fmap_is_Some.
  - intros k l Hl. destruct (Hlikes k l Hl) as [H1 H2]. split; [done|].
    rewrite lookup_fmap. by apply fmap_is_Some.
Qed.

End M_BlockReason_delete.

(** ** Referential integrity under the first schema *)

(** X21.  Every deletion of the first schema keeps referential integrity: after
    deleting a user, a post, a comment or a block reason from a database
    whose foreign keys are null or name a row, every foreign key is null or
    names a row. *)
Theorem M_deletions_keep_fk_integrity (db : Models.DB) (pk : Z) :
  M_fk_integrity db →
  (∃ db', Models.User_delete db pk = Ok db' ∧ M_fk_integrity db') ∧
  (∃ db', Models.Post_delete db pk = Ok db' ∧ M_fk_integrity db') ∧
  (∃ db', Models.Comment_delete db pk = Ok db' ∧ M_fk_integrity db') ∧
  (∃ db', Models.BlockReason_delete db pk = Ok db' ∧ M_fk_integrity db').
Proof.
  intros Hdb. split_and!; eexists; (split; [done|]).
  - by apply M_User_delete_fk_integrity.
  - by apply M_Post_delete_fk_integrity.
  - by apply M_Comment_delete_fk_integrity.
  - by apply M_BlockReason_delete_fk_integrity.
Qed.

Lemma M_deletions_keep_fk_integrity_witness :
  (∃ db', Models.User_delete M_sample_db 1 = Ok db' ∧ M_fk_integrity db') ∧
  (∃ db', Models.Post_delete M_sample_db 1 = Ok db' ∧ M_fk_integrity db') ∧
  (∃ db', Models.Comment_delete M_sample_db 1 = Ok db'
          ∧ M_fk_integrity db') ∧
  (∃ db', Models.BlockReason_delete M_sample_db 1 = Ok db'
          ∧ M_fk_integrity db').
Proof.
  apply (M_deletions_keep_fk_integrity M_sample_db 1).
  apply (bool_decide_unpack _). by vm_compute.
Defined.

(** ** Uploads of the first schema *)

Lemma nullable_foreign_key_ok {A} column (table : gmap Z A) v :
  ref_ok table v → Models.nullable_foreign_key column table v = Ok tt.
Proof. destruct v; simpl; [apply foreign_key_ok|done]. Qed.

Lemma nullable_foreign_key_missing {A} column (table : gmap Z A) k :
  table !! k = None →
  Models.nullable_foreign_key column table (Some k)
  = Err (IntegrityError (ForeignKey column)).
Proof. apply foreign_key_missing. Qed.

Lemma nullable_foreign_key_Ok {A} column (table : gmap Z A) v x :
  Models.nullable_foreign_key column table v = Ok x → ref_ok table v.
Proof. destruct v; simpl; [apply foreign_key_Ok|done]. Qed.

(** The row [Media_create] stores. *)
Definition M_Media_row (file : string) (uploaded_by post comment : option Z)
    (now : Z) : Models.Media.t :=
  {| Models.Media.file := file; Models.Media.uploaded_by := uploaded_by;
     Models.Media.uploaded_at := now; Models.Media.post := post;
     Models.Media.comment := comment |}.

(** X22.  An upload of the first schema is stored exactly when each of its three
    references is null or names a row: the uploader, the post and the
    comment are checked independently, so an upload on no post and no
    comment is stored, and so is one on both.  A reference to a missing
    row, the other two being fine, fails on its own column. *)
Theorem M_Media_create_checks (db : Models.DB) (file : string)
    (uploaded_by post comment : option Z) (now : Z) :
  (ref_ok (Models.users db) uploaded_by →
   ref_ok (Models.posts db) post →
   ref_ok (Models.comments db) comment →
   ∃ db' pk,
     Models.Media_create db file uploaded_by post comment now = Ok (db', pk)
     ∧ Models.media db !! pk = None
     ∧ Models.media db' =
         <[pk := M_Media_row file uploaded_by post comment now]>
           (Models.media db)
     ∧ Models.users db' = Models.users db
     ∧ Models.block_reasons db' = Models.block_reasons db
     ∧ Models.posts db' = Models.posts db
     ∧ Models.comments db' = Models.comments db
     ∧ Models.likes db' = Models.likes db) ∧
  (∀ u, uploaded_by = Some u → Models.users db !! u = None →
   ref_ok (Models.posts db) post →
   ref_ok (Models.comments db) comment →
   Models.Media_create db file uploaded_by post comment now
   = Err (IntegrityError (ForeignKey "uploaded_by_id"))) ∧
  (∀ p, ref_ok (Models.users db) uploaded_by →
   post = Some p → Models.posts db !! p = None →
   ref_ok (Models.comments db) comment →
   Models.Media_create db file uploaded_by post comment now
   = Err (IntegrityError (ForeignKey "post_id"))) ∧
  (∀ c, ref_ok (Models.users db) uploaded_by →
   ref_ok (Models.posts db) post →
   comment = Some c → Models.comments db !! c = None →
   Models.Media_create db file uploaded_by post comment now
   = Err (IntegrityError (ForeignKey "comment_id"))).
Proof.
  unfold Models.Media_create. split_and!.
  - intros Hu Hp Hc.
    rewrite (nullable_foreign_key_ok "uploaded_by_id") by done.
    rewrite (nullable_foreign_key_ok "post_id") by done.
    rewrite (nullable_foreign_key_ok "comment_id") by done.
    eexists _, _. split; [done|]. split; [apply next_pk_fresh|done].
  - intros u -> Hu _ _.
    by rewrite (nullable_foreign_key_missing "uploaded_by_id") by done.
  - intros p Hu -> Hp _.
    rewrite (nullable_foreign_key_ok "uploaded_by_id") by done.
    by rewrite (nullable_foreign_key_missing "post_id") by done.
  - intros c Hu Hp -> Hc.
    rewrite (nullable_foreign_key_ok "uploaded_by_id") by done.
    rewrite (nullable_foreign_key_ok "post_id") by done.
    by rewrite (nullable_foreign_key_missing "comment_id") by done.
Qed.

Lemma M_Media_create_Ok db file uploaded_by post comment now db' pk :
  Models.Media_create db file uploaded_by post comment now = Ok (db', pk) →
  ref_ok (Models.users db) uploaded_by ∧
  ref_ok (Models.posts db) post ∧
  ref_ok (Models.comments db) comment ∧
  db' = {| Models.users := Models.users db;
           Models.block_reasons := Models.block_reasons db;
           Models.posts := Models.posts db;
           Models.comments := Models.comments db;
           Models.media :=
             <[pk := M_Media_row file uploaded_by post comment now]>
               (Models.media db);
           Models.likes := Models.likes db |}.
Proof.
  intros (? & H1%nullable_foreign_key_Ok
          & (? & H2%nullable_foreign_key_Ok
             & (? & H3%nullable_foreign_key_Ok
                & [= <- <-])%bind_Ok)%bind_Ok)%bind_Ok.
  by split_and!.
Qed.

Lemma M_Like_create_Ok db user post now db' pk :
  Models.Like_create db user post now = Ok (db', pk) →
  is_Some (Models.users db !! user) ∧
  is_Some (Models.posts db !! post) ∧
  db' = {| Models.users := Models.users db;
           Models.block_reasons := Models.block_reasons db;
           Models.posts := Models.posts db;
           Models.comments := Models.comments db;
           Models.media := Models.media db;
           Models.likes :=
             <[pk := {| Models.Like.user := user; Models.Like.post := post;
                        Models.Like.created_at := now |}]>
               (Models.likes db) |}.
Proof.
  intros (? & H1%foreign_key_Ok
          & (? & H2%foreign_key_Ok
             & (? & _ & [= <- <-])%bind_Ok)%bind_Ok)%bind_Ok.
  by split_and!.
Qed.

(** X23.  The inserts of the first schema keep referential integrity: after an
    upload or a like was stored in a database whose foreign keys are null
    or name a row, every foreign key is null or names a row. *)
Theorem M_inserts_keep_fk_integrity (db : Models.DB) :
  M_fk_integrity db →
  (∀ file uploaded_by post comment now db' pk,
     Models.Media_create db file uploaded_by post comment now
     = Ok (db', pk) → M_fk_integrity db') ∧
  (∀ user post now db' pk,
     Models.Like_create db user post now = Ok (db', pk) →
     M_fk_integrity db').
Proof.
  intros (Hposts & Hcomments & Hmedia & Hlikes). split.
  - intros file ub post comment now db' pk
           (Hu & Hp & Hc & ->)%M_Media_create_Ok.
    split_and!; [done|done| |done].
    intros k m Hk. simpl in Hk.
    apply lookup_insert_Some in Hk as [[_ <-]|[_ Hk]].
    + by split_and!.
    + apply (Hmedia k m Hk).
  - intros user post now db' pk (Hu & Hp & ->)%M_Like_create_Ok.
    split_and!; [done|done|done|].
    intros k l Hk. simpl in Hk.
    apply lookup_insert_Some in Hk as [[_ <-]|[_ Hk]].
    + by split.
    + apply (Hlikes k l Hk).
Qed.

Lemma M_inserts_keep_fk_integrity_witness :
  (∀ file uploaded_by post comment now db' pk,
     Models.Media_create M_sample_db file uploaded_by post comment now
     = Ok (db', pk) → M_fk_integrity db') ∧
  (∀ user post now db' pk,
     Models.Like_create M_sample_db user post now = Ok (db', pk) →
     M_fk_integrity db').
Proof.
  apply (M_inserts_keep_fk_integrity M_sample_db).
  apply (bool_decide_unpack _). by vm_compute.
Defined.

Lemma Like_create_twice_post_witness :
  ∃ db' pk,
    Models.Like_create M_sample_db 1 1 20 = Ok (db', pk) ∧
    Models.likes M_sample_db !! pk = None ∧
    Models.likes db' =
      <[pk := {| Models.Like.user := 1; Models.Like.post := 1;
                 Models.Like.created_at := 20 |}]>
        (Models.likes M_sample_db) ∧
    Models.Like_create db' 1 1 21 =
      Err (IntegrityError (Unique "user_post")).
Proof.
  apply (Like_create_twice_post M_sample_db 1 1 20 21);
    apply (bool_decide_unpack _); by vm_compute.
Defined.

(** * The views behind their routes *)

(** Five hours back from a time in the first five hours of ordinal day 1
    is before the first date. *)
Lemma datetime_sub_5h_early (dt : datetime) :
  datetime_valid dt → ordinal dt = 1 → hour dt < 5 →
  datetime_sub dt (timedelta_new 0 5 0 0 0)
  = Err (OverflowError "date value out of range").
Proof.
  intros (Hord & Hh & Hm & Hs & Hus) H1 H5.
  unfold datetime_sub, datetime_add. rewrite timedelta_minus_5h.
  rewrite (timedelta_new_normal (ordinal dt)) by lia.
  unfold timedelta_add. cbn [days seconds microseconds].
  replace (hour dt * 3600 + minute dt * 60 + second dt + 68400)
    with ((hour dt + 19) * 3600 + minute dt * 60 + second dt) by lia.
  assert (timedelta_new (ordinal dt + -1) 0 0
            ((hour dt + 19) * 3600 + minute dt * 60 + second dt)
            (microsecond dt + 0)
          = {| days := 0;
               seconds := (hour dt + 19) * 3600 + minute dt * 60
                          + second dt;
               microseconds := microsecond dt |}) as ->.
  { unfold timedelta_new.
    rewrite (Z.div_small (microsecond dt + 0)),
            (Z.mod_small (microsecond dt + 0)) by lia.
    rewrite Z.div_small, Z.mod_small by lia.
    f_equal; lia. }
  cbn [days seconds microseconds].
  by rewrite bool_decide_eq_false_2 by lia.
Qed.

(** X25.  [current_time] raises instead of answering exactly when the clock
    reads a time in the first five hours of ordinal day 1: the time five
    hours earlier is then before the first date a [datetime] can hold. *)
Theorem current_time_raises (utc_now : datetime) (request : HttpRequest) :
  datetime_valid utc_now →
  current_time utc_now request
    = Err (OverflowError "date value out of range")
  ↔ ordinal utc_now = 1 ∧ hour utc_now < 5.
Proof.
  intros Hvalid. split.
  - intros Herr.
    destruct (decide (1 < ordinal utc_now ∨ 5 ≤ hour utc_now)) as [Hl|Hl].
    + unfold current_time in Herr.
      by rewrite (datetime_sub_5h utc_now Hvalid Hl) in Herr.
    + destruct Hvalid as (? & _). lia.
  - intros [H1 H5]. unfold current_time.
    by rewrite datetime_sub_5h_early.
Qed.

Lemma current_time_raises_witness :
  current_time {| ordinal := 1; hour := 3; minute := 30; second := 0;
                  microsecond := 0 |} {| method := "GET"; GET := [] |}
    = Err (OverflowError "date value out of range")
  ↔ 1 = 1 ∧ 3 < 5.
Proof.
  apply (current_time_raises
           {| ordinal := 1; hour := 3; minute := 30; second := 0;
              microsecond := 0 |} {| method := "GET"; GET := [] |}).
  unfold datetime_valid, MAXORDINAL. simpl. lia.
Defined.

(** X26.  Whatever the path, the method and the query: a request either matches
    none of the three routes, or is answered with status 200, or is a
    request to [dummypage] with a method other than GET, for which the view
    returns no response.  No routed view raises (the clock being past the
    first five hours of ordinal day 1), and no answer carries an error
    status, a malformed number given to [sum] included. *)
Theorem routed_requests `{PyFloat} (utc_now : datetime) (p : string)
    (request : HttpRequest) :
  datetime_valid utc_now → 1 < ordinal utc_now ∨ 5 ≤ hour utc_now →
  match Urls.dispatch utc_now p request with
  | None => p ≠ "dummypage" ∧ p ≠ "time" ∧ p ≠ "sum"
  | Some (Ok (Some response)) =>
      status_code response = 200
      ∧ (p = "dummypage" ∨ p = "time" ∨ p = "sum")
      ∧ (p = "dummypage" → method request = "GET")
  | Some (Ok None) => p = "dummypage" ∧ method request ≠ "GET"
  | Some (Err e) => False
  end.
Proof.
  intros Hvalid Hfirst.
  unfold Urls.dispatch, Urls.urlpatterns, Urls.resolve, Urls.path.
  cbn [Urls.route Urls.callback].
  destruct (decide ("dummypage" = p)) as [<-|H1].
  { cbn [Urls.callback]. unfold dummypage.
    case_decide; simpl; [split_and!; auto|done]. }
  destruct (decide ("time" = p)) as [<-|H2].
  { cbn [Urls.callback]. unfold current_time.
    rewrite (datetime_sub_5h utc_now Hvalid Hfirst). simpl.
    split_and!; auto; discriminate. }
  destruct (decide ("sum" = p)) as [<-|H3].
  { cbn [Urls.callback]. unfold add_numbers.
    destruct (float_param request "n1") as [n1|e1]; simpl;
      [destruct (float_param request "n2") as [n2|e2]; simpl|];
      split_and!; auto; discriminate. }
  split_and!; congruence.
Qed.

Lemma routed_requests_witness :
  match Urls.dispatch (H := whole_floats) sample_utc_now "sum"
          {| method := "POST"; GET := [("n1", "2"); ("n2", "x")] |} with
  | None => "sum" ≠ "dummypage" ∧ "sum" ≠ "time" ∧ "sum" ≠ "sum"
  | Some (Ok (Some response)) =>
      status_code response = 200
      ∧ ("sum" = "dummypage" ∨ "sum" = "time" ∨ "sum" = "sum")
      ∧ ("sum" = "dummypage" → "POST" = "GET")
  | Some (Ok None) => "sum" = "dummypage" ∧ "POST" ≠ "GET"
  | Some (Err e) => False
  end.
Proof.
  apply (routed_requests (H := whole_floats) sample_utc_now "sum"
           {| method := "POST"; GET := [("n1", "2"); ("n2", "x")] |}).
  - unfold datetime_valid, MAXORDINAL. simpl. lia.
  - left. simpl. lia.
Defined.
